(** * The per-frame gameplay core of the dinosaur scene

    A shallow embedding of the simulation code of the repository:

    - [Player]          : the [useFrame] callback of the player controller
                          (second document of [docs/components/playerState.ts]);
    - [PlayerStateTs]   : the shared fire-emission record
                          (first document of [docs/components/playerState.ts]);
    - [ChickensFixed]   : [docs/components/Chickens.tsx] (fixed roster, three
                          modes, no respawn);
    - [ChickensRespawn] : the second document of [unnamed/part_000] (fixed
                          roster, four modes, in-place respawn);
    - [ChickensGrow]    : the first document of [unnamed/part_000] (roster that
                          is replenished by [push]).

    JavaScript numbers are idealised as real numbers: [Math.sqrt], [Math.sin],
    [Math.cos], [Math.abs], [Math.max] are the functions of the same name on
    [R], comparisons are the order of [R].  Rounding, NaN and infinities are
    outside the model.  [Math.random()] is a stream [random : nat -> R] read
    through a cursor that every call advances.  Objects that the code mutates
    in place are passed and returned as values. *)

From Stdlib Require Import Reals Lra Lia List Bool String ZArith Psatz.
Import ListNotations.
Open Scope R_scope.

Set Implicit Arguments.

(* ================================================================== *)
(** ** Numbers *)

Module Num.

Definition ltb (a b : R) : bool := if Rlt_dec a b then true else false.
Definition leb (a b : R) : bool := if Rle_dec a b then true else false.
Definition gtb (a b : R) : bool := ltb b a.
Definition geb (a b : R) : bool := leb b a.
Definition eqb (a b : R) : bool := if Req_dec_T a b then true else false.

(** [Math.floor] *)
Definition floor (a : R) : Z := Int_part a.

End Num.

(* ================================================================== *)
(** ** The part of three.js that the frame callbacks call *)

Module THREE.

Record Vector3 : Type := vec3 { x : R; y : R; z : R }.

Definition set_x (a : R) (v : Vector3) := vec3 a (y v) (z v).
Definition set_y (a : R) (v : Vector3) := vec3 (x v) a (z v).
Definition set_z (a : R) (v : Vector3) := vec3 (x v) (y v) a.

Definition sub (a b : Vector3) := vec3 (x a - x b) (y a - y b) (z a - z b).
Definition add (a b : Vector3) := vec3 (x a + x b) (y a + y b) (z a + z b).

Definition lengthSq (v : Vector3) : R := x v * x v + y v * y v + z v * z v.
Definition length (v : Vector3) : R := sqrt (lengthSq v).

Definition multiplyScalar (v : Vector3) (s : R) := vec3 (x v * s) (y v * s) (z v * s).
Definition divideScalar (v : Vector3) (s : R) := multiplyScalar v (1 / s).

(** [normalize() = divideScalar(length() || 1)] *)
Definition normalize (v : Vector3) :=
  divideScalar v (if Num.eqb (length v) 0 then 1 else length v).

Definition distanceToSquared (a b : Vector3) : R :=
  let dx := x a - x b in
  let dy := y a - y b in
  let dz := z a - z b in
  dx * dx + dy * dy + dz * dz.
Definition distanceTo (a b : Vector3) : R := sqrt (distanceToSquared a b).

(** [v.lerp(target, alpha)] *)
Definition lerp (v target : Vector3) (alpha : R) :=
  vec3 (x v + (x target - x v) * alpha)
       (y v + (y target - y v) * alpha)
       (z v + (z target - z v) * alpha).

Definition addScaledVector (v w : Vector3) (s : R) :=
  vec3 (x v + x w * s) (y v + y w * s) (z v + z w * s).

(** [v.applyAxisAngle(UP_AXIS, angle)]: the rotation about the vertical
    axis, the only axis the code passes. *)
Definition applyAxisAngleUp (v : Vector3) (angle : R) :=
  vec3 (x v * cos angle + z v * sin angle)
       (y v)
       (z v * cos angle - x v * sin angle).

Module MathUtils.
Definition clamp (value min max : R) : R := Rmax min (Rmin max value).
Definition lerp (a b t : R) : R := (1 - t) * a + t * b.
End MathUtils.

(** [Math.hypot(dx, dz)] *)
Definition hypot (dx dz : R) : R := sqrt (dx * dx + dz * dz).

End THREE.

(* ================================================================== *)
(** ** [Array.prototype.forEach] over a roster

    The callback [f] receives a threaded state (random cursor, counters) and
    one element, and returns the mutated element, the callbacks it invoked,
    and the new threaded state.  Events are tagged with the array index. *)

Section ForEach.
Variables C S E : Type.
Variable f : S -> C -> C * list E * S.

Fixpoint forEach (i : nat) (s : S) (cs : list C) : list C * list (nat * E) * S :=
  match cs with
  | [] => ([], [], s)
  | c :: cs' =>
      let '(c', ev, s1) := f s c in
      let '(cs'', evs, s2) := forEach (Datatypes.S i) s1 cs' in
      (c' :: cs'', map (pair i) ev ++ evs, s2)
  end.

Definition forEach_items i s cs := fst (fst (forEach i s cs)).
Definition forEach_events i s cs := snd (fst (forEach i s cs)).
Definition forEach_state i s cs := snd (forEach i s cs).

(** Events the callback invoked for index [k]. *)
Definition eventsOf (k : nat) (evs : list (nat * E)) : list E :=
  map snd (filter (fun e => Nat.eqb (fst e) k) evs).

End ForEach.

Arguments forEach {C S E} f i s cs.
Arguments forEach_items {C S E} f i s cs.
Arguments forEach_events {C S E} f i s cs.
Arguments forEach_state {C S E} f i s cs.
Arguments eventsOf {E} k evs.

(* ================================================================== *)
(** ** [playerState.ts]: the shared fire-emission record *)

Module PlayerStateTs.

Record PlayerActionState : Type := {
  fireCenters : list THREE.Vector3;
  fireRadius : R;
  fireActive : bool
}.

(** The module-level object as the file initialises it. *)
Definition playerActionState : PlayerActionState :=
  {| fireCenters := []; fireRadius := 1.8; fireActive := false |}.

(** [updatePlayerFireState] overwrites the three fields. *)
Definition updatePlayerFireState (centers : list THREE.Vector3) (radius : R) (active : bool)
           (_ : PlayerActionState) : PlayerActionState :=
  {| fireCenters := centers; fireRadius := radius; fireActive := active |}.

End PlayerStateTs.

(* ================================================================== *)
(** ** [Player]: the frame callback of the player controller

    The limb, jaw, tail and lean animations and the camera follow write only
    to objects that no gameplay code reads, and are left out.  The forward
    vector and the mouth anchor come out of three.js's scene graph (the
    group's quaternion and world matrix); they are inputs of the frame. *)

Module Player.
Import PlayerStateTs.

Definition FIRE_HIT_RADIUS : R := 2.4.
Definition FIRE_VISUAL_LENGTH : R := 6.
Definition FIRE_DROP_OFFSET : THREE.Vector3 := THREE.vec3 0 (-2) 0.

Definition speed : R := 0.5.
Definition rotationSpeed : R := 0.05.

Definition altarPos : THREE.Vector3 := THREE.vec3 0 8 (-110).
Definition monumentPos : THREE.Vector3 := THREE.vec3 (-30) 8 (-105).
Definition debrisPos : THREE.Vector3 := THREE.vec3 30 8 (-105).

Definition stairStartZ : R := -5.
Definition stairEndZ : R := -25.
Definition topY : R := 8.

Definition checkTrigger (pos target : THREE.Vector3) (range : R) : bool :=
  Num.ltb (THREE.distanceTo pos target) range.

(** [useInput().input] *)
Record Input : Type := {
  forward : bool; backward : bool; left : bool; right : bool; fire : bool
}.

(** What the callback reads and writes of the [THREE.Group] behind
    [groupRef]. *)
Record Group : Type := {
  rotation_y : R;
  group_position : THREE.Vector3
}.

Record State : Type := {
  position : THREE.Vector3;        (* [useState(new Vector3(0, 0, 10))], mutated in place *)
  groupRef : option Group;         (* [groupRef.current], [None] for [null] *)
  fireIntensityRef : R;
  fireRef_visible : bool           (* [fireRef.current.visible] *)
}.

Record Frame : Type := {
  time : R;                        (* [state.clock.getElapsedTime()] *)
  input : Input;
  joystickState_x : R;
  joystickState_y : R;
  fireButtonState_pressed : bool;
  isLocked : bool;
  tmpForward : THREE.Vector3;      (* [(0,0,-1).applyQuaternion(group.quaternion).normalize()] *)
  mouthWorld : THREE.Vector3       (* [(0,3.8,2.2).applyMatrix4(group.matrixWorld)] *)
}.

Record Result : Type := {
  next : State;
  published : PlayerActionState;   (* the shared record after the frame *)
  onTrigger : list string          (* arguments of the [onTrigger] calls, in order *)
}.

Definition initial : State :=
  {| position := THREE.vec3 0 0 10; groupRef := None;
     fireIntensityRef := 0; fireRef_visible := false |}.

(** Section 3 of the callback: the height of the stairs at depth [z]. *)
Definition stairsY (z : R) : R :=
  if Num.ltb z stairStartZ && Num.gtb z stairEndZ then
    let ratio := (z - stairStartZ) / (stairEndZ - stairStartZ) in
    THREE.MathUtils.lerp 0 topY ratio
  else if Num.leb z stairEndZ then topY
  else 0.

(** Sections 1 and 2: the two axes, keyboard first, joystick override. *)
Definition moveForward (f : Frame) : R :=
  if Num.gtb (Rabs (joystickState_y f)) 0.1 || Num.gtb (Rabs (joystickState_x f)) 0.1
  then joystickState_y f
  else (if forward (input f) then 1 else 0) - (if backward (input f) then 1 else 0).

Definition moveTurn (f : Frame) : R :=
  if Num.gtb (Rabs (joystickState_y f)) 0.1 || Num.gtb (Rabs (joystickState_x f)) 0.1
  then - joystickState_x f
  else (if left (input f) then 1 else 0) - (if right (input f) then 1 else 0).

Definition boundaries (newPos : THREE.Vector3) : THREE.Vector3 :=
  let newPos := if Num.gtb (THREE.x newPos) 35 then THREE.set_x 35 newPos else newPos in
  let newPos := if Num.ltb (THREE.x newPos) (-35) then THREE.set_x (-35) newPos else newPos in
  let newPos := if Num.gtb (THREE.z newPos) 15 then THREE.set_z 15 newPos else newPos in
  let newPos := if Num.ltb (THREE.z newPos) (-125) then THREE.set_z (-125) newPos else newPos in
  newPos.

Definition triggers (position : THREE.Vector3) : list string :=
  (if checkTrigger position altarPos 12 then ["https://www.zhenggdove.com/exhibition"%string] else [])
  ++ (if checkTrigger position monumentPos 12 then ["https://www.zhenggdove.com/bio"%string] else [])
  ++ (if checkTrigger position debrisPos 12
      then ["https://www.zhenggdove.com/category/all-products"%string] else []).

Definition useFrame (f : Frame) (shared : PlayerActionState) (s : State) : Result :=
  match groupRef s with
  | None => {| next := s; published := shared; onTrigger := [] |}
  | Some group =>
      if isLocked f then
        {| next := {| position := position s; groupRef := Some group;
                      fireIntensityRef := fireIntensityRef s; fireRef_visible := false |};
           published := updatePlayerFireState [] FIRE_HIT_RADIUS false shared;
           onTrigger := [] |}
      else
        (* 1-2. input and movement *)
        let rotation_y := rotation_y group + moveTurn f * rotationSpeed in
        let movementDir := THREE.applyAxisAngleUp (THREE.vec3 0 0 (-1)) rotation_y in
        let position :=
          if Num.eqb (moveForward f) 0 then position s
          else boundaries (THREE.addScaledVector (position s) movementDir (moveForward f * speed)) in
        (* 3. stairs *)
        let position := THREE.set_y (stairsY (THREE.z position)) position in
        (* 4. body bob, applied to the group *)
        let isMoving := Num.gtb (Rabs (moveForward f)) 0.1 || Num.gtb (Rabs (moveTurn f)) 0.1 in
        let bob := if isMoving then sin (time f * 10) * 0.15 else sin (time f * 1.5) * 0.02 in
        let group_position := THREE.set_y (THREE.y position + (bob + 2.7)) position in
        (* 6. fire breath *)
        let firing := (fire (input f) || fireButtonState_pressed f) && negb (isLocked f) in
        let fireIntensity :=
          THREE.MathUtils.lerp (fireIntensityRef s) (if firing then 1 else 0)
                               (if firing then 0.2 else 0.18) in
        let fireTargets :=
          [ THREE.addScaledVector (mouthWorld f) (tmpForward f) 1.5;
            THREE.addScaledVector (mouthWorld f) (tmpForward f) 3;
            THREE.addScaledVector (mouthWorld f) (tmpForward f) FIRE_VISUAL_LENGTH;
            THREE.add (THREE.addScaledVector (mouthWorld f) (tmpForward f) 2) FIRE_DROP_OFFSET ] in
        {| next := {| position := position;
                      groupRef := Some {| rotation_y := rotation_y;
                                         group_position := group_position |};
                      fireIntensityRef := fireIntensity;
                      fireRef_visible := Num.gtb fireIntensity 0.05 |};
           published := updatePlayerFireState fireTargets FIRE_HIT_RADIUS
                                              (Num.gtb fireIntensity 0.05) shared;
           (* 7. triggers *)
           onTrigger := triggers position |}
  end.

End Player.

(* ================================================================== *)
(** ** What the creature engines share *)

(** Callbacks into the host: the props [onPlayerHit] and
    [onDrumstickCollected], and [navigator.vibrate]. *)
Inductive Event : Type :=
| onPlayerHit
| onDrumstickCollected
| vibrate (pattern : list nat).

(** One rendered frame, as a creature engine sees it. *)
Record Frame : Type := {
  player : option THREE.Vector3;   (* world position of [scene.getObjectByName('PlayerGroup')],
                                      [None] when the lookup yields [null] *)
  elapsedTime : R;                 (* [state.clock.getElapsedTime()] *)
  delta : R;
  fire : PlayerStateTs.PlayerActionState;
  canVibrate : bool                (* ['vibrate' in navigator] *)
}.

Definition event_eqb (a b : Event) : bool :=
  match a, b with
  | onPlayerHit, onPlayerHit => true
  | onDrumstickCollected, onDrumstickCollected => true
  | vibrate p, vibrate q => if list_eq_dec Nat.eq_dec p q then true else false
  | _, _ => false
  end.




(** Seconds covered by a list of frames. *)
Definition duration (fs : list Frame) : R := fold_right (fun f acc => delta f + acc) 0 fs.


(* ================================================================== *)
(** ** [ChickensFixed]: [docs/components/Chickens.tsx] *)

Module ChickensFixed.
Import PlayerStateTs.

Inductive ChickenMode : Type := wander | chase | drumstick.

Record ChickenState : Type := {
  position : THREE.Vector3;
  velocity : THREE.Vector3;
  wanderDir : R;
  wanderTimer : R;
  hopOffset : R;
  mode : ChickenMode;
  alert : bool;
  drumstickTimer : R;
  drumstickOpacity : R;
  lastPlayerHit : R
}.

Definition CHICKEN_COUNT : nat := 5.
Definition BASE_HEIGHT : R := 8.0.
Definition AREA_X : R := 32.
Definition AREA_Z_MIN : R := -120.
Definition AREA_Z_MAX : R := -60.
Definition WANDER_SPEED : R := 1.2.
Definition CHASE_SPEED : R := 2.2.
Definition ALERT_RADIUS : R := 14.
Definition HIT_RADIUS : R := 2.1.
Definition HOP_HEIGHT : R := 0.65.
Definition HOP_SPEED : R := 5.5.
Definition DRUMSTICK_DURATION : R := 5.
Definition FIRE_PADDING : R := 0.2.

Definition startXs : list R := [-12; -6; 0; 6; 12].
Definition startZ : R := -100.

(** Field assignments. *)
Definition set_position v c :=
  {| position := v; velocity := velocity c; wanderDir := wanderDir c;
     wanderTimer := wanderTimer c; hopOffset := hopOffset c; mode := mode c;
     alert := alert c; drumstickTimer := drumstickTimer c;
     drumstickOpacity := drumstickOpacity c; lastPlayerHit := lastPlayerHit c |}.
Definition set_velocity v c :=
  {| position := position c; velocity := v; wanderDir := wanderDir c;
     wanderTimer := wanderTimer c; hopOffset := hopOffset c; mode := mode c;
     alert := alert c; drumstickTimer := drumstickTimer c;
     drumstickOpacity := drumstickOpacity c; lastPlayerHit := lastPlayerHit c |}.
Definition set_wanderDir v c :=
  {| position := position c; velocity := velocity c; wanderDir := v;
     wanderTimer := wanderTimer c; hopOffset := hopOffset c; mode := mode c;
     alert := alert c; drumstickTimer := drumstickTimer c;
     drumstickOpacity := drumstickOpacity c; lastPlayerHit := lastPlayerHit c |}.
Definition set_wanderTimer v c :=
  {| position := position c; velocity := velocity c; wanderDir := wanderDir c;
     wanderTimer := v; hopOffset := hopOffset c; mode := mode c;
     alert := alert c; drumstickTimer := drumstickTimer c;
     drumstickOpacity := drumstickOpacity c; lastPlayerHit := lastPlayerHit c |}.
Definition set_mode v c :=
  {| position := position c; velocity := velocity c; wanderDir := wanderDir c;
     wanderTimer := wanderTimer c; hopOffset := hopOffset c; mode := v;
     alert := alert c; drumstickTimer := drumstickTimer c;
     drumstickOpacity := drumstickOpacity c; lastPlayerHit := lastPlayerHit c |}.
Definition set_alert v c :=
  {| position := position c; velocity := velocity c; wanderDir := wanderDir c;
     wanderTimer := wanderTimer c; hopOffset := hopOffset c; mode := mode c;
     alert := v; drumstickTimer := drumstickTimer c;
     drumstickOpacity := drumstickOpacity c; lastPlayerHit := lastPlayerHit c |}.
Definition set_drumstickTimer v c :=
  {| position := position c; velocity := velocity c; wanderDir := wanderDir c;
     wanderTimer := wanderTimer c; hopOffset := hopOffset c; mode := mode c;
     alert := alert c; drumstickTimer := v;
     drumstickOpacity := drumstickOpacity c; lastPlayerHit := lastPlayerHit c |}.
Definition set_drumstickOpacity v c :=
  {| position := position c; velocity := velocity c; wanderDir := wanderDir c;
     wanderTimer := wanderTimer c; hopOffset := hopOffset c; mode := mode c;
     alert := alert c; drumstickTimer := drumstickTimer c;
     drumstickOpacity := v; lastPlayerHit := lastPlayerHit c |}.
Definition set_lastPlayerHit v c :=
  {| position := position c; velocity := velocity c; wanderDir := wanderDir c;
     wanderTimer := wanderTimer c; hopOffset := hopOffset c; mode := mode c;
     alert := alert c; drumstickTimer := drumstickTimer c;
     drumstickOpacity := drumstickOpacity c; lastPlayerHit := v |}.

Record State : Type := {
  chickensRef : list ChickenState;
  playerPos : THREE.Vector3;
  cursor : nat                       (* calls of [Math.random()] so far *)
}.

Section WithRandom.
Variable random : nat -> R.

(** Element [i] of [createInitialChickens()], drawing from [rng] on. *)
Definition initialChicken (i rng : nat) : ChickenState :=
  {| position := THREE.vec3 (nth (i mod List.length startXs) startXs 0 + (random rng - 0.5) * 1.5)
                            BASE_HEIGHT
                            (startZ + (random (rng + 1) - 0.5) * 4);
     velocity := THREE.vec3 0 0 0;
     wanderDir := random (rng + 2) * PI * 2;
     wanderTimer := 1.5 + random (rng + 3) * 1.5;
     hopOffset := random (rng + 4) * PI * 2;
     mode := wander;
     alert := false;
     drumstickTimer := 0;
     drumstickOpacity := 1;
     lastPlayerHit := -10 |}.

Definition createInitialChickens : list ChickenState :=
  map (fun i => initialChicken i (5 * i)) (seq 0 CHICKEN_COUNT).

Definition initial : State :=
  {| chickensRef := createInitialChickens;
     playerPos := THREE.vec3 0 0 0;
     cursor := 5 * CHICKEN_COUNT |}.

(** Lines 79-86: a drumstick fades where it lies. *)
Definition fade (f : Frame) (chicken : ChickenState) : ChickenState :=
  let chicken := set_drumstickTimer (drumstickTimer chicken + delta f) chicken in
  let chicken := set_drumstickOpacity
                   (Rmax 0 (1 - drumstickTimer chicken / DRUMSTICK_DURATION)) chicken in
  let chicken := set_alert false chicken in
  let chicken := set_velocity (THREE.vec3 0 0 0) chicken in
  set_position (THREE.set_y BASE_HEIGHT (position chicken)) chicken.

(** Lines 89-112: alert, wander timer, steering, integration, clamp, hop. *)
Definition steer (f : Frame) (playerPos : THREE.Vector3) (distToPlayer : R)
           (rng : nat) (chicken : ChickenState) : ChickenState * nat :=
  let chicken := set_alert (Num.ltb distToPlayer ALERT_RADIUS) chicken in
  let chicken := set_mode (if alert chicken then chase else wander) chicken in
  let chicken := set_wanderTimer (wanderTimer chicken - delta f) chicken in
  let '(chicken, rng) :=
    if Num.leb (wanderTimer chicken) 0
    then (set_wanderDir (random (rng + 1) * PI * 2)
            (set_wanderTimer (1.5 + random rng * 2.5) chicken), (rng + 2)%nat)
    else (chicken, rng) in
  let dir := if alert chicken
             then THREE.sub playerPos (position chicken)
             else THREE.vec3 (sin (wanderDir chicken)) 0 (cos (wanderDir chicken)) in
  let dir := THREE.set_y 0 dir in
  let dir := if Num.gtb (THREE.lengthSq dir) 0.0001 then THREE.normalize dir else dir in
  let speed := if alert chicken then CHASE_SPEED else WANDER_SPEED in
  let targetVel := THREE.multiplyScalar dir speed in
  let chicken := set_velocity (THREE.lerp (velocity chicken) targetVel 0.12) chicken in
  let chicken := set_position
                   (THREE.addScaledVector (position chicken) (velocity chicken) (delta f))
                   chicken in
  let chicken := set_position
                   (THREE.set_x (THREE.MathUtils.clamp (THREE.x (position chicken)) (- AREA_X) AREA_X)
                                (position chicken)) chicken in
  let chicken := set_position
                   (THREE.set_z (THREE.MathUtils.clamp (THREE.z (position chicken)) AREA_Z_MIN AREA_Z_MAX)
                                (position chicken)) chicken in
  let hop := sin (elapsedTime f * HOP_SPEED + hopOffset chicken) * HOP_HEIGHT in
  let chicken := set_position (THREE.set_y (BASE_HEIGHT + hop) (position chicken)) chicken in
  (chicken, rng).

(** Lines 114-117: the creature bumps into the player. *)
Definition playerHit (f : Frame) (distToPlayer : R) (chicken : ChickenState)
  : ChickenState * list Event :=
  if Num.ltb distToPlayer HIT_RADIUS && Num.gtb (elapsedTime f - lastPlayerHit chicken) 0.3
  then (set_lastPlayerHit (elapsedTime f) chicken, [onPlayerHit])
  else (chicken, []).

(** Lines 122-126. *)
Definition capture (chicken : ChickenState) : ChickenState :=
  let chicken := set_mode drumstick chicken in
  let chicken := set_drumstickTimer 0 chicken in
  let chicken := set_drumstickOpacity 1 chicken in
  let chicken := set_velocity (THREE.vec3 0 0 0) chicken in
  set_position (THREE.set_y BASE_HEIGHT (position chicken)) chicken.

(** The condition of the loop of lines 120-129: some fire centre is
    closer than [fireRadius + FIRE_PADDING].  The array holds vectors, so
    the [center &&] guard always passes. *)
Definition fireHit (shared : PlayerActionState) (chicken : ChickenState) : bool :=
  existsb (fun center =>
             Num.ltb (THREE.distanceTo center (position chicken))
                     (fireRadius shared + FIRE_PADDING))
          (fireCenters shared).

Definition fireCheck (shared : PlayerActionState) (chicken : ChickenState) : ChickenState :=
  if fireActive shared && fireHit shared chicken then capture chicken else chicken.

(** The body of [chickensRef.current.forEach]. *)
Definition updateChicken (f : Frame) (playerPos : THREE.Vector3)
           (rng : nat) (chicken : ChickenState) : ChickenState * list Event * nat :=
  match mode chicken with
  | drumstick => (fade f chicken, [], rng)
  | _ =>
      let distToPlayer := THREE.distanceTo (position chicken) playerPos in
      let '(chicken, rng) := steer f playerPos distToPlayer rng chicken in
      let '(chicken, events) := playerHit f distToPlayer chicken in
      (fireCheck (fire f) chicken, events, rng)
  end.

(** The [useFrame] callback of [Chickens]. *)
Definition useFrame (f : Frame) (s : State) : State * list (nat * Event) :=
  match player f with
  | None => (s, [])
  | Some p =>
      let r := forEach (updateChicken f p) 0 (cursor s) (chickensRef s) in
      ({| chickensRef := fst (fst r); playerPos := p; cursor := snd r |}, snd (fst r))
  end.

(** A session: the frames in order, with the log of what was invoked
    at which clock reading. *)
Fixpoint run (s : State) (fs : list Frame) : State * list (R * (nat * Event)) :=
  match fs with
  | [] => (s, [])
  | f :: fs' =>
      let '(s1, events) := useFrame f s in
      let '(s2, log) := run s1 fs' in
      (s2, map (pair (elapsedTime f)) events ++ log)
  end.

End WithRandom.

End ChickensFixed.

(* ================================================================== *)
(** ** [ChickensRespawn]: the second document of [unnamed/part_000] *)

Module ChickensRespawn.
Import PlayerStateTs.

Inductive ChickenMode : Type := wander | chase | drumstick | respawn.

Record ChickenState : Type := {
  position : THREE.Vector3;
  velocity : THREE.Vector3;
  wanderDir : R;
  wanderTimer : R;
  hopOffset : R;
  mode : ChickenMode;
  alert : bool;
  drumstickTimer : R;
  drumstickOpacity : R;
  lastPlayerHit : R;
  respawnTimer : R
}.

Definition CHICKEN_COUNT : nat := 5.
Definition BASE_HEIGHT : R := 8.5.
Definition AREA_X : R := 32.
Definition AREA_Z_MIN : R := -90.
Definition AREA_Z_MAX : R := -55.
Definition WANDER_SPEED : R := 1.2.
Definition CHASE_SPEED : R := 2.2.
Definition ALERT_RADIUS : R := 14.
Definition HIT_RADIUS : R := 2.1.
Definition HOP_HEIGHT : R := 0.65.
Definition HOP_SPEED : R := 5.5.
Definition DRUMSTICK_DURATION : R := 5.
Definition FIRE_PADDING : R := 0.2.
Definition FIRE_VERTICAL_TOLERANCE : R := 6.
Definition DRUMSTICK_PICKUP_RADIUS : R := 1.6.
Definition RESPAWN_DELAY : R := 3.
Definition FOOT_FIRE_HALF_X : R := 4.
Definition FOOT_FIRE_HALF_Z : R := 4.
Definition FOOT_FIRE_HEIGHT : R := 3.

Definition startXs : list R := [-12; -6; 0; 6; 12].
Definition startZ : R := -75.

(** Field assignments. *)
Definition set_position v c :=
  {| position := v; velocity := velocity c; wanderDir := wanderDir c;
     wanderTimer := wanderTimer c; hopOffset := hopOffset c; mode := mode c;
     alert := alert c; drumstickTimer := drumstickTimer c;
     drumstickOpacity := drumstickOpacity c;
     lastPlayerHit := lastPlayerHit c; respawnTimer := respawnTimer c |}.
Definition set_velocity v c :=
  {| position := position c; velocity := v; wanderDir := wanderDir c;
     wanderTimer := wanderTimer c; hopOffset := hopOffset c; mode := mode c;
     alert := alert c; drumstickTimer := drumstickTimer c;
     drumstickOpacity := drumstickOpacity c;
     lastPlayerHit := lastPlayerHit c; respawnTimer := respawnTimer c |}.
Definition set_wanderDir v c :=
  {| position := position c; velocity := velocity c; wanderDir := v;
     wanderTimer := wanderTimer c; hopOffset := hopOffset c; mode := mode c;
     alert := alert c; drumstickTimer := drumstickTimer c;
     drumstickOpacity := drumstickOpacity c;
     lastPlayerHit := lastPlayerHit c; respawnTimer := respawnTimer c |}.
Definition set_wanderTimer v c :=
  {| position := position c; velocity := velocity c;
     wanderDir := wanderDir c; wanderTimer := v; hopOffset := hopOffset c;
     mode := mode c; alert := alert c; drumstickTimer := drumstickTimer c;
     drumstickOpacity := drumstickOpacity c;
     lastPlayerHit := lastPlayerHit c; respawnTimer := respawnTimer c |}.
Definition set_hopOffset v c :=
  {| position := position c; velocity := velocity c;
     wanderDir := wanderDir c; wanderTimer := wanderTimer c; hopOffset := v;
     mode := mode c; alert := alert c; drumstickTimer := drumstickTimer c;
     drumstickOpacity := drumstickOpacity c;
     lastPlayerHit := lastPlayerHit c; respawnTimer := respawnTimer c |}.
Definition set_mode v c :=
  {| position := position c; velocity := velocity c;
     wanderDir := wanderDir c; wanderTimer := wanderTimer c;
     hopOffset := hopOffset c; mode := v; alert := alert c;
     drumstickTimer := drumstickTimer c;
     drumstickOpacity := drumstickOpacity c;
     lastPlayerHit := lastPlayerHit c; respawnTimer := respawnTimer c |}.
Definition set_alert v c :=
  {| position := position c; velocity := velocity c;
     wanderDir := wanderDir c; wanderTimer := wanderTimer c;
     hopOffset := hopOffset c; mode := mode c; alert := v;
     drumstickTimer := drumstickTimer c;
     drumstickOpacity := drumstickOpacity c;
     lastPlayerHit := lastPlayerHit c; respawnTimer := respawnTimer c |}.
Definition set_drumstickTimer v c :=
  {| position := position c; velocity := velocity c;
     wanderDir := wanderDir c; wanderTimer := wanderTimer c;
     hopOffset := hopOffset c; mode := mode c; alert := alert c;
     drumstickTimer := v; drumstickOpacity := drumstickOpacity c;
     lastPlayerHit := lastPlayerHit c; respawnTimer := respawnTimer c |}.
Definition set_drumstickOpacity v c :=
  {| position := position c; velocity := velocity c;
     wanderDir := wanderDir c; wanderTimer := wanderTimer c;
     hopOffset := hopOffset c; mode := mode c; alert := alert c;
     drumstickTimer := drumstickTimer c; drumstickOpacity := v;
     lastPlayerHit := lastPlayerHit c; respawnTimer := respawnTimer c |}.
Definition set_lastPlayerHit v c :=
  {| position := position c; velocity := velocity c;
     wanderDir := wanderDir c; wanderTimer := wanderTimer c;
     hopOffset := hopOffset c; mode := mode c; alert := alert c;
     drumstickTimer := drumstickTimer c;
     drumstickOpacity := drumstickOpacity c; lastPlayerHit := v;
     respawnTimer := respawnTimer c |}.
Definition set_respawnTimer v c :=
  {| position := position c; velocity := velocity c;
     wanderDir := wanderDir c; wanderTimer := wanderTimer c;
     hopOffset := hopOffset c; mode := mode c; alert := alert c;
     drumstickTimer := drumstickTimer c;
     drumstickOpacity := drumstickOpacity c;
     lastPlayerHit := lastPlayerHit c; respawnTimer := v |}.

Record State : Type := {
  chickensRef : list ChickenState;
  playerPos : THREE.Vector3;
  cursor : nat                       (* calls of [Math.random()] so far *)
}.

Section WithRandom.
Variable random : nat -> R.

(** Element [i] of [createInitialChickens()], drawing from [rng] on. *)
Definition initialChicken (i rng : nat) : ChickenState :=
  {| position := THREE.vec3 (nth (i mod List.length startXs) startXs 0 + (random rng - 0.5) * 1.5)
                            BASE_HEIGHT
                            (startZ + (random (rng + 1) - 0.5) * 4);
     velocity := THREE.vec3 0 0 0;
     wanderDir := random (rng + 2) * PI * 2;
     wanderTimer := 1.5 + random (rng + 3) * 1.5;
     hopOffset := random (rng + 4) * PI * 2;
     mode := wander;
     alert := false;
     drumstickTimer := 0;
     drumstickOpacity := 1;
     lastPlayerHit := -10;
     respawnTimer := 0 |}.

Definition createInitialChickens : list ChickenState :=
  map (fun i => initialChicken i (5 * i)) (seq 0 CHICKEN_COUNT).

Definition initial : State :=
  {| chickensRef := createInitialChickens;
     playerPos := THREE.vec3 0 0 0;
     cursor := 5 * CHICKEN_COUNT |}.

(** [randomizeChicken]: six draws, every field is overwritten. *)
Definition randomizeChicken (rng : nat) (chicken : ChickenState) : ChickenState :=
  let seed := Z.to_nat (Num.floor (random rng * INR (List.length startXs))) in
  let chicken := set_position
                   (THREE.vec3 (nth seed startXs 0 + (random (rng + 1) - 0.5) * 1.5)
                               BASE_HEIGHT
                               (startZ + (random (rng + 2) - 0.5) * 4)) chicken in
  let chicken := set_velocity (THREE.vec3 0 0 0) chicken in
  let chicken := set_wanderDir (random (rng + 3) * PI * 2) chicken in
  let chicken := set_wanderTimer (1.5 + random (rng + 4) * 1.5) chicken in
  let chicken := set_hopOffset (random (rng + 5) * PI * 2) chicken in
  let chicken := set_mode wander chicken in
  let chicken := set_alert false chicken in
  let chicken := set_drumstickTimer 0 chicken in
  let chicken := set_drumstickOpacity 1 chicken in
  let chicken := set_respawnTimer 0 chicken in
  set_lastPlayerHit (-10) chicken.

(** Lines 381-387: the respawn queue. *)
Definition respawning (f : Frame) (rng : nat) (chicken : ChickenState) : ChickenState * nat :=
  let chicken := set_respawnTimer (respawnTimer chicken + delta f) chicken in
  if Num.geb (respawnTimer chicken) RESPAWN_DELAY
  then (randomizeChicken rng chicken, (rng + 6)%nat)
  else (chicken, rng).

(** Lines 389-410: a drumstick fades, is picked up, or clears itself. *)
Definition fade (f : Frame) (playerPos : THREE.Vector3) (chicken : ChickenState)
  : ChickenState * list Event :=
  let chicken := set_drumstickTimer (drumstickTimer chicken + delta f) chicken in
  let chicken := set_drumstickOpacity
                   (Rmax 0 (1 - drumstickTimer chicken / DRUMSTICK_DURATION)) chicken in
  let chicken := set_alert false chicken in
  let chicken := set_velocity (THREE.vec3 0 0 0) chicken in
  let chicken := set_position (THREE.set_y BASE_HEIGHT (position chicken)) chicken in
  let pickupDist := THREE.distanceTo (position chicken) playerPos in
  let '(chicken, events) :=
    if Num.ltb pickupDist DRUMSTICK_PICKUP_RADIUS
    then (set_respawnTimer 0 (set_drumstickOpacity 0 (set_mode respawn chicken)),
          [onDrumstickCollected])
    else (chicken, []) in
  let chicken :=
    if Num.leb (drumstickOpacity chicken) 0.01
    then set_respawnTimer 0 (set_mode respawn chicken)
    else chicken in
  (chicken, events).

(** Lines 418-422 and 472-476. *)
Definition capture (chicken : ChickenState) : ChickenState :=
  let chicken := set_mode drumstick chicken in
  let chicken := set_drumstickTimer 0 chicken in
  let chicken := set_drumstickOpacity 1 chicken in
  let chicken := set_velocity (THREE.vec3 0 0 0) chicken in
  set_position (THREE.set_y BASE_HEIGHT (position chicken)) chicken.

(** Lines 414-417: the box under the player's feet. *)
Definition footFireHit (playerPos : THREE.Vector3) (chicken : ChickenState) : bool :=
  let dx := Rabs (THREE.x (position chicken) - THREE.x playerPos) in
  let dz := Rabs (THREE.z (position chicken) - THREE.z playerPos) in
  let dy := Rabs (THREE.y (position chicken) - THREE.y playerPos) in
  Num.leb dx FOOT_FIRE_HALF_X && Num.leb dz FOOT_FIRE_HALF_Z && Num.leb dy FOOT_FIRE_HEIGHT.

(** Lines 428-451: alert, wander timer, steering, integration, clamp, hop. *)
Definition steer (f : Frame) (playerPos : THREE.Vector3) (distToPlayer : R)
           (rng : nat) (chicken : ChickenState) : ChickenState * nat :=
  let chicken := set_alert (Num.ltb distToPlayer ALERT_RADIUS) chicken in
  let chicken := set_mode (if alert chicken then chase else wander) chicken in
  let chicken := set_wanderTimer (wanderTimer chicken - delta f) chicken in
  let '(chicken, rng) :=
    if Num.leb (wanderTimer chicken) 0
    then (set_wanderDir (random (rng + 1) * PI * 2)
            (set_wanderTimer (1.5 + random rng * 2.5) chicken), (rng + 2)%nat)
    else (chicken, rng) in
  let dir := if alert chicken
             then THREE.sub playerPos (position chicken)
             else THREE.vec3 (sin (wanderDir chicken)) 0 (cos (wanderDir chicken)) in
  let dir := THREE.set_y 0 dir in
  let dir := if Num.gtb (THREE.lengthSq dir) 0.0001 then THREE.normalize dir else dir in
  let speed := if alert chicken then CHASE_SPEED else WANDER_SPEED in
  let targetVel := THREE.multiplyScalar dir speed in
  let chicken := set_velocity (THREE.lerp (velocity chicken) targetVel 0.12) chicken in
  let chicken := set_position
                   (THREE.addScaledVector (position chicken) (velocity chicken) (delta f))
                   chicken in
  let chicken := set_position
                   (THREE.set_x (THREE.MathUtils.clamp (THREE.x (position chicken)) (- AREA_X) AREA_X)
                                (position chicken)) chicken in
  let chicken := set_position
                   (THREE.set_z (THREE.MathUtils.clamp (THREE.z (position chicken)) AREA_Z_MIN AREA_Z_MAX)
                                (position chicken)) chicken in
  let hop := sin (elapsedTime f * HOP_SPEED + hopOffset chicken) * HOP_HEIGHT in
  let chicken := set_position (THREE.set_y (BASE_HEIGHT + hop) (position chicken)) chicken in
  (chicken, rng).

(** Lines 453-459: the creature bumps into the player. *)
Definition playerHit (f : Frame) (distToPlayer : R) (chicken : ChickenState)
  : ChickenState * list Event :=
  if Num.ltb distToPlayer HIT_RADIUS && Num.gtb (elapsedTime f - lastPlayerHit chicken) 0.3
  then (set_lastPlayerHit (elapsedTime f) chicken,
        onPlayerHit :: (if canVibrate f then [vibrate [100%nat]] else []))
  else (chicken, []).

(** The condition of the loop of lines 462-479: some fire centre is
    within the vertical tolerance and horizontally closer than
    [fireRadius + FIRE_PADDING].  The array holds vectors, so the
    [!center] guard never skips. *)
Definition fireHit (shared : PlayerActionState) (chicken : ChickenState) : bool :=
  existsb (fun center =>
             let verticalGap := Rabs (THREE.y center - THREE.y (position chicken)) in
             if Num.gtb verticalGap FIRE_VERTICAL_TOLERANCE then false
             else
               let dx := THREE.x center - THREE.x (position chicken) in
               let dz := THREE.z center - THREE.z (position chicken) in
               let flatDist := THREE.hypot dx dz in
               Num.ltb flatDist (fireRadius shared + FIRE_PADDING))
          (fireCenters shared).

Definition fireCheck (shared : PlayerActionState) (chicken : ChickenState) : ChickenState :=
  if fireActive shared && fireHit shared chicken then capture chicken else chicken.

(** The body of [chickensRef.current.forEach]. *)
Definition updateChicken (f : Frame) (playerPos : THREE.Vector3)
           (rng : nat) (chicken : ChickenState) : ChickenState * list Event * nat :=
  match mode chicken with
  | respawn =>
      let '(chicken, rng) := respawning f rng chicken in (chicken, [], rng)
  | drumstick =>
      let '(chicken, events) := fade f playerPos chicken in (chicken, events, rng)
  | _ =>
      if fireActive (fire f) && footFireHit playerPos chicken
      then (capture chicken, [], rng)
      else
        let distToPlayer := THREE.distanceTo (position chicken) playerPos in
        let '(chicken, rng) := steer f playerPos distToPlayer rng chicken in
        let '(chicken, events) := playerHit f distToPlayer chicken in
        (fireCheck (fire f) chicken, events, rng)
  end.

(** The [useFrame] callback of [Chickens]. *)
Definition useFrame (f : Frame) (s : State) : State * list (nat * Event) :=
  match player f with
  | None => (s, [])
  | Some p =>
      let r := forEach (updateChicken f p) 0 (cursor s) (chickensRef s) in
      ({| chickensRef := fst (fst r); playerPos := p; cursor := snd r |}, snd (fst r))
  end.

Fixpoint run (s : State) (fs : list Frame) : State * list (R * (nat * Event)) :=
  match fs with
  | [] => (s, [])
  | f :: fs' =>
      let '(s1, events) := useFrame f s in
      let '(s2, log) := run s1 fs' in
      (s2, map (pair (elapsedTime f)) events ++ log)
  end.

End WithRandom.

End ChickensRespawn.

(* ================================================================== *)
(** ** [ChickensGrow]: the first document of [unnamed/part_000]

    This version imports [playerFireState] from [./playerState.ts]; the
    version of that file under [docs/] exports the same three fields under
    other names, so the record is read through [PlayerActionState]
    ([active], [radius], [centers] are [fireActive], [fireRadius],
    [fireCenters]).  The optional prop [onPlayerHit] is taken as given. *)

Module ChickensGrow.
Import PlayerStateTs.

Inductive Mode : Type := wander | chase | drumstick.

Record Chick : Type := {
  pos : THREE.Vector3;
  vel : THREE.Vector3;
  dir : R;
  timer : R;
  hopOff : R;
  mode : Mode;
  alert : bool;
  drumTime : R;
  opacity : R;
  collected : bool                  (* optional field: absent reads as [false] *)
}.

Definition CHICKEN_COUNT : nat := 5.
Definition BASE_HEIGHT : R := 8.5.
Definition AREA_X : R := 30.
Definition AREA_Z_MIN : R := -90.
Definition AREA_Z_MAX : R := -55.
Definition WANDER_SPEED : R := 2.0.
Definition CHASE_SPEED : R := 4.0.
Definition ALERT_RADIUS : R := 16.
Definition HIT_RADIUS : R := 2.5.
Definition HOP_HEIGHT : R := 0.7.
Definition HOP_SPEED : R := 5.0.
Definition DRUMSTICK_DURATION : R := 8.
Definition FIRE_RECT_RANGE : R := 8.
Definition RESPAWN_DELAY : R := 3.
Definition HEART_BASE_HEIGHT : R := 6.
Definition HEART_GAP : R := 0.8.

(** Field assignments. *)
Definition set_pos v c :=
  {| pos := v; vel := vel c; dir := dir c; timer := timer c;
     hopOff := hopOff c; mode := mode c; alert := alert c;
     drumTime := drumTime c; opacity := opacity c; collected := collected c |}.
Definition set_vel v c :=
  {| pos := pos c; vel := v; dir := dir c; timer := timer c;
     hopOff := hopOff c; mode := mode c; alert := alert c;
     drumTime := drumTime c; opacity := opacity c; collected := collected c |}.
Definition set_dir v c :=
  {| pos := pos c; vel := vel c; dir := v; timer := timer c;
     hopOff := hopOff c; mode := mode c; alert := alert c;
     drumTime := drumTime c; opacity := opacity c; collected := collected c |}.
Definition set_timer v c :=
  {| pos := pos c; vel := vel c; dir := dir c; timer := v;
     hopOff := hopOff c; mode := mode c; alert := alert c;
     drumTime := drumTime c; opacity := opacity c; collected := collected c |}.
Definition set_hopOff v c :=
  {| pos := pos c; vel := vel c; dir := dir c; timer := timer c;
     hopOff := v; mode := mode c; alert := alert c; drumTime := drumTime c;
     opacity := opacity c; collected := collected c |}.
Definition set_mode v c :=
  {| pos := pos c; vel := vel c; dir := dir c; timer := timer c;
     hopOff := hopOff c; mode := v; alert := alert c;
     drumTime := drumTime c; opacity := opacity c; collected := collected c |}.
Definition set_alert v c :=
  {| pos := pos c; vel := vel c; dir := dir c; timer := timer c;
     hopOff := hopOff c; mode := mode c; alert := v; drumTime := drumTime c;
     opacity := opacity c; collected := collected c |}.
Definition set_drumTime v c :=
  {| pos := pos c; vel := vel c; dir := dir c; timer := timer c;
     hopOff := hopOff c; mode := mode c; alert := alert c; drumTime := v;
     opacity := opacity c; collected := collected c |}.
Definition set_opacity v c :=
  {| pos := pos c; vel := vel c; dir := dir c; timer := timer c;
     hopOff := hopOff c; mode := mode c; alert := alert c;
     drumTime := drumTime c; opacity := v; collected := collected c |}.
Definition set_collected v c :=
  {| pos := pos c; vel := vel c; dir := dir c; timer := timer c;
     hopOff := hopOff c; mode := mode c; alert := alert c;
     drumTime := drumTime c; opacity := opacity c; collected := v |}.

Record State : Type := {
  chickens : list Chick;
  respawnTimer : R;
  heartCountRef : nat;
  heartHeights : list R;
  playerPos : THREE.Vector3;
  cursor : nat                       (* calls of [Math.random()] so far *)
}.

(** What the [forEach] callback carries from one element to the next. *)
Record Carry : Type := {
  rng : nat;
  heartCount : nat;
  heights : list R
}.

Definition mode_eqb (a b : Mode) : bool :=
  match a, b with
  | wander, wander | chase, chase | drumstick, drumstick => true
  | _, _ => false
  end.

(** The filter of line 73. *)
Definition live (c : Chick) : bool := negb (mode_eqb (mode c) drumstick) || negb (collected c).

Section WithRandom.
Variable random : nat -> R.

(** The object literal of lines 45-57 and 78-92: five draws. *)
Definition newChick (rng : nat) : Chick :=
  {| pos := THREE.vec3 ((random rng - 0.5) * AREA_X * 1.6)
                       BASE_HEIGHT
                       (THREE.MathUtils.lerp AREA_Z_MIN AREA_Z_MAX (random (rng + 1)));
     vel := THREE.vec3 0 0 0;
     dir := random (rng + 2) * PI * 2;
     timer := 1 + random (rng + 3) * 1.5;
     hopOff := random (rng + 4) * PI * 2;
     mode := wander;
     alert := false;
     drumTime := 0;
     opacity := 1;
     collected := false |}.

Definition createInitialChicks : list Chick :=
  map (fun i => newChick (5 * i)) (seq 0 CHICKEN_COUNT).

Definition initial : State :=
  {| chickens := createInitialChicks;
     respawnTimer := 0;
     heartCountRef := 0;
     heartHeights := [];
     playerPos := THREE.vec3 0 0 0;
     cursor := 5 * CHICKEN_COUNT |}.

(** Lines 72-97: the replenishing timer.  Returns the roster, the timer
    and the cursor. *)
Definition replenish (f : Frame) (s : State) : list Chick * R * nat :=
  let liveCount := List.length (filter live (chickens s)) in
  if (liveCount <? CHICKEN_COUNT)%nat then
    let respawnTimer := respawnTimer s + delta f in
    if Num.geb respawnTimer RESPAWN_DELAY
    then (chickens s ++ [newChick (cursor s)], 0, (cursor s + 5)%nat)
    else (chickens s, respawnTimer, cursor s)
  else (chickens s, 0, cursor s).

(** Lines 101-105. *)
Definition fade (f : Frame) (c : Chick) : Chick :=
  let c := if negb (collected c)
           then let c := set_drumTime (drumTime c + delta f) c in
                set_opacity (Rmax 0 (1 - drumTime c / DRUMSTICK_DURATION)) c
           else c in
  set_vel (THREE.vec3 0 0 0) c.

(** Lines 108-124. *)
Definition steer (f : Frame) (playerPos : THREE.Vector3) (dist : R)
           (rng : nat) (c : Chick) : Chick * nat :=
  let c := set_alert (Num.ltb dist ALERT_RADIUS) c in
  let c := set_mode (if alert c then chase else wander) c in
  let c := set_timer (timer c - delta f) c in
  let '(c, rng) :=
    if Num.leb (timer c) 0
    then (set_dir (random (rng + 1) * PI * 2) (set_timer (1 + random rng * 2) c), (rng + 2)%nat)
    else (c, rng) in
  let dirVec := if alert c
                then THREE.set_y 0 (THREE.sub playerPos (pos c))
                else THREE.vec3 (sin (dir c)) 0 (cos (dir c)) in
  let dirVec := if Num.gtb (THREE.lengthSq dirVec) 0.0001 then THREE.normalize dirVec else dirVec in
  let speed := if alert c then CHASE_SPEED else WANDER_SPEED in
  let c := set_vel (THREE.lerp (vel c) (THREE.multiplyScalar dirVec speed) 0.12) c in
  let c := set_pos (THREE.addScaledVector (pos c) (vel c) (delta f)) c in
  let c := set_pos (THREE.set_x (THREE.MathUtils.clamp (THREE.x (pos c)) (- AREA_X) AREA_X) (pos c)) c in
  let c := set_pos (THREE.set_z (THREE.MathUtils.clamp (THREE.z (pos c)) AREA_Z_MIN AREA_Z_MAX) (pos c)) c in
  let c := set_pos (THREE.set_y (BASE_HEIGHT + sin (elapsedTime f * HOP_SPEED + hopOff c) * HOP_HEIGHT)
                                (pos c)) c in
  (c, rng).

(** Lines 127-132: no timestamp is kept. *)
Definition playerHit (f : Frame) (dist : R) : list Event :=
  if Num.ltb dist HIT_RADIUS
  then onPlayerHit :: (if canVibrate f then [vibrate [120%nat]] else [])
  else [].

(** Lines 139-141 and 146-148: the velocity is left as it is. *)
Definition capture (c : Chick) : Chick :=
  let c := set_mode drumstick c in
  let c := set_drumTime 0 c in
  set_opacity 1 c.

(** Lines 135-153. *)
Definition fireCheck (shared : PlayerActionState) (playerPos : THREE.Vector3) (c : Chick) : Chick :=
  if fireActive shared then
    let px := THREE.x playerPos in
    let pz := THREE.z playerPos in
    if Num.ltb (Rabs (THREE.x (pos c) - px)) FIRE_RECT_RANGE
       && Num.ltb (Rabs (THREE.z (pos c) - pz)) FIRE_RECT_RANGE
    then capture c
    else if existsb (fun center => Num.ltb (THREE.distanceTo (pos c) center) (fireRadius shared))
                    (fireCenters shared)
         then capture c
         else c
  else c.

(** Lines 157-167: the player collects a drumstick. *)
Definition collect (f : Frame) (playerPos : THREE.Vector3) (k : Carry) (c : Chick)
  : Chick * list Event * Carry :=
  if mode_eqb (mode c) drumstick && negb (collected c) then
    let distDrum := THREE.distanceTo playerPos (pos c) in
    if Num.ltb distDrum HIT_RADIUS then
      let heartCount := Datatypes.S (heartCount k) in
      (set_collected true c,
       (if canVibrate f then [vibrate [60; 40; 60]%nat] else []),
       {| rng := rng k; heartCount := heartCount;
          heights := heights k ++ [HEART_BASE_HEIGHT + HEART_GAP * (INR heartCount - 1)] |})
    else (c, [], k)
  else (c, [], k).

(** The body of [chickens.current.forEach]. *)
Definition updateChick (f : Frame) (playerPos : THREE.Vector3) (k : Carry) (c : Chick)
  : Chick * list Event * Carry :=
  let '(c, events, k) :=
    match mode c with
    | drumstick => (fade f c, [], k)
    | _ =>
        let dist := THREE.distanceTo playerPos (pos c) in
        let '(c, rng') := steer f playerPos dist (rng k) c in
        (fireCheck (fire f) playerPos c, playerHit f dist,
         {| rng := rng'; heartCount := heartCount k; heights := heights k |})
    end in
  let '(c, events', k) := collect f playerPos k c in
  (c, events ++ events', k).

(** The [useFrame] callback of [Chickens]: a missing player only skips
    the read of its position. *)
Definition useFrame (f : Frame) (s : State) : State * list (nat * Event) :=
  let playerPos := match player f with Some p => p | None => playerPos s end in
  let '(roster, respawnTimer, cursor) := replenish f s in
  let r := forEach (updateChick f playerPos) 0
                   {| rng := cursor; heartCount := heartCountRef s; heights := heartHeights s |}
                   roster in
  ({| chickens := fst (fst r);
      respawnTimer := respawnTimer;
      heartCountRef := heartCount (snd r);
      heartHeights := heights (snd r);
      playerPos := playerPos;
      cursor := rng (snd r) |},
   snd (fst r)).

Fixpoint run (s : State) (fs : list Frame) : State * list (R * (nat * Event)) :=
  match fs with
  | [] => (s, [])
  | f :: fs' =>
      let '(s1, events) := useFrame f s in
      let '(s2, log) := run s1 fs' in
      (s2, map (pair (elapsedTime f)) events ++ log)
  end.

End WithRandom.

End ChickensGrow.

(* ================================================================== *)
(** ** Predicates used in the statements *)


(** Exactly one of four propositions holds. *)
Definition oneOf4 (a b c d : Prop) : Prop :=
  (a /\ ~ b /\ ~ c /\ ~ d) \/ (~ a /\ b /\ ~ c /\ ~ d)
  \/ (~ a /\ ~ b /\ c /\ ~ d) \/ (~ a /\ ~ b /\ ~ c /\ d).

(** Scalar product. *)
Definition dot (a b : THREE.Vector3) : R :=
  THREE.x a * THREE.x b + THREE.y a * THREE.y b + THREE.z a * THREE.z b.

(** The stream of [Math.random()] stays in [[0, 1)]. *)
Definition unitRandom (random : nat -> R) : Prop := forall n, 0 <= random n < 1.

(** [f] with another shared fire record. *)
Definition withFire (shared : PlayerStateTs.PlayerActionState) (f : Frame) : Frame :=
  {| player := player f; elapsedTime := elapsedTime f; delta := delta f;
     fire := shared; canVibrate := canVibrate f |}.

(** Steering toward a point: [v'] is [v] moved 12% of the way to
    [speed] times the unit vector along [flat]; and when [v] is slower than
    0.3, [v'] has a positive component along [flat]. *)
Definition pulledToward (speed : R) (v v' flat : THREE.Vector3) : Prop :=
  v' = THREE.lerp v (THREE.multiplyScalar (THREE.normalize flat) speed) 0.12
  /\ (THREE.lengthSq v < 0.09 -> 0 < dot v' flat).

Module RespawnSpec.
Import ChickensRespawn.

(** The activity rectangle. *)
Definition inArea (v : THREE.Vector3) : Prop :=
  - AREA_X <= THREE.x v <= AREA_X /\ AREA_Z_MIN <= THREE.z v <= AREA_Z_MAX.

Definition invariant (c : ChickenState) : Prop :=
  (mode c = wander \/ mode c = chase -> inArea (position c))
  /\ (mode c = drumstick -> velocity c = THREE.vec3 0 0 0)
  /\ oneOf4 (mode c = wander) (mode c = chase) (mode c = drumstick) (mode c = respawn).

(** A creature that is neither a drumstick nor queued for respawn. *)
Definition roaming (c : ChickenState) : Prop := mode c = wander \/ mode c = chase.

(** The creature as the fire loop of lines 461-480 finds it: steered,
    moved, and past the bump check. *)
Definition moved (random : nat -> R) (f : Frame) (p : THREE.Vector3) (rng : nat)
           (c : ChickenState) : ChickenState :=
  let distToPlayer := THREE.distanceTo (position c) p in
  fst (playerHit f distToPlayer (fst (steer random f p distToPlayer rng c))).

(** The outcome of a capture. *)
Definition captured (c : ChickenState) : Prop :=
  mode c = drumstick /\ drumstickTimer c = 0 /\ drumstickOpacity c = 1
  /\ velocity c = THREE.vec3 0 0 0.

(** The foot box of lines 414-417, in words. *)
Definition inFootBox (p : THREE.Vector3) (c : ChickenState) : Prop :=
  Rabs (THREE.x (position c) - THREE.x p) <= FOOT_FIRE_HALF_X
  /\ Rabs (THREE.z (position c) - THREE.z p) <= FOOT_FIRE_HALF_Z
  /\ Rabs (THREE.y (position c) - THREE.y p) <= FOOT_FIRE_HEIGHT.

(** Some fire target is within the vertical tolerance and horizontally
    closer than the radius plus the padding. *)
Definition nearFireTarget (shared : PlayerStateTs.PlayerActionState) (c : ChickenState) : Prop :=
  exists center,
    In center (PlayerStateTs.fireCenters shared)
    /\ Rabs (THREE.y center - THREE.y (position c)) <= FIRE_VERTICAL_TOLERANCE
    /\ THREE.hypot (THREE.x center - THREE.x (position c)) (THREE.z center - THREE.z (position c))
       < PlayerStateTs.fireRadius shared + FIRE_PADDING.



(** The mode of creature [k] after the frames [fs]. *)
Definition modeAfter (random : nat -> R) (s : State) (fs : list Frame) (k : nat)
  : option ChickenMode :=
  option_map mode (nth_error (chickensRef (fst (run random s fs))) k).




End RespawnSpec.

Module FixedSpec.
Import ChickensFixed.

Definition inArea (v : THREE.Vector3) : Prop :=
  - AREA_X <= THREE.x v <= AREA_X /\ AREA_Z_MIN <= THREE.z v <= AREA_Z_MAX.

(** There is no respawning mode here: its slot is [False]. *)
Definition invariant (c : ChickenState) : Prop :=
  (mode c = wander \/ mode c = chase -> inArea (position c))
  /\ (mode c = drumstick -> velocity c = THREE.vec3 0 0 0)
  /\ oneOf4 (mode c = wander) (mode c = chase) (mode c = drumstick) False.

Definition roaming (c : ChickenState) : Prop := mode c = wander \/ mode c = chase.

Definition moved (random : nat -> R) (f : Frame) (p : THREE.Vector3) (rng : nat)
           (c : ChickenState) : ChickenState :=
  let distToPlayer := THREE.distanceTo (position c) p in
  fst (playerHit f distToPlayer (fst (steer random f p distToPlayer rng c))).

Definition captured (c : ChickenState) : Prop :=
  mode c = drumstick /\ drumstickTimer c = 0 /\ drumstickOpacity c = 1
  /\ velocity c = THREE.vec3 0 0 0.

(** Some fire target is closer, in space, than the radius plus the padding. *)
Definition nearFireTarget (shared : PlayerStateTs.PlayerActionState) (c : ChickenState) : Prop :=
  exists center,
    In center (PlayerStateTs.fireCenters shared)
    /\ THREE.distanceTo center (position c) < PlayerStateTs.fireRadius shared + FIRE_PADDING.

(** The mode of creature [k] after the frames [fs]. *)
Definition modeAfter (random : nat -> R) (s : State) (fs : list Frame) (k : nat)
  : option ChickenMode :=
  option_map mode (nth_error (chickensRef (fst (run random s fs))) k).

End FixedSpec.

(** [f] with another result of the player lookup. *)
Definition withPlayer (p : option THREE.Vector3) (f : Frame) : Frame :=
  {| player := p; elapsedTime := elapsedTime f; delta := delta f;
     fire := fire f; canVibrate := canVibrate f |}.

Module GrowSpec.
Import ChickensGrow.

Definition inArea (v : THREE.Vector3) : Prop :=
  - AREA_X <= THREE.x v <= AREA_X /\ AREA_Z_MIN <= THREE.z v <= AREA_Z_MAX.

(** The player position a frame works with: the one it reads, or the last
    one recorded. *)
Definition seenPlayer (f : Frame) (s : State) : THREE.Vector3 :=
  match player f with Some p => p | None => playerPos s end.


(** Drumsticks the player has collected. *)
Definition isCollected (c : Chick) : bool := mode_eqb (mode c) drumstick && collected c.

(** Drumsticks still fading. *)
Definition fading (c : Chick) : bool := mode_eqb (mode c) drumstick && negb (collected c).

Definition count (test : Chick -> bool) (roster : list Chick) : nat :=
  List.length (filter test roster).

(** Only drumsticks are ever marked collected. *)
Definition wellMarked (c : Chick) : Prop := collected c = true -> mode c = drumstick.

(** What the loop of a frame starts with: the cursor after the
    replenishing step and the heart stack as the frame finds it. *)
Definition carry0 (random : nat -> R) (f : Frame) (s : State) : Carry :=
  {| rng := snd (replenish random f s);
     heartCount := heartCountRef s; heights := heartHeights s |}.


(** The bound on the roster: the target count plus the drumsticks that
    were collected and stay in the array. *)
Definition bounded (s : State) : Prop :=
  (List.length (chickens s) <= CHICKEN_COUNT + count isCollected (chickens s))%nat
  /\ Forall wellMarked (chickens s).

End GrowSpec.

(* ================================================================== *)
(** ** [Math.atan2] *)

Module JsMath.

(** [Math.atan2(y, x)] on the reals: the angle of the point [(x, y)], in
    [(-PI, PI]], and 0 at the origin. *)
Definition atan2 (y x : R) : R :=
  if Num.gtb x 0 then atan (y / x)
  else if Num.ltb x 0 then
    (if Num.geb y 0 then atan (y / x) + PI else atan (y / x) - PI)
  else if Num.gtb y 0 then PI / 2
  else if Num.ltb y 0 then - (PI / 2)
  else 0.

End JsMath.

(* ================================================================== *)
(** ** [useInput]: [docs/hooks/useInput.ts]

    The two listeners update the state through functional [setInput]
    calls, so a sequence of key events is the composition of the handlers in
    the order of the events. *)

Module UseInput.

Record InputState : Type := {
  forward : bool; backward : bool; left : bool; right : bool; fire : bool;
  joystickX : R; joystickY : R
}.

Definition initial : InputState :=
  {| forward := false; backward := false; left := false; right := false;
     fire := false; joystickX := 0; joystickY := 0 |}.

(** [{ ...prev, field: value }] *)
Definition set_forward v prev :=
  {| forward := v; backward := backward prev; left := left prev; right := right prev;
     fire := fire prev; joystickX := joystickX prev; joystickY := joystickY prev |}.
Definition set_backward v prev :=
  {| forward := forward prev; backward := v; left := left prev; right := right prev;
     fire := fire prev; joystickX := joystickX prev; joystickY := joystickY prev |}.
Definition set_left v prev :=
  {| forward := forward prev; backward := backward prev; left := v; right := right prev;
     fire := fire prev; joystickX := joystickX prev; joystickY := joystickY prev |}.
Definition set_right v prev :=
  {| forward := forward prev; backward := backward prev; left := left prev; right := v;
     fire := fire prev; joystickX := joystickX prev; joystickY := joystickY prev |}.
Definition set_fire v prev :=
  {| forward := forward prev; backward := backward prev; left := left prev; right := right prev;
     fire := v; joystickX := joystickX prev; joystickY := joystickY prev |}.

(** The [switch (e.code)] of both handlers, writing [value]. *)
Definition handleKey (value : bool) (code : string) (prev : InputState) : InputState :=
  if ((code =? "KeyW") || (code =? "ArrowUp"))%string then set_forward value prev
  else if ((code =? "KeyS") || (code =? "ArrowDown"))%string then set_backward value prev
  else if ((code =? "KeyA") || (code =? "ArrowLeft"))%string then set_left value prev
  else if ((code =? "KeyD") || (code =? "ArrowRight"))%string then set_right value prev
  else if ((code =? "Space") || (code =? "KeyJ"))%string then set_fire value prev
  else prev.

Definition handleKeyDown (code : string) (prev : InputState) : InputState :=
  handleKey true code prev.

Definition handleKeyUp (code : string) (prev : InputState) : InputState :=
  handleKey false code prev.

Definition setJoystick (x y : R) (prev : InputState) : InputState :=
  {| forward := forward prev; backward := backward prev; left := left prev; right := right prev;
     fire := fire prev; joystickX := x; joystickY := y |}.

(** What the window delivers to the two listeners. *)
Inductive KeyboardEvent : Type :=
| keydown (code : string)
| keyup (code : string).

Definition dispatch (s : InputState) (e : KeyboardEvent) : InputState :=
  match e with
  | keydown code => handleKeyDown code s
  | keyup code => handleKeyUp code s
  end.

Definition dispatchAll (es : list KeyboardEvent) (s : InputState) : InputState :=
  fold_left dispatch es s.

(** The fields of [input] that the player controller reads. *)
Definition input (s : InputState) : Player.Input :=
  {| Player.forward := forward s; Player.backward := backward s;
     Player.left := left s; Player.right := right s; Player.fire := fire s |}.

End UseInput.

(* ================================================================== *)
(** ** [UIOverlay]: the virtual joystick and the fire button

    The version of the overlay that exports [fireButtonState.pressed], which
    is the field the player controller reads (second document of
    [docs/components/Scene.tsx]); the joystick code is the same in
    [docs/components/UIOverlay.tsx].  The React state [touching] is taken as
    re-rendered between two touch events. *)

Module UIOverlay.

(** [getBoundingClientRect()] of the joystick base. *)
Record DOMRect : Type := { rect_left : R; rect_top : R; rect_width : R; rect_height : R }.

Record Touch : Type := { clientX : R; clientY : R }.

Record State : Type := {
  touching : bool;
  pos : R * R;
  joystickState_x : R;             (* the exported object [joystickState] *)
  joystickState_y : R;
  fireButtonState_pressed : bool   (* the exported object [fireButtonState] *)
}.

Definition initial : State :=
  {| touching := false; pos := (0, 0); joystickState_x := 0; joystickState_y := 0;
     fireButtonState_pressed := false |}.

Definition updateJoystick (baseRef : option DOMRect) (touch : Touch) (s : State) : State :=
  match baseRef with
  | None => s
  | Some baseRect =>
      let centerX := rect_left baseRect + rect_width baseRect / 2 in
      let centerY := rect_top baseRect + rect_height baseRect / 2 in
      let maxDist := rect_width baseRect / 2 in
      let dx := clientX touch - centerX in
      let dy := clientY touch - centerY in
      let distance := sqrt (dx * dx + dy * dy) in
      let '(dx, dy) :=
        if Num.gtb distance maxDist then
          let angle := JsMath.atan2 dy dx in
          (cos angle * maxDist, sin angle * maxDist)
        else (dx, dy) in
      {| touching := touching s; pos := (dx, dy);
         joystickState_x := dx / maxDist;
         joystickState_y := - (dy / maxDist);
         fireButtonState_pressed := fireButtonState_pressed s |}
  end.

Definition setTouching (v : bool) (s : State) : State :=
  {| touching := v; pos := pos s; joystickState_x := joystickState_x s;
     joystickState_y := joystickState_y s;
     fireButtonState_pressed := fireButtonState_pressed s |}.

Definition handleTouchStart (baseRef : option DOMRect) (touch : Touch) (s : State) : State :=
  updateJoystick baseRef touch (setTouching true s).

Definition handleTouchMove (baseRef : option DOMRect) (touch : Touch) (s : State) : State :=
  if negb (touching s) then s else updateJoystick baseRef touch s.

Definition handleTouchEnd (s : State) : State :=
  {| touching := false; pos := (0, 0); joystickState_x := 0; joystickState_y := 0;
     fireButtonState_pressed := fireButtonState_pressed s |}.

Definition setPressed (v : bool) (s : State) : State :=
  {| touching := touching s; pos := pos s; joystickState_x := joystickState_x s;
     joystickState_y := joystickState_y s; fireButtonState_pressed := v |}.

Definition handleFireDown (s : State) : State := setPressed true s.
Definition handleFireUp (s : State) : State := setPressed false s.

(** What reaches the overlay. *)
Inductive Gesture : Type :=
| touchStart (touch : Touch)
| touchMove (touch : Touch)
| touchEnd
| fireDown
| fireUp.

Definition handle (baseRef : option DOMRect) (s : State) (g : Gesture) : State :=
  match g with
  | touchStart touch => handleTouchStart baseRef touch s
  | touchMove touch => handleTouchMove baseRef touch s
  | touchEnd => handleTouchEnd s
  | fireDown => handleFireDown s
  | fireUp => handleFireUp s
  end.

Definition handleAll (baseRef : option DOMRect) (gs : list Gesture) (s : State) : State :=
  fold_left (handle baseRef) gs s.

End UIOverlay.

(* ================================================================== *)
(** ** The player controller over several frames *)

Module PlayerSession.
Import PlayerStateTs.

(** The state once React has attached the group: three.js creates it at the
    origin with no rotation. *)
Definition mounted : Player.State :=
  {| Player.position := THREE.vec3 0 0 10;
     Player.groupRef := Some {| Player.rotation_y := 0;
                                Player.group_position := THREE.vec3 0 0 0 |};
     Player.fireIntensityRef := 0;
     Player.fireRef_visible := false |}.

(** The frame that the player callback sees, put together from the two
    input sources and the readings of the scene graph. *)
Definition frame (time : R) (keys : UseInput.InputState) (overlay : UIOverlay.State)
           (isLocked : bool) (tmpForward mouthWorld : THREE.Vector3) : Player.Frame :=
  {| Player.time := time;
     Player.input := UseInput.input keys;
     Player.joystickState_x := UIOverlay.joystickState_x overlay;
     Player.joystickState_y := UIOverlay.joystickState_y overlay;
     Player.fireButtonState_pressed := UIOverlay.fireButtonState_pressed overlay;
     Player.isLocked := isLocked;
     Player.tmpForward := tmpForward;
     Player.mouthWorld := mouthWorld |}.

(** The frames in order; the [onTrigger] calls are collected. *)
Fixpoint run (shared : PlayerActionState) (s : Player.State) (fs : list Player.Frame)
  : Player.Result :=
  match fs with
  | [] => {| Player.next := s; Player.published := shared; Player.onTrigger := [] |}
  | f :: fs' =>
      let r := Player.useFrame f shared s in
      let r' := run (Player.published r) (Player.next r) fs' in
      {| Player.next := Player.next r';
         Player.published := Player.published r';
         Player.onTrigger := Player.onTrigger r ++ Player.onTrigger r' |}
  end.

(** The rectangle the player can walk in. *)
Definition inBounds (v : THREE.Vector3) : Prop :=
  -35 <= THREE.x v <= 35 /\ -125 <= THREE.z v <= 15.

(** A frame in which no fire input is held. *)
Definition idle (f : Player.Frame) : Prop :=
  Player.fire (Player.input f) = false /\ Player.fireButtonState_pressed f = false.

(** A frame in which some fire input is held. *)
Definition firing (f : Player.Frame) : Prop :=
  Player.fire (Player.input f) = true \/ Player.fireButtonState_pressed f = true.

Definition unlocked (f : Player.Frame) : Prop := Player.isLocked f = false.

End PlayerSession.

(* ================================================================== *)
(** ** The key bindings, as a table *)

Module InputSpec.
Import UseInput.

Inductive Action : Type := Forward | Backward | Left | Right | Fire.

Definition bindings : list (string * Action) :=
  [ ("KeyW", Forward); ("ArrowUp", Forward);
    ("KeyS", Backward); ("ArrowDown", Backward);
    ("KeyA", Left); ("ArrowLeft", Left);
    ("KeyD", Right); ("ArrowRight", Right);
    ("Space", Fire); ("KeyJ", Fire) ]%string.

Fixpoint lookup (code : string) (table : list (string * Action)) : option Action :=
  match table with
  | [] => None
  | (c, a) :: table' => if (code =? c)%string then Some a else lookup code table'
  end.

Definition boundTo (code : string) : option Action := lookup code bindings.

Definition flag (a : Action) (s : InputState) : bool :=
  match a with
  | Forward => forward s
  | Backward => backward s
  | Left => left s
  | Right => right s
  | Fire => fire s
  end.

Definition action_eqb (a b : Action) : bool :=
  match a, b with
  | Forward, Forward | Backward, Backward | Left, Left | Right, Right | Fire, Fire => true
  | _, _ => false
  end.

(** What one event writes to the flag of [a], if anything. *)
Definition writes (a : Action) (e : KeyboardEvent) : option bool :=
  match e with
  | keydown code =>
      match boundTo code with
      | Some b => if action_eqb a b then Some true else None
      | None => None
      end
  | keyup code =>
      match boundTo code with
      | Some b => if action_eqb a b then Some false else None
      | None => None
      end
  end.

(** The value written by the last event of [es] that writes to the flag of
    [a]; [before] when there is none. *)
Definition lastWritten (a : Action) (before : bool) (es : list KeyboardEvent) : bool :=
  fold_left (fun v e => match writes a e with Some w => w | None => v end) es before.

End InputSpec.

(* ================================================================== *)
(** ** Predicates on the overlay *)

Module UIOverlaySpec.
Import UIOverlay.

(** The stick is inside the unit disc. *)
Definition inDisc (s : State) : Prop :=
  joystickState_x s * joystickState_x s + joystickState_y s * joystickState_y s <= 1.

(** The joystick base, when it is in the page, has a positive width. *)
Definition laidOut (baseRef : option DOMRect) : Prop :=
  match baseRef with
  | Some baseRect => 0 < rect_width baseRect
  | None => True
  end.

(** The offset of a touch from the centre of the base. *)
Definition offsetX (baseRect : DOMRect) (touch : Touch) : R :=
  clientX touch - (rect_left baseRect + rect_width baseRect / 2).
Definition offsetY (baseRect : DOMRect) (touch : Touch) : R :=
  clientY touch - (rect_top baseRect + rect_height baseRect / 2).

End UIOverlaySpec.

(* ================================================================== *)
(** ** [Scene]: the floating labels and the hit flash
    ([docs/components/Scene.tsx])

    The React state of a component is taken as re-rendered between two
    frames, so a callback reads the value the previous one set. *)

Module SceneTs.

Definition LABEL_DATA : list (string * THREE.Vector3) :=
  [ ("Exhibition"%string, THREE.vec3 0 30 (-110));
    ("CV"%string, THREE.vec3 (-30) 27 (-105));
    ("Things"%string, THREE.vec3 30 27 (-105)) ].

(** One [ChromeLabel]: its [opacity] state and, once mounted, the height of
    the group behind [ref]. *)
Record Label : Type := {
  opacity : R;
  ref_position_y : option R
}.

(** One frame as a label sees it: [player.position] of the object named
    ['PlayerGroup'] ([None] when there is none) and the clock. *)
Record LabelFrame : Type := {
  playerGroup : option THREE.Vector3;
  elapsedTime : R
}.

(** The opacity a label fades toward, lines 91-99. *)
Definition targetOpacity (position playerPosition : THREE.Vector3) : R :=
  let labelPos := position in
  let flatPlayerPos := THREE.vec3 (THREE.x playerPosition) 0 (THREE.z playerPosition) in
  let flatLabelPos := THREE.vec3 (THREE.x labelPos) 0 (THREE.z labelPos) in
  let dist := THREE.distanceTo flatPlayerPos flatLabelPos in
  THREE.MathUtils.clamp (1 - (dist - 30) / 30) 0 1.

(** The [useFrame] callback of [ChromeLabel]. *)
Definition labelFrame (position : THREE.Vector3) (f : LabelFrame) (l : Label) : Label :=
  match ref_position_y l with
  | None => l
  | Some _ =>
      let opacity :=
        match playerGroup f with
        | Some playerPosition =>
            THREE.MathUtils.lerp (opacity l) (targetOpacity position playerPosition) 0.1
        | None => opacity l
        end in
      {| opacity := opacity;
         ref_position_y := Some (THREE.y position + sin (elapsedTime f * 1.5) * 0.5) |}
  end.

(** [visible={opacity > 0.01}] *)
Definition visible (l : Label) : bool := Num.gtb (opacity l) 0.01.

Definition labelRun (position : THREE.Vector3) (fs : list LabelFrame) (l : Label) : Label :=
  fold_left (fun l f => labelFrame position f l) fs l.

(** The hit flash: the state [playerHitFlash], the ref [hitFlashTimer], and
    the timeouts of the window that are still to run, each with its id and
    the time it is due.  [window.setTimeout] hands out the ids, which are
    positive. *)
Record HitFlash : Type := {
  playerHitFlash : bool;
  hitFlashTimer : option nat;
  timeouts : list (nat * R);
  nextId : nat
}.

Definition initialFlash : HitFlash :=
  {| playerHitFlash := false; hitFlashTimer := None; timeouts := []; nextId := 1 |}.

(** [window.clearTimeout(id)] *)
Definition clearTimeout (id : nat) (pending : list (nat * R)) : list (nat * R) :=
  filter (fun t => negb (Nat.eqb (fst t) id)) pending.

(** [if (hitFlashTimer.current) window.clearTimeout(hitFlashTimer.current)]:
    [null] and 0 are falsy. *)
Definition clearCurrent (s : HitFlash) : list (nat * R) :=
  match hitFlashTimer s with
  | Some id => if Nat.eqb id 0 then timeouts s else clearTimeout id (timeouts s)
  | None => timeouts s
  end.

(** [triggerPlayerHitFlash], called at time [now] (milliseconds). *)
Definition triggerPlayerHitFlash (now : R) (s : HitFlash) : HitFlash :=
  {| playerHitFlash := true;
     hitFlashTimer := Some (nextId s);
     timeouts := (nextId s, now + 200) :: clearCurrent s;
     nextId := S (nextId s) |}.

(** The window runs the timeout [id]: [() => setPlayerHitFlash(false)]. *)
Definition runTimeout (id : nat) (s : HitFlash) : HitFlash :=
  {| playerHitFlash := false;
     hitFlashTimer := hitFlashTimer s;
     timeouts := clearTimeout id (timeouts s);
     nextId := nextId s |}.

(** The window runs every timeout that is due at time [now]. *)
Definition runDue (now : R) (s : HitFlash) : HitFlash :=
  fold_left (fun s t => if Num.leb (snd t) now then runTimeout (fst t) s else s)
            (timeouts s) s.

(** The cleanup of the effect, on unmount. *)
Definition unmount (s : HitFlash) : HitFlash :=
  {| playerHitFlash := playerHitFlash s;
     hitFlashTimer := hitFlashTimer s;
     timeouts := clearCurrent s;
     nextId := nextId s |}.

(** What happens to the scene, in order. *)
Inductive FlashEvent : Type :=
| hit (now : R)          (* a creature calls [onPlayerHit] *)
| tick (now : R).        (* the window gets to run its due timeouts *)

Definition flashStep (s : HitFlash) (e : FlashEvent) : HitFlash :=
  match e with
  | hit now => triggerPlayerHitFlash now s
  | tick now => runDue now s
  end.

Definition flashRun (es : list FlashEvent) (s : HitFlash) : HitFlash :=
  fold_left flashStep es s.

(** The time of the last hit of a list of events. *)
Definition lastHit (es : list FlashEvent) : option R :=
  fold_left (fun acc e => match e with hit now => Some now | tick _ => acc end) es None.

End SceneTs.

(* ================================================================== *)
(** ** [ChickenModel]: what is drawn of a creature

    The callback returns early when the group is not mounted; the groups and
    materials below it are mounted with it. *)

Record ModelGroup : Type := {
  model_position : THREE.Vector3;
  model_rotation_y : R;
  live_visible : bool;
  drumstick_visible : bool;
  eyeColor : string;
  drumstickMat_opacity : R;
  boneMat_opacity : R
}.

(** The heading of a model: it turns to its velocity unless it is almost
    at rest. *)
Definition heading (velocity : THREE.Vector3) (threshold : R) (rotation_y : R) : R :=
  if Num.gtb (THREE.lengthSq velocity) threshold
  then JsMath.atan2 (THREE.x velocity) (THREE.z velocity)
  else rotation_y.

Module FixedModel.
Import ChickensFixed.

(** [docs/components/Chickens.tsx], lines 152-173. *)
Definition useFrame (stateRef : list ChickenState) (index : nat) (groupRef : option ModelGroup)
  : option ModelGroup :=
  match nth_error stateRef index, groupRef with
  | Some state, Some group =>
      Some {| model_position := position state;
              model_rotation_y := heading (velocity state) 0.0001 (model_rotation_y group);
              live_visible := match mode state with drumstick => false | _ => true end;
              drumstick_visible :=
                match mode state with
                | drumstick => Num.gtb (drumstickOpacity state) 0.01
                | _ => false
                end;
              eyeColor := if alert state then "#ff3333"%string else "#222222"%string;
              drumstickMat_opacity := drumstickOpacity state;
              boneMat_opacity := Rmin 1 (drumstickOpacity state + 0.1) |}
  | _, _ => groupRef
  end.

End FixedModel.

Module RespawnModel.
Import ChickensRespawn.

(** Second document of [unnamed/part_000], lines 502-523. *)
Definition useFrame (stateRef : list ChickenState) (index : nat) (groupRef : option ModelGroup)
  : option ModelGroup :=
  match nth_error stateRef index, groupRef with
  | Some state, Some group =>
      Some {| model_position := position state;
              model_rotation_y := heading (velocity state) 0.0001 (model_rotation_y group);
              live_visible := match mode state with wander | chase => true | _ => false end;
              drumstick_visible :=
                match mode state with
                | drumstick => Num.gtb (drumstickOpacity state) 0.01
                | _ => false
                end;
              eyeColor := if alert state then "#ff3333"%string else "#222222"%string;
              drumstickMat_opacity := drumstickOpacity state;
              boneMat_opacity := Rmin 1 (drumstickOpacity state + 0.1) |}
  | _, _ => groupRef
  end.

End RespawnModel.

(* ================================================================== *)
(** ** The stairs of the world ([docs/components/WorldEnvironment.tsx]) *)

Module WorldEnvironment.

Definition stairCount : nat := 40.
Definition stairWidth : R := 80.
Definition stairDepth : R := 0.5.
Definition stairHeight : R := 0.2.

(** [position] of stair [i], line 174. *)
Definition stairPosition (i : nat) : THREE.Vector3 :=
  THREE.vec3 0 (INR i * stairHeight) (-5 - INR i * stairDepth).

(** The positions of the stairs that [useMemo] builds. *)
Definition stairs : list THREE.Vector3 := map stairPosition (seq 0 stairCount).

End WorldEnvironment.

(* ================================================================== *)
(** ** Predicates on the scene *)

Module SceneSpec.
Import SceneTs.

(** The horizontal distance between the player group and a label. *)
Definition flatDistance (position p : THREE.Vector3) : R :=
  THREE.hypot (THREE.x p - THREE.x position) (THREE.z p - THREE.z position).

(** The player group is missing or at least 60 away, horizontally. *)
Definition playerAway (position : THREE.Vector3) (f : LabelFrame) : Prop :=
  match playerGroup f with
  | None => True
  | Some p => 60 <= flatDistance position p
  end.

(** The state of the hit flash is consistent with its timeouts: no timeout
    is pending and the flash is off, or exactly one is pending, it is the one
    the ref holds, it is due 200 ms after [latest], and the flash is on. *)
Definition settled (latest : option R) (s : HitFlash) : Prop :=
  (timeouts s = [] /\ playerHitFlash s = false)
  \/ (exists id t, timeouts s = [(id, t + 200)] /\ hitFlashTimer s = Some id
                   /\ latest = Some t /\ playerHitFlash s = true).

End SceneSpec.

(* ================================================================== *)
(** ** Predicates on what the creature engines keep *)

Module Look.

(** A drumstick of the engine with in-place respawn can still be seen. *)
Definition solid (c : ChickensRespawn.ChickenState) : Prop :=
  ChickensRespawn.mode c = ChickensRespawn.drumstick ->
  0.01 < ChickensRespawn.drumstickOpacity c.

(** The opacity of a drumstick of the fixed roster follows its timer. *)
Definition fading (c : ChickensFixed.ChickenState) : Prop :=
  ChickensFixed.mode c = ChickensFixed.drumstick ->
  ChickensFixed.drumstickOpacity c
  = Rmax 0 (1 - ChickensFixed.drumstickTimer c / ChickensFixed.DRUMSTICK_DURATION).

(** A horizontal velocity of at most [limit]. *)
Definition slow (limit : R) (v : THREE.Vector3) : Prop :=
  THREE.lengthSq v <= limit * limit /\ THREE.y v = 0.

(** The model faces along [v]: its heading is the angle of the horizontal
    part of [v], measured from the depth axis. *)
Definition faces (rotation_y : R) (v : THREE.Vector3) : Prop :=
  sin rotation_y = THREE.x v / THREE.hypot (THREE.x v) (THREE.z v)
  /\ cos rotation_y = THREE.z v / THREE.hypot (THREE.x v) (THREE.z v).

(** What [ChickenModel] shows of a creature of the engine with in-place
    respawn: the live model exactly for a roaming creature, the drumstick
    exactly for a captured one, nothing for one in the respawn queue. *)
Definition shownRespawn (c : ChickensRespawn.ChickenState) (group : ModelGroup) : Prop :=
  model_position group = ChickensRespawn.position c
  /\ (live_visible group = true <-> RespawnSpec.roaming c)
  /\ (drumstick_visible group = true <-> ChickensRespawn.mode c = ChickensRespawn.drumstick)
  /\ (live_visible group = false /\ drumstick_visible group = false
      <-> ChickensRespawn.mode c = ChickensRespawn.respawn).


End Look.

(* ================================================================== *)
(** ** Sessions without fire *)

Module Quiet.

(** The published fire state that a frame reads is inactive. *)
Definition fireOff (f : Frame) : Prop := PlayerStateTs.fireActive (fire f) = false.

(** A creature of the growing roster that has never been captured. *)
Definition uncaught (c : ChickensGrow.Chick) : Prop :=
  ChickensGrow.mode c <> ChickensGrow.drumstick /\ ChickensGrow.collected c = false.

End Quiet.

(* ================================================================== *)
(** ** The stack of hearts of the growing roster *)

Module Hearts.
Import ChickensGrow.

(** The heights of a stack of [n] hearts, bottom first. *)
Definition stackHeights (n : nat) : list R :=
  map (fun k => HEART_BASE_HEIGHT + HEART_GAP * INR k) (seq 0 n).

(** One heart per collected drumstick, stacked from the base height in
    steps of the gap. *)
Definition stacked (s : State) : Prop :=
  heartCountRef s = GrowSpec.count GrowSpec.isCollected (chickens s)
  /\ heartHeights s = stackHeights (heartCountRef s).

(** The same for what the loop of a frame carries. *)
Definition carried (k : Carry) : Prop := heights k = stackHeights (heartCount k).

Definition one (b : bool) : nat := if b then 1%nat else 0%nat.

End Hearts.

(* ================================================================== *)
(** ** Between two pickups of one creature *)

Module Pickups.
Import ChickensRespawn.


End Pickups.

(* ================================================================== *)
(** ** Concrete frames and states used as examples *)

Module Scenario.

Definition lockedFrame : Player.Frame :=
  {| Player.time := 1;
     Player.input := {| Player.forward := true; Player.backward := false;
                        Player.left := false; Player.right := false; Player.fire := true |};
     Player.joystickState_x := 0; Player.joystickState_y := 0;
     Player.fireButtonState_pressed := true;
     Player.isLocked := true;
     Player.tmpForward := THREE.vec3 0 0 (-1);
     Player.mouthWorld := THREE.vec3 0 6.5 7.8 |}.

Definition firingShared : PlayerStateTs.PlayerActionState :=
  {| PlayerStateTs.fireCenters := [THREE.vec3 0 6.5 6.3];
     PlayerStateTs.fireRadius := 2.4;
     PlayerStateTs.fireActive := true |}.

Definition mountedPlayer : Player.State :=
  {| Player.position := THREE.vec3 0 0 10;
     Player.groupRef := Some {| Player.rotation_y := 0; Player.group_position := THREE.vec3 0 2.7 10 |};
     Player.fireIntensityRef := 0.9;
     Player.fireRef_visible := true |}.

Definition walkingFrame : Player.Frame :=
  {| Player.time := 1;
     Player.input := {| Player.forward := true; Player.backward := false;
                        Player.left := false; Player.right := false; Player.fire := false |};
     Player.joystickState_x := 0; Player.joystickState_y := 0;
     Player.fireButtonState_pressed := false;
     Player.isLocked := false;
     Player.tmpForward := THREE.vec3 0 0 (-1);
     Player.mouthWorld := THREE.vec3 0 6.5 7.8 |}.

(** A stream of draws, all in the middle of the range. *)
Definition half : nat -> R := fun _ => 0.5.

(** The player on the platform, fire off. *)
Definition quietFrame : Frame :=
  {| player := Some (THREE.vec3 0 10.7 (-110));
     elapsedTime := 1; delta := 0.1;
     fire := PlayerStateTs.playerActionState;
     canVibrate := false |}.

(** The player standing on the platform, breathing fire: the world position
    of the group and four fire targets at mouth height. *)
Definition platformPlayer : THREE.Vector3 := THREE.vec3 0 10.7 (-75).

Definition breath : PlayerStateTs.PlayerActionState :=
  {| PlayerStateTs.fireCenters :=
       [THREE.vec3 0 14.5 (-76.5); THREE.vec3 0 14.5 (-78);
        THREE.vec3 0 14.5 (-81); THREE.vec3 0 12.5 (-77)];
     PlayerStateTs.fireRadius := 2.4;
     PlayerStateTs.fireActive := true |}.

Definition breathFrame : Frame :=
  {| player := Some platformPlayer;
     elapsedTime := 1; delta := 0.1;
     fire := breath;
     canVibrate := false |}.

(** A creature of the fixed roster right under the player. *)
Definition underfoot : ChickensFixed.ChickenState :=
  {| ChickensFixed.position := THREE.vec3 0 8 (-75);
     ChickensFixed.velocity := THREE.vec3 0 0 0;
     ChickensFixed.wanderDir := 0;
     ChickensFixed.wanderTimer := 2;
     ChickensFixed.hopOffset := 0;
     ChickensFixed.mode := ChickensFixed.wander;
     ChickensFixed.alert := false;
     ChickensFixed.drumstickTimer := 0;
     ChickensFixed.drumstickOpacity := 1;
     ChickensFixed.lastPlayerHit := -10 |}.

(** The same creature in the roster with in-place respawn. *)
Definition underfootR : ChickensRespawn.ChickenState :=
  {| ChickensRespawn.position := THREE.vec3 0 8.5 (-75);
     ChickensRespawn.velocity := THREE.vec3 0 0 0;
     ChickensRespawn.wanderDir := 0;
     ChickensRespawn.wanderTimer := 2;
     ChickensRespawn.hopOffset := 0;
     ChickensRespawn.mode := ChickensRespawn.wander;
     ChickensRespawn.alert := false;
     ChickensRespawn.drumstickTimer := 0;
     ChickensRespawn.drumstickOpacity := 1;
     ChickensRespawn.lastPlayerHit := -10;
     ChickensRespawn.respawnTimer := 0 |}.

(** A creature of the respawn roster wandering steadily away from the
    player (heading 0 is the direction of growing depth coordinate). *)
Definition runaway : ChickensRespawn.ChickenState :=
  {| ChickensRespawn.position := THREE.vec3 0 8.5 (-70);
     ChickensRespawn.velocity := THREE.vec3 0 0 1.2;
     ChickensRespawn.wanderDir := 0;
     ChickensRespawn.wanderTimer := 3;
     ChickensRespawn.hopOffset := 0;
     ChickensRespawn.mode := ChickensRespawn.wander;
     ChickensRespawn.alert := false;
     ChickensRespawn.drumstickTimer := 0;
     ChickensRespawn.drumstickOpacity := 1;
     ChickensRespawn.lastPlayerHit := -10;
     ChickensRespawn.respawnTimer := 0 |}.

(** The player one unit outside the alert radius of [runaway], then, a
    frame later, one unit inside. *)
Definition farPlayer : THREE.Vector3 := THREE.vec3 0 8.5 (-85).
Definition nearPlayer : THREE.Vector3 := THREE.vec3 0 8.5 (-82.88).

Definition farFrame : Frame :=
  {| player := Some farPlayer; elapsedTime := 0; delta := 0.1;
     fire := PlayerStateTs.playerActionState; canVibrate := false |}.

Definition nearFrame : Frame :=
  {| player := Some nearPlayer; elapsedTime := 0.1; delta := 0.1;
     fire := PlayerStateTs.playerActionState; canVibrate := false |}.

(** The player standing where the first roster of the growing engine is
    spawned under [half], for two consecutive frames. *)
Definition crowdPlayer : THREE.Vector3 := THREE.vec3 0 8.5 (-72.5).



(** A frame in which the lookup of the player group yields nothing. *)
Definition blindFrame : Frame :=
  {| player := None; elapsedTime := 1; delta := 0.1;
     fire := PlayerStateTs.playerActionState; canVibrate := false |}.

(** The first roster of the engine with in-place respawn, every creature
    just captured. *)
Definition torched : ChickensRespawn.State :=
  {| ChickensRespawn.chickensRef :=
       map ChickensRespawn.capture (ChickensRespawn.createInitialChickens half);
     ChickensRespawn.playerPos := THREE.vec3 0 10.7 (-110);
     ChickensRespawn.cursor := 25 |}.




(** The group of [PlayerSession.mounted]. *)
Definition mountedGroup : Player.Group :=
  {| Player.rotation_y := 0; Player.group_position := THREE.vec3 0 0 0 |}.

(** An unlocked frame with the fire key held. *)
Definition fireFrame : Player.Frame :=
  {| Player.time := 1;
     Player.input := {| Player.forward := false; Player.backward := false;
                        Player.left := false; Player.right := false; Player.fire := true |};
     Player.joystickState_x := 0; Player.joystickState_y := 0;
     Player.fireButtonState_pressed := false;
     Player.isLocked := false;
     Player.tmpForward := THREE.vec3 0 0 (-1);
     Player.mouthWorld := THREE.vec3 0 6.5 7.8 |}.

(** The mounted player breathing fire at full intensity. *)
Definition ablaze : Player.State :=
  {| Player.position := THREE.vec3 0 0 10;
     Player.groupRef := Some mountedGroup;
     Player.fireIntensityRef := 1;
     Player.fireRef_visible := true |}.

(** A joystick base of 100 by 100 pixels at the corner of the page, and a
    touch to the right of it. *)
Definition base : UIOverlay.DOMRect :=
  {| UIOverlay.rect_left := 0; UIOverlay.rect_top := 0;
     UIOverlay.rect_width := 100; UIOverlay.rect_height := 100 |}.

Definition farTouch : UIOverlay.Touch :=
  {| UIOverlay.clientX := 150; UIOverlay.clientY := 50 |}.

(** A mounted label that is still transparent, and a frame with the player
    group next to the altar. *)
Definition hiddenLabel : SceneTs.Label :=
  {| SceneTs.opacity := 0; SceneTs.ref_position_y := Some 30 |}.

Definition altarFrame : SceneTs.LabelFrame :=
  {| SceneTs.playerGroup := Some (THREE.vec3 0 10.7 (-100)); SceneTs.elapsedTime := 1 |}.

(** A frame with the player group at the foot of the stairs. *)
Definition groundFrame : SceneTs.LabelFrame :=
  {| SceneTs.playerGroup := Some (THREE.vec3 0 2.7 10); SceneTs.elapsedTime := 1 |}.

(** The mounted player on the platform, in front of the altar, and the
    group after one walking frame from there. *)
Definition atAltar : Player.State :=
  {| Player.position := THREE.vec3 0 8 (-105);
     Player.groupRef := Some mountedGroup;
     Player.fireIntensityRef := 0;
     Player.fireRef_visible := false |}.

Definition atAltarGroup : Player.Group :=
  match Player.groupRef
          (Player.next (Player.useFrame walkingFrame PlayerStateTs.playerActionState atAltar))
  with
  | Some g => g
  | None => mountedGroup
  end.

(** The result of one walking frame from there: the player arrives in the
    trigger zone of the altar. *)
Definition arrived : Player.Result :=
  Player.useFrame walkingFrame PlayerStateTs.playerActionState atAltar.



(** The group of a model as three.js creates it. *)
Definition freshModel : ModelGroup :=
  {| model_position := THREE.vec3 0 0 0;
     model_rotation_y := 0;
     live_visible := true;
     drumstick_visible := false;
     eyeColor := "#111111"%string;
     drumstickMat_opacity := 1;
     boneMat_opacity := 1 |}.

(** The player standing among the first roster of the growing engine,
    breathing fire. *)
Definition crowdFireFrame : Frame :=
  {| player := Some crowdPlayer; elapsedTime := 1; delta := 0.1;
     fire := firingShared; canVibrate := true |}.

(** What the loop of the growing engine carries into the first creature of
    a first frame. *)
Definition firstCarry : ChickensGrow.Carry :=
  {| ChickensGrow.rng := 25; ChickensGrow.heartCount := 0; ChickensGrow.heights := [] |}.

End Scenario.

(* ################################################################## *)
(** * Properties *)

(* ================================================================== *)
(** ** Numbers and vectors *)

Lemma ltbP a b : reflect (a < b) (Num.ltb a b).
Proof. unfold Num.ltb; destruct (Rlt_dec a b); constructor; assumption. Qed.

Lemma lebP a b : reflect (a <= b) (Num.leb a b).
Proof. unfold Num.leb; destruct (Rle_dec a b); constructor; assumption. Qed.

Lemma gtbP a b : reflect (a > b) (Num.gtb a b).
Proof. unfold Num.gtb, Rgt. apply ltbP. Qed.


Lemma eqbP a b : reflect (a = b) (Num.eqb a b).
Proof. unfold Num.eqb; destruct (Req_dec_T a b); constructor; assumption. Qed.

Lemma ltb_true a b : a < b -> Num.ltb a b = true.
Proof. intro H; destruct (ltbP a b); [reflexivity | contradiction]. Qed.

Lemma ltb_false a b : b <= a -> Num.ltb a b = false.
Proof. intro H; destruct (ltbP a b); [lra | reflexivity]. Qed.

Lemma leb_true a b : a <= b -> Num.leb a b = true.
Proof. intro H; destruct (lebP a b); [reflexivity | contradiction]. Qed.

Lemma leb_false a b : b < a -> Num.leb a b = false.
Proof. intro H; destruct (lebP a b); [lra | reflexivity]. Qed.

Lemma gtb_true a b : b < a -> Num.gtb a b = true.
Proof. apply ltb_true. Qed.

Lemma gtb_false a b : a <= b -> Num.gtb a b = false.
Proof. apply ltb_false. Qed.

Lemma geb_true a b : b <= a -> Num.geb a b = true.
Proof. apply leb_true. Qed.

Lemma geb_false a b : a < b -> Num.geb a b = false.
Proof. apply leb_false. Qed.

Lemma eqb_refl a : Num.eqb a a = true.
Proof. destruct (eqbP a a); [reflexivity | contradiction]. Qed.

Lemma clamp_bounds value min max :
  min <= max -> min <= THREE.MathUtils.clamp value min max <= max.
Proof.
  intro H. unfold THREE.MathUtils.clamp. split.
  - apply Rmax_l.
  - apply Rmax_lub; [assumption | apply Rmin_l].
Qed.

Lemma distanceToSquared_nonneg a b : 0 <= THREE.distanceToSquared a b.
Proof.
  unfold THREE.distanceToSquared; cbv zeta.
  pose proof (Rle_0_sqr (THREE.x a - THREE.x b)). pose proof (Rle_0_sqr (THREE.y a - THREE.y b)).
  pose proof (Rle_0_sqr (THREE.z a - THREE.z b)). unfold Rsqr in *. lra.
Qed.

Lemma lengthSq_nonneg v : 0 <= THREE.lengthSq v.
Proof. unfold THREE.lengthSq; nra. Qed.


(** A distance is at least the gap on any one axis. *)
Lemma distanceTo_ge_z a b r : 0 <= r -> r <= Rabs (THREE.z a - THREE.z b) -> r <= THREE.distanceTo a b.
Proof.
  intros Hr H. unfold THREE.distanceTo.
  rewrite <- (sqrt_square r) by assumption.
  apply sqrt_le_1; [nra | apply distanceToSquared_nonneg |].
  unfold THREE.distanceToSquared; cbv zeta.
  assert (r * r <= (THREE.z a - THREE.z b) * (THREE.z a - THREE.z b)).
  { revert H. unfold Rabs. destruct (Rcase_abs (THREE.z a - THREE.z b)); intro; nra. }
  pose proof (Rle_0_sqr (THREE.x a - THREE.x b)). pose proof (Rle_0_sqr (THREE.y a - THREE.y b)).
  unfold Rsqr in *. lra.
Qed.

Lemma distanceTo_lt_sq a b r : 0 <= r -> THREE.distanceToSquared a b < r * r -> THREE.distanceTo a b < r.
Proof.
  intros Hr H. unfold THREE.distanceTo.
  rewrite <- (sqrt_square r) by assumption.
  apply sqrt_lt_1; [apply distanceToSquared_nonneg | nra | assumption].
Qed.

Lemma distanceTo_ge_sq a b r : 0 <= r -> r * r <= THREE.distanceToSquared a b -> r <= THREE.distanceTo a b.
Proof.
  intros Hr H. unfold THREE.distanceTo.
  rewrite <- (sqrt_square r) by assumption.
  apply sqrt_le_1; [nra | apply distanceToSquared_nonneg | assumption].
Qed.

Lemma distanceTo_axis_z a b :
  THREE.x a = THREE.x b -> THREE.y a = THREE.y b -> THREE.distanceTo a b = Rabs (THREE.z a - THREE.z b).
Proof.
  intros Hx Hy. unfold THREE.distanceTo, THREE.distanceToSquared; cbv zeta.
  rewrite Hx, Hy.
  replace ((THREE.x b - THREE.x b) * (THREE.x b - THREE.x b) + (THREE.y b - THREE.y b) * (THREE.y b - THREE.y b) + (THREE.z a - THREE.z b) * (THREE.z a - THREE.z b))
    with (Rsqr (THREE.z a - THREE.z b)) by (unfold Rsqr; ring).
  apply sqrt_Rsqr_abs.
Qed.

(* ================================================================== *)
(** ** [forEach] *)

Section ForEachFacts.
Variables C S E : Type.
Variable f : S -> C -> C * list E * S.

Lemma forEach_cons i s c cs :
forEach f i s (c :: cs) =
  (fst (fst (f s c)) :: forEach_items f (Datatypes.S i) (snd (f s c)) cs,
   map (pair i) (snd (fst (f s c))) ++ forEach_events f (Datatypes.S i) (snd (f s c)) cs,
   forEach_state f (Datatypes.S i) (snd (f s c)) cs).
Proof.
unfold forEach_items, forEach_events, forEach_state. simpl.
destruct (f s c) as [[c' ev] s1]. simpl.
destruct (forEach f (Datatypes.S i) s1 cs) as [[cs'' evs] s2]. reflexivity.
Qed.

Lemma forEach_length i s cs : List.length (forEach_items f i s cs) = List.length cs.
Proof.
revert i s. induction cs as [|c cs IH]; intros i s; [reflexivity|].
unfold forEach_items. rewrite forEach_cons. simpl. f_equal. apply IH.
Qed.

Lemma forEach_Forall (P : C -> Prop) (Q : C -> Prop) i s cs :
(forall s0 c, P c -> Q (fst (fst (f s0 c)))) ->
Forall P cs -> Forall Q (forEach_items f i s cs).
Proof.
intros H HP. revert i s. induction HP as [|c cs Hc Hcs IH]; intros i s.
- constructor.
- unfold forEach_items. rewrite forEach_cons. simpl. constructor.
  + apply H, Hc.
  + apply IH.
Qed.

Lemma forEach_events_index i s cs k e :
In (k, e) (forEach_events f i s cs) -> (i <= k)%nat.
Proof.
revert i s. induction cs as [|c cs IH]; intros i s Hin.
- destruct Hin.
- unfold forEach_events in Hin. rewrite forEach_cons in Hin. simpl in Hin.
  apply in_app_or in Hin. destruct Hin as [Hin|Hin].
  + apply in_map_iff in Hin. destruct Hin as [e' [Heq _]]. inversion Heq. lia.
  + apply IH in Hin. lia.
Qed.

Lemma eventsOf_app k (evs1 evs2 : list (nat * E)) :
eventsOf k (evs1 ++ evs2) = eventsOf k evs1 ++ eventsOf k evs2.
Proof. unfold eventsOf. rewrite filter_app, map_app. reflexivity. Qed.

Lemma eventsOf_tag_same k (ev : list E) : eventsOf k (map (pair k) ev) = ev.
Proof.
unfold eventsOf. induction ev as [|e ev IH]; [reflexivity|].
simpl. rewrite Nat.eqb_refl. simpl. f_equal. exact IH.
Qed.

Lemma eventsOf_tag_other k i (ev : list E) : i <> k -> eventsOf k (map (pair i) ev) = [].
Proof.
intro H. unfold eventsOf. induction ev as [|e ev IH]; [reflexivity|].
simpl. destruct (Nat.eqb_spec i k); [contradiction | exact IH].
Qed.

Lemma eventsOf_none k (evs : list (nat * E)) :
(forall j e, In (j, e) evs -> j <> k) -> eventsOf k evs = [].
Proof.
unfold eventsOf. induction evs as [|[j e] l IH]; intro Hl; [reflexivity|].
simpl. destruct (Nat.eqb_spec j k) as [Heq|Hne].
- exfalso. apply (Hl j e); [now left | exact Heq].
- apply IH. intros j' e' Hin. apply (Hl j' e'). now right.
Qed.

Lemma eventsOf_above k i s cs : (k < i)%nat -> eventsOf k (forEach_events f i s cs) = [].
Proof.
intro H. apply eventsOf_none. intros j e Hin.
apply forEach_events_index in Hin. lia.
Qed.

(** Element [k] of the result is the callback applied to element [k], at
  some threaded state, and the events tagged [i + k] are the callback's. *)
Lemma forEach_nth i s cs k c :
nth_error cs k = Some c ->
exists s0,
  nth_error (forEach_items f i s cs) k = Some (fst (fst (f s0 c))) /\
  eventsOf (i + k) (forEach_events f i s cs) = snd (fst (f s0 c)).
Proof.
revert i s k. induction cs as [|c0 cs IH]; intros i s k Hk.
- destruct k; discriminate.
- unfold forEach_items, forEach_events. rewrite forEach_cons. simpl.
  destruct k as [|k].
  + inversion Hk; subst. exists s. split; [reflexivity|].
    rewrite eventsOf_app, Nat.add_0_r, eventsOf_tag_same.
    rewrite eventsOf_above by lia. apply app_nil_r.
  + simpl in Hk. destruct (IH (Datatypes.S i) (snd (f s c0)) k Hk) as [s0 [H1 H2]].
    exists s0. split; [exact H1|].
    rewrite eventsOf_app, eventsOf_tag_other by lia. simpl.
    replace (i + Datatypes.S k)%nat with (Datatypes.S i + k)%nat by lia. exact H2.
Qed.

End ForEachFacts.

(* ================================================================== *)
(** ** The player controller *)

Section PlayerFacts.
Import PlayerStateTs.

(** A frame without a mounted group leaves everything as it was. *)
Lemma Player_skipped f shared s :
  Player.groupRef s = None ->
  Player.useFrame f shared s =
    {| Player.next := s; Player.published := shared; Player.onTrigger := [] |}.
Proof. intro H. unfold Player.useFrame. rewrite H. reflexivity. Qed.

Lemma stairsY_inside z :
  Player.stairEndZ < z < Player.stairStartZ ->
  Player.stairsY z =
    THREE.MathUtils.lerp 0 Player.topY ((z - Player.stairStartZ) / (Player.stairEndZ - Player.stairStartZ)).
Proof.
  intros [H1 H2]. unfold Player.stairsY.
  rewrite (ltb_true H2), (gtb_true H1). reflexivity.
Qed.

Lemma stairsY_ground z : Player.stairStartZ <= z -> Player.stairsY z = 0.
Proof.
  unfold Player.stairsY, Player.stairStartZ, Player.stairEndZ. intro H.
  rewrite ltb_false by lra. simpl. rewrite leb_false by lra. reflexivity.
Qed.

Lemma stairsY_platform z : z <= Player.stairEndZ -> Player.stairsY z = Player.topY.
Proof.
  unfold Player.stairsY, Player.stairStartZ, Player.stairEndZ. intro H.
  rewrite gtb_false by lra. rewrite andb_false_r. rewrite leb_true by lra. reflexivity.
Qed.

Lemma unlocked_position f shared s group :
  Player.isLocked f = false -> Player.groupRef s = Some group ->
  exists p,
    Player.position (Player.next (Player.useFrame f shared s))
    = THREE.set_y (Player.stairsY (THREE.z p)) p.
Proof.
  intros Hl Hg. unfold Player.useFrame. rewrite Hg, Hl. cbv zeta. simpl.
  eexists. reflexivity.
Qed.

End PlayerFacts.

(** C1. In a frame with the locked flag set, the player update (which runs
    whenever the player group is mounted) keeps the position, the group
    transform and the fire intensity as they were, publishes an inactive fire
    state with an empty target list, and calls [onTrigger] not at all. *)
Theorem C1_locked_frame_freezes_player :
  forall f shared s group,
    Player.isLocked f = true ->
    Player.groupRef s = Some group ->
    let r := Player.useFrame f shared s in
    Player.position (Player.next r) = Player.position s
    /\ Player.groupRef (Player.next r) = Some group
    /\ Player.fireIntensityRef (Player.next r) = Player.fireIntensityRef s
    /\ PlayerStateTs.fireActive (Player.published r) = false
    /\ PlayerStateTs.fireCenters (Player.published r) = []
    /\ Player.onTrigger r = [].
Proof.
  intros f shared s group Hl Hg r. subst r.
  unfold Player.useFrame. rewrite Hg, Hl. simpl. repeat split; reflexivity.
Qed.

Lemma C1_locked_frame_freezes_player_witness :
  let r := Player.useFrame Scenario.lockedFrame Scenario.firingShared Scenario.mountedPlayer in
  Player.position (Player.next r) = THREE.vec3 0 0 10
  /\ PlayerStateTs.fireActive (Player.published r) = false
  /\ PlayerStateTs.fireCenters (Player.published r) = []
  /\ Player.onTrigger r = [].
Proof.
  pose proof (@C1_locked_frame_freezes_player Scenario.lockedFrame Scenario.firingShared Scenario.mountedPlayer
                _ eq_refl eq_refl) as H.
  simpl in H. destruct H as [H1 [_ [_ [H4 [H5 H6]]]]].
  repeat split; assumption.
Defined.

(** C7. In every unlocked frame the player's height is recomputed from the
    depth alone: it is [stairsY] of the new depth.  Strictly inside the stair
    band [stairsY] is the linear interpolation from ground level 0 to the
    platform level; outside the band it is the level of the nearer end; at
    the midpoint of the band it is half-way between the two levels. *)
Theorem C7_stair_height :
  forall f shared s group,
    Player.isLocked f = false ->
    Player.groupRef s = Some group ->
    let p := Player.position (Player.next (Player.useFrame f shared s)) in
    THREE.y p = Player.stairsY (THREE.z p)
    /\ (forall z, Player.stairEndZ < z < Player.stairStartZ ->
          Player.stairsY z
          = 0 + (Player.topY - 0) * ((z - Player.stairStartZ) / (Player.stairEndZ - Player.stairStartZ)))
    /\ (forall z, ~ (Player.stairEndZ < z < Player.stairStartZ) ->
          Player.stairsY z
          = if Num.leb (Rabs (z - Player.stairStartZ)) (Rabs (z - Player.stairEndZ))
            then 0 else Player.topY)
    /\ Player.stairsY ((Player.stairStartZ + Player.stairEndZ) / 2) = (0 + Player.topY) / 2.
Proof.
  intros f shared s group Hl Hg p.
  split; [|split; [|split]].
  - subst p. destruct (unlocked_position f shared s Hl Hg) as [q Hq].
    rewrite Hq. reflexivity.
  - intros z Hz. rewrite stairsY_inside by assumption.
    unfold THREE.MathUtils.lerp. ring.
  - intros z Hz.
    destruct (Rle_lt_dec Player.stairStartZ z) as [Hge|Hlt].
    + rewrite stairsY_ground by assumption.
      unfold Player.stairStartZ, Player.stairEndZ in *.
      rewrite leb_true; [reflexivity|].
      rewrite !Rabs_right by lra. lra.
    + assert (Hle : z <= Player.stairEndZ).
      { destruct (Rle_lt_dec z Player.stairEndZ); [assumption|]. exfalso. apply Hz. split; assumption. }
      rewrite stairsY_platform by assumption.
      unfold Player.stairStartZ, Player.stairEndZ in *.
      rewrite leb_false; [reflexivity|].
      rewrite !Rabs_left1 by lra. lra.
  - rewrite stairsY_inside by (unfold Player.stairStartZ, Player.stairEndZ; lra).
    unfold THREE.MathUtils.lerp, Player.stairStartZ, Player.stairEndZ, Player.topY. field.
Qed.

Lemma C7_stair_height_witness :
  let p := Player.position
             (Player.next (Player.useFrame Scenario.walkingFrame PlayerStateTs.playerActionState Scenario.mountedPlayer)) in
  THREE.y p = Player.stairsY (THREE.z p)
  /\ Player.stairsY ((Player.stairStartZ + Player.stairEndZ) / 2) = (0 + Player.topY) / 2.
Proof.
  pose proof (@C7_stair_height Scenario.walkingFrame PlayerStateTs.playerActionState Scenario.mountedPlayer
                _ eq_refl eq_refl) as H.
  cbv zeta in H. destruct H as [H1 [_ [_ H4]]].
  split; assumption.
Defined.

(* ================================================================== *)
(** ** The in-place-respawn engine, one creature *)

Section RespawnFacts.
Import PlayerStateTs ChickensRespawn RespawnSpec.
Variable random : nat -> R.

Lemma Respawn_steer_fields f p d rng c :
  let c' := fst (steer random f p d rng c) in
  alert c' = Num.ltb d ALERT_RADIUS
  /\ mode c' = (if Num.ltb d ALERT_RADIUS then chase else wander)
  /\ lastPlayerHit c' = lastPlayerHit c
  /\ drumstickTimer c' = drumstickTimer c
  /\ drumstickOpacity c' = drumstickOpacity c
  /\ respawnTimer c' = respawnTimer c
  /\ hopOffset c' = hopOffset c
  /\ inArea (position c')
  /\ THREE.y (position c') = BASE_HEIGHT + sin (elapsedTime f * HOP_SPEED + hopOffset c) * HOP_HEIGHT.
Proof.
  unfold steer. cbv zeta.
  destruct (Num.leb _ 0); cbn [fst snd]; cbn;
    (repeat split; try reflexivity;
     try (apply clamp_bounds; unfold AREA_X, AREA_Z_MIN, AREA_Z_MAX; lra)).
Qed.

(** The velocity after steering: 12% of the way from the old velocity to
    the target velocity. *)
Lemma Respawn_steer_velocity_chase f p d rng c :
  d < ALERT_RADIUS ->
  velocity (fst (steer random f p d rng c))
  = let flat := THREE.set_y 0 (THREE.sub p (position c)) in
    let dir := if Num.gtb (THREE.lengthSq flat) 0.0001 then THREE.normalize flat else flat in
    THREE.lerp (velocity c) (THREE.multiplyScalar dir CHASE_SPEED) 0.12.
Proof.
  intro Hd. unfold steer. cbv zeta.
  destruct (Num.leb _ 0); cbn [fst snd]; cbn; rewrite (ltb_true Hd); reflexivity.
Qed.

Lemma Respawn_playerHit_fields f d c :
  let c' := fst (playerHit f d c) in
  position c' = position c /\ velocity c' = velocity c /\ mode c' = mode c
  /\ alert c' = alert c /\ drumstickTimer c' = drumstickTimer c
  /\ drumstickOpacity c' = drumstickOpacity c /\ respawnTimer c' = respawnTimer c.
Proof.
  unfold playerHit. destruct (_ && _); cbn; repeat split; reflexivity.
Qed.

Lemma Respawn_capture_captured c : captured (capture c).
Proof. unfold captured, capture. cbn. repeat split; reflexivity. Qed.

Lemma Respawn_footFireHit_iff p c : footFireHit p c = true <-> inFootBox p c.
Proof.
  unfold footFireHit, inFootBox. cbv zeta. rewrite !andb_true_iff.
  repeat match goal with |- context [Num.leb ?a ?b] => destruct (lebP a b) end;
    intuition (try discriminate; try lra).
Qed.

Lemma Respawn_fireHit_iff shared c : fireHit shared c = true <-> nearFireTarget shared c.
Proof.
  unfold fireHit, nearFireTarget. rewrite existsb_exists.
  split; intros [center [Hin H]]; exists center; (split; [exact Hin|]).
  - cbv zeta in H. destruct (gtbP (Rabs (THREE.y center - THREE.y (position c))) FIRE_VERTICAL_TOLERANCE) as [Hg|Hg];
      [discriminate|].
    destruct (ltbP (THREE.hypot (THREE.x center - THREE.x (position c)) (THREE.z center - THREE.z (position c)))
                   (fireRadius shared + FIRE_PADDING)); [|discriminate].
    split; [lra | assumption].
  - cbv zeta. destruct H as [H1 H2].
    rewrite gtb_false by exact H1. apply ltb_true. exact H2.
Qed.

(** The four ways through the body of the loop. *)
Lemma Respawn_update_respawn f p rng c :
  mode c = respawn ->
  updateChicken random f p rng c
  = (fst (respawning random f rng c), [], snd (respawning random f rng c)).
Proof.
  intro H. unfold updateChicken. rewrite H.
  destruct (respawning random f rng c). reflexivity.
Qed.

Lemma Respawn_update_drumstick f p rng c :
  mode c = drumstick ->
  updateChicken random f p rng c = (fst (fade f p c), snd (fade f p c), rng).
Proof.
  intro H. unfold updateChicken. rewrite H.
  destruct (fade f p c). reflexivity.
Qed.

Lemma Respawn_update_foot f p rng c :
  roaming c -> fireActive (fire f) && footFireHit p c = true ->
  updateChicken random f p rng c = (capture c, [], rng).
Proof.
  intros [H|H] Hf; unfold updateChicken; rewrite H, Hf; reflexivity.
Qed.

Lemma Respawn_update_roam f p rng c :
  roaming c -> fireActive (fire f) && footFireHit p c = false ->
  let d := THREE.distanceTo (position c) p in
  updateChicken random f p rng c
  = (fireCheck (fire f) (moved random f p rng c),
     snd (playerHit f d (fst (steer random f p d rng c))),
     snd (steer random f p d rng c)).
Proof.
  intros Hm Hf d. unfold moved. fold d.
  assert (E : updateChicken random f p rng c =
              let '(chicken, rng0) := steer random f p d rng c in
              let '(chicken0, events) := playerHit f d chicken in
              (fireCheck (fire f) chicken0, events, rng0)).
  { destruct Hm as [H|H]; unfold updateChicken; rewrite H, Hf; reflexivity. }
  rewrite E. destruct (steer random f p d rng c) as [c1 rng1]. cbn [fst snd].
  destruct (playerHit f d c1). reflexivity.
Qed.

Lemma Respawn_moved_fields f p rng c :
  let d := THREE.distanceTo (position c) p in
  let c' := moved random f p rng c in
  alert c' = Num.ltb d ALERT_RADIUS
  /\ mode c' = (if Num.ltb d ALERT_RADIUS then chase else wander)
  /\ inArea (position c')
  /\ velocity c' = velocity (fst (steer random f p d rng c)).
Proof.
  intros d c'. subst c'. unfold moved. fold d.
  destruct (Respawn_playerHit_fields f d (fst (steer random f p d rng c)))
    as [Hp [Hv [Hm [Ha _]]]].
  destruct (Respawn_steer_fields f p d rng c) as [Sa [Sm [_ [_ [_ [_ [_ [Sp _]]]]]]]].
  rewrite Ha, Hm, Hp, Hv. repeat split; assumption || reflexivity || apply Sp.
Qed.

Lemma Respawn_mode_cases (m : ChickenMode) :
  oneOf4 (m = wander) (m = chase) (m = drumstick) (m = respawn).
Proof.
  unfold oneOf4. destruct m;
    [left | right; left | right; right; left | right; right; right];
    repeat split; try reflexivity; discriminate.
Qed.

Lemma Respawn_startXs_bound n : -12 <= nth n startXs 0 <= 12.
Proof.
  unfold startXs. do 5 (destruct n as [|n]; [simpl; lra|]). destruct n; simpl; lra.
Qed.

Lemma Respawn_randomize_fields rng c :
  unitRandom random ->
  let c' := randomizeChicken random rng c in
  mode c' = wander /\ inArea (position c') /\ velocity c' = THREE.vec3 0 0 0
  /\ lastPlayerHit c' = -10 /\ respawnTimer c' = 0.
Proof.
  intros Hr c'. subst c'. unfold randomizeChicken, inArea. cbn -[nth INR].
  match goal with |- context [nth ?s startXs 0] => pose proof (Respawn_startXs_bound s) end.
  pose proof (Hr (rng + 1)%nat). pose proof (Hr (rng + 2)%nat).
  unfold AREA_X, AREA_Z_MIN, AREA_Z_MAX, startZ.
  repeat split; try reflexivity; lra.
Qed.

(** Whatever a frame finds, it leaves the creature within the invariant. *)
Lemma Respawn_update_invariant f p rng c :
  unitRandom random -> invariant (fst (fst (updateChicken random f p rng c))).
Proof.
  intro Hr. unfold invariant.
  split; [|split; [|apply Respawn_mode_cases]].
  - destruct (mode c) eqn:Hm.
    1,2: destruct (fireActive (fire f) && footFireHit p c) eqn:Hf.
    1,3: rewrite Respawn_update_foot by (unfold roaming; auto); cbn;
         intros [H|H]; discriminate.
    1,2: rewrite Respawn_update_roam by (unfold roaming; auto); cbn [fst];
         intros Hmode; unfold fireCheck in *;
         destruct (fireActive (fire f) && fireHit (fire f) _);
         [cbn in Hmode; destruct Hmode; discriminate
         | apply (Respawn_moved_fields f p rng c)].
    + rewrite Respawn_update_drumstick by assumption. cbn [fst].
      unfold fade. cbv zeta.
      destruct (Num.ltb _ DRUMSTICK_PICKUP_RADIUS); cbn [fst snd];
        destruct (Num.leb _ 0.01); cbn; rewrite ?Hm; intros [H|H]; discriminate.
    + rewrite Respawn_update_respawn by assumption. cbn [fst].
      unfold respawning. cbv zeta. destruct (Num.geb _ RESPAWN_DELAY); cbn [fst].
      * intros _. apply Respawn_randomize_fields. exact Hr.
      * cbn. rewrite Hm. intros [H|H]; discriminate.
  - destruct (mode c) eqn:Hm.
    1,2: destruct (fireActive (fire f) && footFireHit p c) eqn:Hf.
    1,3: rewrite Respawn_update_foot by (unfold roaming; auto); reflexivity.
    1,2: rewrite Respawn_update_roam by (unfold roaming; auto); cbn [fst];
         unfold fireCheck;
         destruct (fireActive (fire f) && fireHit (fire f) _);
         [reflexivity
         | destruct (Respawn_moved_fields f p rng c) as [_ [Hmm _]];
           rewrite Hmm; destruct (Num.ltb _ ALERT_RADIUS); discriminate].
    + rewrite Respawn_update_drumstick by assumption. cbn [fst].
      unfold fade. cbv zeta.
      destruct (Num.ltb _ DRUMSTICK_PICKUP_RADIUS); cbn [fst snd];
        destruct (Num.leb _ 0.01); cbn; reflexivity.
    + rewrite Respawn_update_respawn by assumption. cbn [fst].
      unfold respawning. cbv zeta. destruct (Num.geb _ RESPAWN_DELAY); cbn [fst].
      * intros _. apply Respawn_randomize_fields. exact Hr.
      * cbn. rewrite Hm. discriminate.
Qed.

End RespawnFacts.

(* ================================================================== *)
(** ** The in-place-respawn engine, whole frames *)

Section RespawnFrames.
Import PlayerStateTs ChickensRespawn RespawnSpec.
Variable random : nat -> R.

Lemma Respawn_skipped f s : player f = None -> useFrame random f s = (s, []).
Proof. intro H. unfold useFrame. rewrite H. reflexivity. Qed.

Lemma Respawn_played f s p :
  player f = Some p ->
  useFrame random f s
  = ({| chickensRef := forEach_items (updateChicken random f p) 0 (cursor s) (chickensRef s);
        playerPos := p;
        cursor := forEach_state (updateChicken random f p) 0 (cursor s) (chickensRef s) |},
     forEach_events (updateChicken random f p) 0 (cursor s) (chickensRef s)).
Proof. intro H. unfold useFrame. rewrite H. reflexivity. Qed.

Lemma Respawn_run_cons s f fs :
  run random s (f :: fs)
  = (fst (run random (fst (useFrame random f s)) fs),
     map (pair (elapsedTime f)) (snd (useFrame random f s))
       ++ snd (run random (fst (useFrame random f s)) fs)).
Proof.
  simpl. destruct (useFrame random f s) as [s1 ev]. cbn [fst snd].
  destruct (run random s1 fs). reflexivity.
Qed.



Lemma Respawn_frame_invariant f s p :
  unitRandom random -> player f = Some p ->
  Forall invariant (chickensRef (fst (useFrame random f s))).
Proof.
  intros Hr Hp. rewrite Respawn_played with (p := p) by exact Hp. cbn [fst chickensRef].
  apply forEach_Forall with (P := fun _ => True).
  - intros rng c _. apply Respawn_update_invariant. exact Hr.
  - apply Forall_forall. intros; exact I.
Qed.

Lemma Respawn_initial_invariant :
  unitRandom random -> Forall invariant (createInitialChickens random).
Proof.
  intro Hr. unfold createInitialChickens. apply Forall_forall. intros c Hin.
  apply in_map_iff in Hin. destruct Hin as [i [Hc _]]. subst c.
  unfold invariant. split; [|split; [|apply Respawn_mode_cases]].
  - intros _. unfold initialChicken, inArea. cbn -[nth Nat.modulo Nat.mul Nat.add].
    match goal with |- context [nth ?n startXs 0] => pose proof (Respawn_startXs_bound n) end.
    pose proof (Hr (5 * i)%nat). pose proof (Hr (5 * i + 1)%nat).
    unfold AREA_X, AREA_Z_MIN, AREA_Z_MAX, startZ. repeat split; lra.
  - reflexivity.
Qed.

Lemma Respawn_run_invariant s fs :
  unitRandom random -> Forall invariant (chickensRef s) ->
  Forall invariant (chickensRef (fst (run random s fs))).
Proof.
  intro Hr. revert s. induction fs as [|f fs IH]; intros s Hs; [exact Hs|].
  rewrite Respawn_run_cons. cbn [fst]. apply IH.
  destruct (player f) as [p|] eqn:Hp.
  - apply Respawn_frame_invariant with (p := p); assumption.
  - rewrite Respawn_skipped by exact Hp. exact Hs.
Qed.

End RespawnFrames.

(* ================================================================== *)
(** ** The fixed-roster engine *)

Section FixedFacts.
Import PlayerStateTs ChickensFixed FixedSpec.
Variable random : nat -> R.

Lemma Fixed_steer_fields f p d rng c :
  let c' := fst (steer random f p d rng c) in
  alert c' = Num.ltb d ALERT_RADIUS
  /\ mode c' = (if Num.ltb d ALERT_RADIUS then chase else wander)
  /\ lastPlayerHit c' = lastPlayerHit c
  /\ drumstickTimer c' = drumstickTimer c
  /\ drumstickOpacity c' = drumstickOpacity c
  /\ hopOffset c' = hopOffset c
  /\ inArea (position c')
  /\ THREE.y (position c') = BASE_HEIGHT + sin (elapsedTime f * HOP_SPEED + hopOffset c) * HOP_HEIGHT.
Proof.
  unfold steer. cbv zeta.
  destruct (Num.leb _ 0); cbn [fst snd]; cbn;
    (repeat split; try reflexivity;
     try (apply clamp_bounds; unfold AREA_X, AREA_Z_MIN, AREA_Z_MAX; lra)).
Qed.

Lemma Fixed_steer_velocity_chase f p d rng c :
  d < ALERT_RADIUS ->
  velocity (fst (steer random f p d rng c))
  = let flat := THREE.set_y 0 (THREE.sub p (position c)) in
    let dir := if Num.gtb (THREE.lengthSq flat) 0.0001 then THREE.normalize flat else flat in
    THREE.lerp (velocity c) (THREE.multiplyScalar dir CHASE_SPEED) 0.12.
Proof.
  intro Hd. unfold steer. cbv zeta.
  destruct (Num.leb _ 0); cbn [fst snd]; cbn; rewrite (ltb_true Hd); reflexivity.
Qed.

Lemma Fixed_playerHit_fields f d c :
  let c' := fst (playerHit f d c) in
  position c' = position c /\ velocity c' = velocity c /\ mode c' = mode c
  /\ alert c' = alert c /\ drumstickTimer c' = drumstickTimer c
  /\ drumstickOpacity c' = drumstickOpacity c.
Proof.
  unfold playerHit. destruct (_ && _); cbn; repeat split; reflexivity.
Qed.

Lemma Fixed_capture_captured c : captured (capture c).
Proof. unfold captured, capture. cbn. repeat split; reflexivity. Qed.

Lemma Fixed_fireHit_iff shared c : fireHit shared c = true <-> nearFireTarget shared c.
Proof.
  unfold fireHit, nearFireTarget. rewrite existsb_exists.
  split; intros [center [Hin H]]; exists center; (split; [exact Hin|]).
  - destruct (ltbP (THREE.distanceTo center (position c)) (fireRadius shared + FIRE_PADDING));
      [assumption | discriminate].
  - apply ltb_true. exact H.
Qed.

Lemma Fixed_update_drumstick f p rng c :
  mode c = drumstick -> updateChicken random f p rng c = (fade f c, [], rng).
Proof. intro H. unfold updateChicken. rewrite H. reflexivity. Qed.

Lemma Fixed_update_roam f p rng c :
  roaming c ->
  let d := THREE.distanceTo (position c) p in
  updateChicken random f p rng c
  = (fireCheck (fire f) (moved random f p rng c),
     snd (playerHit f d (fst (steer random f p d rng c))),
     snd (steer random f p d rng c)).
Proof.
  intros Hm d. unfold moved. fold d.
  assert (E : updateChicken random f p rng c =
              let '(chicken, rng0) := steer random f p d rng c in
              let '(chicken0, events) := playerHit f d chicken in
              (fireCheck (fire f) chicken0, events, rng0)).
  { destruct Hm as [H|H]; unfold updateChicken; rewrite H; reflexivity. }
  rewrite E. destruct (steer random f p d rng c) as [c1 rng1]. cbn [fst snd].
  destruct (playerHit f d c1). reflexivity.
Qed.

Lemma Fixed_moved_fields f p rng c :
  let d := THREE.distanceTo (position c) p in
  let c' := moved random f p rng c in
  alert c' = Num.ltb d ALERT_RADIUS
  /\ mode c' = (if Num.ltb d ALERT_RADIUS then chase else wander)
  /\ inArea (position c')
  /\ velocity c' = velocity (fst (steer random f p d rng c)).
Proof.
  intros d c'. subst c'. unfold moved. fold d.
  destruct (Fixed_playerHit_fields f d (fst (steer random f p d rng c)))
    as [Hp [Hv [Hm [Ha _]]]].
  destruct (Fixed_steer_fields f p d rng c) as [Sa [Sm [_ [_ [_ [_ [Sp _]]]]]]].
  rewrite Ha, Hm, Hp, Hv. repeat split; assumption || reflexivity || apply Sp.
Qed.

Lemma Fixed_mode_cases (m : ChickenMode) :
  oneOf4 (m = wander) (m = chase) (m = drumstick) False.
Proof.
  unfold oneOf4. destruct m;
    [left | right; left | right; right; left];
    repeat split; try reflexivity; try discriminate; auto.
Qed.

Lemma Fixed_startXs_bound n : -12 <= nth n startXs 0 <= 12.
Proof.
  unfold startXs. do 5 (destruct n as [|n]; [simpl; lra|]). destruct n; simpl; lra.
Qed.

Lemma Fixed_update_invariant f p rng c :
  invariant (fst (fst (updateChicken random f p rng c))).
Proof.
  unfold invariant.
  split; [|split; [|apply Fixed_mode_cases]].
  - destruct (mode c) eqn:Hm.
    1,2: rewrite Fixed_update_roam by (unfold roaming; auto); cbn [fst];
         intros Hmode; unfold fireCheck in *;
         destruct (fireActive (fire f) && fireHit (fire f) _);
         [cbn in Hmode; destruct Hmode; discriminate
         | apply (Fixed_moved_fields f p rng c)].
    rewrite Fixed_update_drumstick by assumption. cbn. rewrite Hm.
    intros [H|H]; discriminate.
  - destruct (mode c) eqn:Hm.
    1,2: rewrite Fixed_update_roam by (unfold roaming; auto); cbn [fst];
         unfold fireCheck;
         destruct (fireActive (fire f) && fireHit (fire f) _);
         [reflexivity
         | destruct (Fixed_moved_fields f p rng c) as [_ [Hmm _]];
           rewrite Hmm; destruct (Num.ltb _ ALERT_RADIUS); discriminate].
    rewrite Fixed_update_drumstick by assumption. reflexivity.
Qed.

Lemma Fixed_skipped f s : player f = None -> useFrame random f s = (s, []).
Proof. intro H. unfold useFrame. rewrite H. reflexivity. Qed.

Lemma Fixed_played f s p :
  player f = Some p ->
  useFrame random f s
  = ({| chickensRef := forEach_items (updateChicken random f p) 0 (cursor s) (chickensRef s);
        playerPos := p;
        cursor := forEach_state (updateChicken random f p) 0 (cursor s) (chickensRef s) |},
     forEach_events (updateChicken random f p) 0 (cursor s) (chickensRef s)).
Proof. intro H. unfold useFrame. rewrite H. reflexivity. Qed.

Lemma Fixed_run_cons s f fs :
  run random s (f :: fs)
  = (fst (run random (fst (useFrame random f s)) fs),
     map (pair (elapsedTime f)) (snd (useFrame random f s))
       ++ snd (run random (fst (useFrame random f s)) fs)).
Proof.
  simpl. destruct (useFrame random f s) as [s1 ev]. cbn [fst snd].
  destruct (run random s1 fs). reflexivity.
Qed.



Lemma Fixed_frame_invariant f s p :
  player f = Some p ->
  Forall invariant (chickensRef (fst (useFrame random f s))).
Proof.
  intros Hp. rewrite Fixed_played with (p := p) by exact Hp. cbn [fst chickensRef].
  apply forEach_Forall with (P := fun _ => True).
  - intros rng c _. apply Fixed_update_invariant.
  - apply Forall_forall. intros; exact I.
Qed.

Lemma Fixed_initial_invariant :
  unitRandom random -> Forall invariant (createInitialChickens random).
Proof.
  intro Hr. unfold createInitialChickens. apply Forall_forall. intros c Hin.
  apply in_map_iff in Hin. destruct Hin as [i [Hc _]]. subst c.
  unfold invariant. split; [|split; [|apply Fixed_mode_cases]].
  - intros _. unfold initialChicken, inArea. cbn -[nth Nat.modulo Nat.mul Nat.add].
    match goal with |- context [nth ?n startXs 0] => pose proof (Fixed_startXs_bound n) end.
    pose proof (Hr (5 * i)%nat). pose proof (Hr (5 * i + 1)%nat).
    unfold AREA_X, AREA_Z_MIN, AREA_Z_MAX, startZ. repeat split; lra.
  - reflexivity.
Qed.

Lemma Fixed_run_invariant s fs :
  Forall invariant (chickensRef s) ->
  Forall invariant (chickensRef (fst (run random s fs))).
Proof.
  revert s. induction fs as [|f fs IH]; intros s Hs; [exact Hs|].
  rewrite Fixed_run_cons. cbn [fst]. apply IH.
  destruct (player f) as [p|] eqn:Hp.
  - apply Fixed_frame_invariant with (p := p); assumption.
  - rewrite Fixed_skipped by exact Hp. exact Hs.
Qed.

End FixedFacts.

(** C3. At the end of every frame update of the in-place-respawn engine and
    of the fixed-roster engine, every creature in mode wander or chase lies in
    the activity rectangle, every creature in mode drumstick (captured) has
    zero velocity, and every creature is in exactly one mode.  A frame that
    runs establishes this from any state; a skipped frame keeps it, so it
    holds throughout a session that starts from the initial roster. *)
Theorem C3_frame_invariants :
  forall random,
    unitRandom random ->
    (forall f s p, player f = Some p ->
       Forall RespawnSpec.invariant
              (ChickensRespawn.chickensRef (fst (ChickensRespawn.useFrame random f s))))
    /\ (forall fs,
          Forall RespawnSpec.invariant
                 (ChickensRespawn.chickensRef
                    (fst (ChickensRespawn.run random (ChickensRespawn.initial random) fs))))
    /\ (forall f s p, player f = Some p ->
          Forall FixedSpec.invariant
                 (ChickensFixed.chickensRef (fst (ChickensFixed.useFrame random f s))))
    /\ (forall fs,
          Forall FixedSpec.invariant
                 (ChickensFixed.chickensRef
                    (fst (ChickensFixed.run random (ChickensFixed.initial random) fs)))).
Proof.
  intros random Hr. repeat split.
  - intros f s p Hp. apply Respawn_frame_invariant with (p := p); assumption.
  - intro fs. apply Respawn_run_invariant; [exact Hr|].
    apply Respawn_initial_invariant. exact Hr.
  - intros f s p Hp. apply Fixed_frame_invariant with (p := p); assumption.
  - intro fs. apply Fixed_run_invariant.
    apply Fixed_initial_invariant. exact Hr.
Qed.

Lemma half_unitRandom : unitRandom Scenario.half.
Proof. intro n. unfold Scenario.half. lra. Qed.

Lemma C3_frame_invariants_witness :
  unitRandom Scenario.half
  /\ Forall RespawnSpec.invariant
            (ChickensRespawn.chickensRef
               (fst (ChickensRespawn.run Scenario.half (ChickensRespawn.initial Scenario.half)
                                         [Scenario.quietFrame; Scenario.quietFrame])))
  /\ Forall FixedSpec.invariant
            (ChickensFixed.chickensRef
               (fst (ChickensFixed.run Scenario.half (ChickensFixed.initial Scenario.half)
                                       [Scenario.quietFrame]))).
Proof.
  split; [exact half_unitRandom|].
  destruct (@C3_frame_invariants Scenario.half half_unitRandom) as [_ [H2 [_ H4]]].
  split; [apply H2 | apply H4].
Defined.

(* ================================================================== *)
(** ** Fire against creatures *)

Lemma distanceTo_ge_y a b r : 0 <= r -> r <= Rabs (THREE.y a - THREE.y b) -> r <= THREE.distanceTo a b.
Proof.
  intros Hr H. unfold THREE.distanceTo.
  rewrite <- (sqrt_square r) by assumption.
  apply sqrt_le_1; [nra | apply distanceToSquared_nonneg |].
  unfold THREE.distanceToSquared; cbv zeta.
  assert (r * r <= (THREE.y a - THREE.y b) * (THREE.y a - THREE.y b)).
  { revert H. unfold Rabs. destruct (Rcase_abs (THREE.y a - THREE.y b)); intro; nra. }
  pose proof (Rle_0_sqr (THREE.x a - THREE.x b)). pose proof (Rle_0_sqr (THREE.z a - THREE.z b)).
  unfold Rsqr in *. lra.
Qed.

Section FireFacts.
Import PlayerStateTs.
Variable random : nat -> R.

Lemma Respawn_fire_blind f p rng c shared :
  ~ RespawnSpec.roaming c ->
  ChickensRespawn.updateChicken random (withFire shared f) p rng c
  = ChickensRespawn.updateChicken random f p rng c.
Proof.
  intro H. unfold RespawnSpec.roaming in H.
  destruct (ChickensRespawn.mode c) eqn:Hm; try (exfalso; apply H; auto; fail).
  - rewrite !Respawn_update_drumstick by assumption. reflexivity.
  - rewrite !Respawn_update_respawn by assumption. reflexivity.
Qed.

Lemma Fixed_fire_blind f p rng c shared :
  ~ FixedSpec.roaming c ->
  ChickensFixed.updateChicken random (withFire shared f) p rng c
  = ChickensFixed.updateChicken random f p rng c.
Proof.
  intro H. unfold FixedSpec.roaming in H.
  destruct (ChickensFixed.mode c) eqn:Hm; try (exfalso; apply H; auto; fail).
  rewrite !Fixed_update_drumstick by assumption. reflexivity.
Qed.

Lemma Respawn_foot_capture f p rng c :
  RespawnSpec.roaming c -> fireActive (fire f) = true -> RespawnSpec.inFootBox p c ->
  ChickensRespawn.updateChicken random f p rng c = (ChickensRespawn.capture c, [], rng).
Proof.
  intros Hm Ha Hb. apply Respawn_update_foot; [exact Hm|].
  rewrite Ha. apply Respawn_footFireHit_iff in Hb. rewrite Hb. reflexivity.
Qed.

Lemma Respawn_target_capture f p rng c :
  RespawnSpec.roaming c -> fireActive (fire f) = true -> ~ RespawnSpec.inFootBox p c ->
  RespawnSpec.nearFireTarget (fire f) (RespawnSpec.moved random f p rng c) ->
  fst (fst (ChickensRespawn.updateChicken random f p rng c))
  = ChickensRespawn.capture (RespawnSpec.moved random f p rng c).
Proof.
  intros Hm Ha Hb Hn.
  rewrite Respawn_update_roam; [|exact Hm|].
  - cbn [fst]. unfold ChickensRespawn.fireCheck.
    apply Respawn_fireHit_iff in Hn. rewrite Ha, Hn. reflexivity.
  - rewrite Ha. simpl. destruct (ChickensRespawn.footFireHit p c) eqn:E; [|reflexivity].
    exfalso. apply Hb. apply Respawn_footFireHit_iff. exact E.
Qed.

Lemma Fixed_target_capture f p rng c :
  FixedSpec.roaming c -> fireActive (fire f) = true ->
  FixedSpec.nearFireTarget (fire f) (FixedSpec.moved random f p rng c) ->
  fst (fst (ChickensFixed.updateChicken random f p rng c))
  = ChickensFixed.capture (FixedSpec.moved random f p rng c).
Proof.
  intros Hm Ha Hn.
  rewrite Fixed_update_roam by exact Hm.
  cbn [fst]. unfold ChickensFixed.fireCheck.
  apply Fixed_fireHit_iff in Hn. rewrite Ha, Hn. reflexivity.
Qed.

(** Without a fire target in reach, the fixed-roster engine leaves a
    roaming creature roaming, wherever the player stands. *)
Lemma Fixed_no_target_no_capture f p rng c :
  FixedSpec.roaming c ->
  ~ FixedSpec.nearFireTarget (fire f) (FixedSpec.moved random f p rng c) ->
  fst (fst (ChickensFixed.updateChicken random f p rng c)) = FixedSpec.moved random f p rng c.
Proof.
  intros Hm Hn.
  rewrite Fixed_update_roam by exact Hm.
  cbn [fst]. unfold ChickensFixed.fireCheck.
  destruct (ChickensFixed.fireHit (fire f) _) eqn:E.
  - exfalso. apply Hn. apply Fixed_fireHit_iff. exact E.
  - rewrite andb_false_r. reflexivity.
Qed.

End FireFacts.

(** C2, as the code has it.  In the engine with in-place respawn, a roaming
    creature (mode wander or chase) is captured by the frame's update -- mode
    drumstick, captured-elapsed 0, opacity 1, velocity 0 -- whenever the fire
    state is active and either the creature, where the frame finds it, is
    inside the foot box around the player, or, outside that box, the creature
    as moved by this frame is within the vertical tolerance of some fire
    target and horizontally closer to it than the radius plus the padding.
    In the fixed-roster engine there is no box and no vertical tolerance: a
    roaming creature is captured whenever the fire state is active and the
    creature as moved by this frame is closer in space to some fire target
    than the radius plus the padding.  In both engines the update of a
    creature that is a drumstick or is respawning does not depend on the fire
    state. *)
Theorem C2_fire_capture :
  forall random f p rng,
    (forall c, RespawnSpec.roaming c -> PlayerStateTs.fireActive (fire f) = true ->
               RespawnSpec.inFootBox p c ->
               RespawnSpec.captured (fst (fst (ChickensRespawn.updateChicken random f p rng c))))
    /\ (forall c, RespawnSpec.roaming c -> PlayerStateTs.fireActive (fire f) = true ->
                  ~ RespawnSpec.inFootBox p c ->
                  RespawnSpec.nearFireTarget (fire f) (RespawnSpec.moved random f p rng c) ->
                  RespawnSpec.captured (fst (fst (ChickensRespawn.updateChicken random f p rng c))))
    /\ (forall c shared, ~ RespawnSpec.roaming c ->
                         ChickensRespawn.updateChicken random (withFire shared f) p rng c
                         = ChickensRespawn.updateChicken random f p rng c)
    /\ (forall c, FixedSpec.roaming c -> PlayerStateTs.fireActive (fire f) = true ->
                  FixedSpec.nearFireTarget (fire f) (FixedSpec.moved random f p rng c) ->
                  FixedSpec.captured (fst (fst (ChickensFixed.updateChicken random f p rng c))))
    /\ (forall c shared, ~ FixedSpec.roaming c ->
                         ChickensFixed.updateChicken random (withFire shared f) p rng c
                         = ChickensFixed.updateChicken random f p rng c).
Proof.
  intros random f p rng.
  split; [|split; [|split; [|split]]].
  - intros c Hm Ha Hb.
    rewrite Respawn_foot_capture by assumption. cbn [fst]. apply Respawn_capture_captured.
  - intros c Hm Ha Hb Hn.
    rewrite Respawn_target_capture by assumption. apply Respawn_capture_captured.
  - intros c shared Hm. apply Respawn_fire_blind. exact Hm.
  - intros c Hm Ha Hn.
    rewrite Fixed_target_capture by assumption. apply Fixed_capture_captured.
  - intros c shared Hm. apply Fixed_fire_blind. exact Hm.
Qed.


Lemma Fixed_moved_y random f p rng c :
  THREE.y (ChickensFixed.position (FixedSpec.moved random f p rng c))
  = ChickensFixed.BASE_HEIGHT
    + sin (elapsedTime f * ChickensFixed.HOP_SPEED + ChickensFixed.hopOffset c) * ChickensFixed.HOP_HEIGHT.
Proof.
  unfold FixedSpec.moved. cbv zeta.
  destruct (Fixed_playerHit_fields f (THREE.distanceTo (ChickensFixed.position c) p)
              (fst (ChickensFixed.steer random f p (THREE.distanceTo (ChickensFixed.position c) p) rng c)))
    as [Hp _].
  rewrite Hp. apply Fixed_steer_fields.
Qed.

Lemma C2_fire_capture_witness :
  RespawnSpec.captured
    (fst (fst (ChickensRespawn.updateChicken Scenario.half Scenario.breathFrame
                                             Scenario.platformPlayer 0 Scenario.underfootR))).
Proof.
  destruct (C2_fire_capture Scenario.half Scenario.breathFrame Scenario.platformPlayer 0)
    as [H _].
  apply H.
  - left. reflexivity.
  - reflexivity.
  - unfold RespawnSpec.inFootBox, Scenario.underfootR, Scenario.platformPlayer,
      ChickensRespawn.FOOT_FIRE_HALF_X, ChickensRespawn.FOOT_FIRE_HALF_Z,
      ChickensRespawn.FOOT_FIRE_HEIGHT. simpl.
    repeat split; apply Rabs_le; lra.
Defined.

(** C2 fails as stated on the fixed-roster engine: a wandering creature right
    under the breathing player, well inside the foot box, is not captured,
    because every fire target is at mouth height, out of reach in space. *)
Lemma C2_counterexample :
  let c := Scenario.underfoot in
  let p := Scenario.platformPlayer in
  FixedSpec.roaming c
  /\ PlayerStateTs.fireActive (fire Scenario.breathFrame) = true
  /\ (Rabs (THREE.x (ChickensFixed.position c) - THREE.x p) <= 4
      /\ Rabs (THREE.z (ChickensFixed.position c) - THREE.z p) <= 4
      /\ Rabs (THREE.y (ChickensFixed.position c) - THREE.y p) <= 3)
  /\ ChickensFixed.mode
       (fst (fst (ChickensFixed.updateChicken Scenario.half Scenario.breathFrame p 0 c)))
     = ChickensFixed.chase.
Proof.
  cbv zeta. split; [left; reflexivity|]. split; [reflexivity|]. split.
  - unfold Scenario.underfoot, Scenario.platformPlayer. simpl.
    repeat split; apply Rabs_le; lra.
  - rewrite Fixed_no_target_no_capture.
    + destruct (Fixed_moved_fields Scenario.half Scenario.breathFrame Scenario.platformPlayer 0
                                   Scenario.underfoot) as [_ [Hm _]].
      rewrite Hm. rewrite ltb_true; [reflexivity|].
      apply distanceTo_lt_sq; [unfold ChickensFixed.ALERT_RADIUS; lra|].
      unfold THREE.distanceToSquared, Scenario.underfoot, Scenario.platformPlayer,
        ChickensFixed.ALERT_RADIUS. simpl. lra.
    + left. reflexivity.
    + intros [center [Hin Hlt]].
      assert (Hy : THREE.y (ChickensFixed.position
                              (FixedSpec.moved Scenario.half Scenario.breathFrame
                                               Scenario.platformPlayer 0 Scenario.underfoot))
                   <= 8.65).
      { rewrite Fixed_moved_y.
        pose proof (SIN_bound (elapsedTime Scenario.breathFrame * ChickensFixed.HOP_SPEED
                               + ChickensFixed.hopOffset Scenario.underfoot)) as [_ Hs].
        unfold ChickensFixed.BASE_HEIGHT, ChickensFixed.HOP_HEIGHT. lra. }
      assert (Hc : 12.5 <= THREE.y center).
      { simpl in Hin. destruct Hin as [H|[H|[H|[H|[]]]]]; subst center; simpl; lra. }
      apply (Rlt_not_le _ _ Hlt).
      apply distanceTo_ge_y.
      * unfold ChickensFixed.FIRE_PADDING. simpl. lra.
      * unfold ChickensFixed.FIRE_PADDING. simpl PlayerStateTs.fireRadius.
        rewrite Rabs_right by lra. lra.
Qed.

(* ================================================================== *)
(** ** Alert and chase *)

(** The pull of the chase on a slow creature: the new velocity has a positive
    component toward the player. *)
Lemma pull_positive v flat :
  THREE.y flat = 0 -> 0.0001 < THREE.lengthSq flat -> THREE.lengthSq v < 0.09 ->
  0 < dot (THREE.lerp v (THREE.multiplyScalar (THREE.normalize flat) 2.2) 0.12) flat.
Proof.
  intros Hy Hl Hv.
  destruct v as [a vy b]. destruct flat as [dx fy dz]. simpl in Hy. subst fy.
  unfold THREE.lengthSq in *. simpl in *.
  set (L := sqrt (dx * dx + 0 * 0 + dz * dz)).
  assert (HLpos : 0 < L).
  { unfold L. apply sqrt_lt_R0. lra. }
  assert (HLsq : L * L = dx * dx + dz * dz).
  { unfold L. rewrite sqrt_sqrt by nra. ring. }
  unfold THREE.normalize, THREE.length, THREE.lengthSq. simpl. fold L.
  destruct (eqbP L 0) as [E|_]; [lra|].
  unfold THREE.divideScalar, THREE.multiplyScalar, THREE.lerp, dot. simpl.
  set (u := 1 / L).
  assert (Hu : (dx * dx + dz * dz) * u = L).
  { unfold u. rewrite <- HLsq. field. lra. }
  replace ((a + (dx * u * 2.2 - a) * 0.12) * dx
           + (vy + (0 * u * 2.2 - vy) * 0.12) * 0
           + (b + (dz * u * 2.2 - b) * 0.12) * dz)
    with (0.88 * (a * dx + b * dz) + 0.264 * ((dx * dx + dz * dz) * u)) by lra.
  rewrite Hu.
  assert (Hcs : (a * dx + b * dz) * (a * dx + b * dz) <= (a * a + b * b) * (L * L)).
  { rewrite HLsq. pose proof (Rle_0_sqr (a * dz - b * dx)) as Hs. unfold Rsqr in Hs. nra. }
  assert (Hab : a * a + b * b < 0.09) by nra.
  assert (Hlow : - (0.3 * L) < a * dx + b * dz).
  { destruct (Rlt_le_dec (- (0.3 * L)) (a * dx + b * dz)) as [H|H]; [exact H|exfalso].
    assert (0.09 * (L * L) <= (a * dx + b * dz) * (a * dx + b * dz)) by nra.
    assert ((a * a + b * b) * (L * L) < 0.09 * (L * L)) by (apply Rmult_lt_compat_r; nra).
    lra. }
  lra.
Qed.

Section AlertFacts.
Import PlayerStateTs.
Variable random : nat -> R.

Lemma Respawn_quiet_update f p rng c :
  RespawnSpec.roaming c ->
  ~ (fireActive (fire f) = true
     /\ (RespawnSpec.inFootBox p c
         \/ RespawnSpec.nearFireTarget (fire f) (RespawnSpec.moved random f p rng c))) ->
  fst (fst (ChickensRespawn.updateChicken random f p rng c)) = RespawnSpec.moved random f p rng c.
Proof.
  intros Hm Hq.
  rewrite Respawn_update_roam; [|exact Hm|].
  - cbn [fst]. unfold ChickensRespawn.fireCheck.
    destruct (fireActive (fire f)) eqn:Ha; [|reflexivity].
    destruct (ChickensRespawn.fireHit (fire f) _) eqn:E; [|reflexivity].
    exfalso. apply Hq. split; [reflexivity|]. right. apply Respawn_fireHit_iff. exact E.
  - destruct (fireActive (fire f)) eqn:Ha; [|reflexivity].
    destruct (ChickensRespawn.footFireHit p c) eqn:E; [|reflexivity].
    exfalso. apply Hq. split; [reflexivity|]. left. apply Respawn_footFireHit_iff. exact E.
Qed.

Lemma Fixed_quiet_update f p rng c :
  FixedSpec.roaming c ->
  ~ (fireActive (fire f) = true
     /\ FixedSpec.nearFireTarget (fire f) (FixedSpec.moved random f p rng c)) ->
  fst (fst (ChickensFixed.updateChicken random f p rng c)) = FixedSpec.moved random f p rng c.
Proof.
  intros Hm Hq.
  rewrite Fixed_update_roam by exact Hm.
  cbn [fst]. unfold ChickensFixed.fireCheck.
  destruct (fireActive (fire f)) eqn:Ha; [|reflexivity].
  destruct (ChickensFixed.fireHit (fire f) _) eqn:E; [|reflexivity].
  exfalso. apply Hq. split; [reflexivity|]. apply Fixed_fireHit_iff. exact E.
Qed.

Lemma Respawn_moved_alert f p rng c :
  let d := THREE.distanceTo (ChickensRespawn.position c) p in
  let c' := RespawnSpec.moved random f p rng c in
  (ChickensRespawn.alert c' = true <-> d < ChickensRespawn.ALERT_RADIUS)
  /\ (ChickensRespawn.mode c' = ChickensRespawn.chase <-> ChickensRespawn.alert c' = true)
  /\ (ChickensRespawn.mode c' = ChickensRespawn.wander <-> ChickensRespawn.alert c' = false).
Proof.
  intros d c'. destruct (Respawn_moved_fields random f p rng c) as [Ha [Hm _]].
  fold d in Ha, Hm. fold c' in Ha, Hm. rewrite Ha, Hm.
  destruct (ltbP d ChickensRespawn.ALERT_RADIUS);
    repeat split; intros; try reflexivity; try discriminate; try assumption; try contradiction.
Qed.

Lemma Fixed_moved_alert f p rng c :
  let d := THREE.distanceTo (ChickensFixed.position c) p in
  let c' := FixedSpec.moved random f p rng c in
  (ChickensFixed.alert c' = true <-> d < ChickensFixed.ALERT_RADIUS)
  /\ (ChickensFixed.mode c' = ChickensFixed.chase <-> ChickensFixed.alert c' = true)
  /\ (ChickensFixed.mode c' = ChickensFixed.wander <-> ChickensFixed.alert c' = false).
Proof.
  intros d c'. destruct (Fixed_moved_fields random f p rng c) as [Ha [Hm _]].
  fold d in Ha, Hm. fold c' in Ha, Hm. rewrite Ha, Hm.
  destruct (ltbP d ChickensFixed.ALERT_RADIUS);
    repeat split; intros; try reflexivity; try discriminate; try assumption; try contradiction.
Qed.

Lemma Respawn_moved_pull f p rng c :
  let flat := THREE.set_y 0 (THREE.sub p (ChickensRespawn.position c)) in
  THREE.distanceTo (ChickensRespawn.position c) p < ChickensRespawn.ALERT_RADIUS ->
  0.0001 < THREE.lengthSq flat ->
  pulledToward ChickensRespawn.CHASE_SPEED (ChickensRespawn.velocity c)
               (ChickensRespawn.velocity (RespawnSpec.moved random f p rng c)) flat.
Proof.
  intros flat Hd Hl.
  destruct (Respawn_moved_fields random f p rng c) as [_ [_ [_ Hv]]].
  assert (E : ChickensRespawn.velocity (RespawnSpec.moved random f p rng c)
              = THREE.lerp (ChickensRespawn.velocity c)
                           (THREE.multiplyScalar (THREE.normalize flat) ChickensRespawn.CHASE_SPEED) 0.12).
  { rewrite Hv, Respawn_steer_velocity_chase by exact Hd. cbv zeta. fold flat.
    rewrite gtb_true by exact Hl. reflexivity. }
  split; [exact E|]. intro Hslow. rewrite E. apply pull_positive; [reflexivity | exact Hl | exact Hslow].
Qed.

Lemma Fixed_moved_pull f p rng c :
  let flat := THREE.set_y 0 (THREE.sub p (ChickensFixed.position c)) in
  THREE.distanceTo (ChickensFixed.position c) p < ChickensFixed.ALERT_RADIUS ->
  0.0001 < THREE.lengthSq flat ->
  pulledToward ChickensFixed.CHASE_SPEED (ChickensFixed.velocity c)
               (ChickensFixed.velocity (FixedSpec.moved random f p rng c)) flat.
Proof.
  intros flat Hd Hl.
  destruct (Fixed_moved_fields random f p rng c) as [_ [_ [_ Hv]]].
  assert (E : ChickensFixed.velocity (FixedSpec.moved random f p rng c)
              = THREE.lerp (ChickensFixed.velocity c)
                           (THREE.multiplyScalar (THREE.normalize flat) ChickensFixed.CHASE_SPEED) 0.12).
  { rewrite Hv, Fixed_steer_velocity_chase by exact Hd. cbv zeta. fold flat.
    rewrite gtb_true by exact Hl. reflexivity. }
  split; [exact E|]. intro Hslow. rewrite E. apply pull_positive; [reflexivity | exact Hl | exact Hslow].
Qed.

End AlertFacts.

Lemma clamp_inside value min max :
  min <= value <= max -> THREE.MathUtils.clamp value min max = value.
Proof.
  intros [H1 H2]. unfold THREE.MathUtils.clamp.
  rewrite Rmin_right by exact H2. rewrite Rmax_right by exact H1. reflexivity.
Qed.

Section WanderFacts.
Variable random : nat -> R.

Lemma Respawn_steer_position f p d rng c :
  let c' := fst (ChickensRespawn.steer random f p d rng c) in
  ChickensRespawn.position c'
  = THREE.vec3
      (THREE.MathUtils.clamp
         (THREE.x (ChickensRespawn.position c) + THREE.x (ChickensRespawn.velocity c') * delta f)
         (- ChickensRespawn.AREA_X) ChickensRespawn.AREA_X)
      (ChickensRespawn.BASE_HEIGHT
       + sin (elapsedTime f * ChickensRespawn.HOP_SPEED + ChickensRespawn.hopOffset c)
         * ChickensRespawn.HOP_HEIGHT)
      (THREE.MathUtils.clamp
         (THREE.z (ChickensRespawn.position c) + THREE.z (ChickensRespawn.velocity c') * delta f)
         ChickensRespawn.AREA_Z_MIN ChickensRespawn.AREA_Z_MAX).
Proof.
  unfold ChickensRespawn.steer. cbv zeta.
  destruct (Num.leb _ 0); cbn [fst snd]; cbn; reflexivity.
Qed.

Lemma Respawn_steer_velocity_wander f p d rng c :
  ChickensRespawn.ALERT_RADIUS <= d ->
  0 < ChickensRespawn.wanderTimer c - delta f ->
  ChickensRespawn.velocity (fst (ChickensRespawn.steer random f p d rng c))
  = let heading := THREE.vec3 (sin (ChickensRespawn.wanderDir c)) 0
                              (cos (ChickensRespawn.wanderDir c)) in
    let dir := if Num.gtb (THREE.lengthSq heading) 0.0001
               then THREE.normalize heading else heading in
    THREE.lerp (ChickensRespawn.velocity c)
               (THREE.multiplyScalar dir ChickensRespawn.WANDER_SPEED) 0.12.
Proof.
  intros Hd Ht. unfold ChickensRespawn.steer. cbv zeta.
  cbn [ChickensRespawn.wanderTimer ChickensRespawn.set_wanderTimer ChickensRespawn.set_mode
       ChickensRespawn.set_alert].
  rewrite leb_false by exact Ht. cbn [fst snd]. cbn.
  rewrite (ltb_false Hd). reflexivity.
Qed.

End WanderFacts.

Lemma runaway_first :
  let c1 := fst (fst (ChickensRespawn.updateChicken Scenario.half Scenario.farFrame
                                                    Scenario.farPlayer 0 Scenario.runaway)) in
  ChickensRespawn.mode c1 = ChickensRespawn.wander
  /\ ChickensRespawn.position c1 = THREE.vec3 0 8.5 (-69.88)
  /\ ChickensRespawn.velocity c1 = THREE.vec3 0 0 1.2.
Proof.
  assert (Hd : THREE.distanceTo (ChickensRespawn.position Scenario.runaway) Scenario.farPlayer = 15).
  { rewrite distanceTo_axis_z by reflexivity. simpl. rewrite Rabs_right; lra. }
  cbv zeta. rewrite Respawn_quiet_update.
  2: { left. reflexivity. }
  2: { intros [Ha _]. discriminate Ha. }
  destruct (Respawn_moved_fields Scenario.half Scenario.farFrame Scenario.farPlayer 0
                                 Scenario.runaway) as [_ [Hm [_ Hv]]].
  destruct (Respawn_playerHit_fields Scenario.farFrame
              (THREE.distanceTo (ChickensRespawn.position Scenario.runaway) Scenario.farPlayer)
              (fst (ChickensRespawn.steer Scenario.half Scenario.farFrame Scenario.farPlayer
                      (THREE.distanceTo (ChickensRespawn.position Scenario.runaway) Scenario.farPlayer)
                      0 Scenario.runaway))) as [Hp _].
  fold (RespawnSpec.moved Scenario.half Scenario.farFrame Scenario.farPlayer 0 Scenario.runaway) in Hp.
  assert (Hvel : ChickensRespawn.velocity
                   (RespawnSpec.moved Scenario.half Scenario.farFrame Scenario.farPlayer 0
                                      Scenario.runaway) = THREE.vec3 0 0 1.2).
  { rewrite Hv, Hd. rewrite Respawn_steer_velocity_wander.
    2: unfold ChickensRespawn.ALERT_RADIUS; lra.
    2: simpl; lra.
    simpl ChickensRespawn.wanderDir. rewrite sin_0, cos_0. cbv zeta.
    assert (Hl : THREE.lengthSq (THREE.vec3 0 0 1) = 1) by (unfold THREE.lengthSq; simpl; lra).
    rewrite Hl. rewrite gtb_true by lra.
    unfold THREE.normalize, THREE.length. rewrite Hl, sqrt_1.
    destruct (eqbP 1 0) as [E|_]; [lra|].
    unfold THREE.divideScalar, THREE.multiplyScalar, THREE.lerp, ChickensRespawn.WANDER_SPEED.
    simpl. f_equal; lra. }
  split; [|split].
  - rewrite Hm, Hd. rewrite ltb_false; [reflexivity | unfold ChickensRespawn.ALERT_RADIUS; lra].
  - rewrite Hp, Hd. rewrite Respawn_steer_position.
    rewrite <- Hd, <- Hv, Hvel.
    unfold ChickensRespawn.AREA_X, ChickensRespawn.AREA_Z_MIN, ChickensRespawn.AREA_Z_MAX,
      ChickensRespawn.BASE_HEIGHT, ChickensRespawn.HOP_SPEED, ChickensRespawn.HOP_HEIGHT.
    simpl.
    replace (0 * 5.5 + 0) with 0 by lra. rewrite sin_0.
    rewrite !clamp_inside by lra. f_equal; lra.
  - exact Hvel.
Qed.

(** C8, as the code has it.  For a roaming creature and a frame in which no
    fire test captures it, the update sets [alert] exactly when the distance
    to the player, measured where the frame finds the creature, is below the
    alert radius, and sets the mode to chase exactly when alert, to wander
    otherwise.  Hence at distance alert radius + 1 the creature is in wander
    after the update, and at distance alert radius - 1 it is in chase; its
    velocity is then not turned toward the player at once but pulled 12% of
    the way toward chase speed times the horizontal unit direction to the
    player, which gives it a positive component toward the player whenever
    it was slower than 0.3 before.  Both engines with a fixed roster. *)
Theorem C8_alert_and_chase :
  forall random f p rng,
    (forall c,
        RespawnSpec.roaming c ->
        ~ (PlayerStateTs.fireActive (fire f) = true
           /\ (RespawnSpec.inFootBox p c
               \/ RespawnSpec.nearFireTarget (fire f) (RespawnSpec.moved random f p rng c))) ->
        let d := THREE.distanceTo (ChickensRespawn.position c) p in
        let flat := THREE.set_y 0 (THREE.sub p (ChickensRespawn.position c)) in
        let c' := fst (fst (ChickensRespawn.updateChicken random f p rng c)) in
        (ChickensRespawn.alert c' = true <-> d < ChickensRespawn.ALERT_RADIUS)
        /\ (ChickensRespawn.mode c' = ChickensRespawn.chase <-> ChickensRespawn.alert c' = true)
        /\ (ChickensRespawn.mode c' = ChickensRespawn.wander <-> ChickensRespawn.alert c' = false)
        /\ (d = ChickensRespawn.ALERT_RADIUS + 1 -> ChickensRespawn.mode c' = ChickensRespawn.wander)
        /\ (d = ChickensRespawn.ALERT_RADIUS - 1 ->
            ChickensRespawn.mode c' = ChickensRespawn.chase
            /\ (0.0001 < THREE.lengthSq flat ->
                pulledToward ChickensRespawn.CHASE_SPEED (ChickensRespawn.velocity c)
                             (ChickensRespawn.velocity c') flat)))
    /\ (forall c,
           FixedSpec.roaming c ->
           ~ (PlayerStateTs.fireActive (fire f) = true
              /\ FixedSpec.nearFireTarget (fire f) (FixedSpec.moved random f p rng c)) ->
           let d := THREE.distanceTo (ChickensFixed.position c) p in
           let flat := THREE.set_y 0 (THREE.sub p (ChickensFixed.position c)) in
           let c' := fst (fst (ChickensFixed.updateChicken random f p rng c)) in
           (ChickensFixed.alert c' = true <-> d < ChickensFixed.ALERT_RADIUS)
           /\ (ChickensFixed.mode c' = ChickensFixed.chase <-> ChickensFixed.alert c' = true)
           /\ (ChickensFixed.mode c' = ChickensFixed.wander <-> ChickensFixed.alert c' = false)
           /\ (d = ChickensFixed.ALERT_RADIUS + 1 -> ChickensFixed.mode c' = ChickensFixed.wander)
           /\ (d = ChickensFixed.ALERT_RADIUS - 1 ->
               ChickensFixed.mode c' = ChickensFixed.chase
               /\ (0.0001 < THREE.lengthSq flat ->
                   pulledToward ChickensFixed.CHASE_SPEED (ChickensFixed.velocity c)
                                (ChickensFixed.velocity c') flat))).
Proof.
  intros random f p rng. split.
  - intros c Hm Hq d flat c'. subst c'.
    rewrite Respawn_quiet_update by assumption.
    destruct (Respawn_moved_alert random f p rng c) as [Ha [Hc Hw]]. fold d in Ha.
    split; [exact Ha|]. split; [exact Hc|]. split; [exact Hw|]. split.
    + intro Hd. apply Hw.
      destruct (ChickensRespawn.alert _) eqn:E; [|reflexivity].
      assert (d < ChickensRespawn.ALERT_RADIUS) by (apply Ha; reflexivity). lra.
    + intro Hd.
      assert (Hlt : d < ChickensRespawn.ALERT_RADIUS) by lra.
      split.
      * apply Hc, Ha, Hlt.
      * intro Hl. apply Respawn_moved_pull; assumption.
  - intros c Hm Hq d flat c'. subst c'.
    rewrite Fixed_quiet_update by assumption.
    destruct (Fixed_moved_alert random f p rng c) as [Ha [Hc Hw]]. fold d in Ha.
    split; [exact Ha|]. split; [exact Hc|]. split; [exact Hw|]. split.
    + intro Hd. apply Hw.
      destruct (ChickensFixed.alert _) eqn:E; [|reflexivity].
      assert (d < ChickensFixed.ALERT_RADIUS) by (apply Ha; reflexivity). lra.
    + intro Hd.
      assert (Hlt : d < ChickensFixed.ALERT_RADIUS) by lra.
      split.
      * apply Hc, Ha, Hlt.
      * intro Hl. apply Fixed_moved_pull; assumption.
Qed.

Lemma C8_alert_and_chase_witness :
  ChickensRespawn.mode
    (fst (fst (ChickensRespawn.updateChicken Scenario.half Scenario.farFrame Scenario.farPlayer 0
                                             Scenario.runaway)))
  = ChickensRespawn.wander.
Proof.
  destruct (C8_alert_and_chase Scenario.half Scenario.farFrame Scenario.farPlayer 0) as [H _].
  assert (Hroam : RespawnSpec.roaming Scenario.runaway) by (left; reflexivity).
  assert (Hquiet : ~ (PlayerStateTs.fireActive (fire Scenario.farFrame) = true
                      /\ (RespawnSpec.inFootBox Scenario.farPlayer Scenario.runaway
                          \/ RespawnSpec.nearFireTarget (fire Scenario.farFrame)
                               (RespawnSpec.moved Scenario.half Scenario.farFrame
                                                  Scenario.farPlayer 0 Scenario.runaway)))).
  { intros [Ha _]. discriminate Ha. }
  destruct (H Scenario.runaway Hroam Hquiet) as [_ [_ [_ [Hfar _]]]].
  apply Hfar.
  rewrite distanceTo_axis_z by reflexivity. unfold ChickensRespawn.ALERT_RADIUS. simpl.
  rewrite Rabs_right; lra.
Defined.

(** C8 fails as stated: a creature that wanders away from the player at
    wander speed is, one unit outside the alert radius, in wander after one
    update; the player then steps to one unit inside the radius and the next
    update puts the creature in chase, but its velocity still points away
    from the player. *)
Lemma C8_counterexample :
  let c1 := fst (fst (ChickensRespawn.updateChicken Scenario.half Scenario.farFrame
                                                    Scenario.farPlayer 0 Scenario.runaway)) in
  let c2 := fst (fst (ChickensRespawn.updateChicken Scenario.half Scenario.nearFrame
                                                    Scenario.nearPlayer 0 c1)) in
  THREE.distanceTo (ChickensRespawn.position Scenario.runaway) Scenario.farPlayer
  = ChickensRespawn.ALERT_RADIUS + 1
  /\ ChickensRespawn.mode c1 = ChickensRespawn.wander
  /\ THREE.distanceTo (ChickensRespawn.position c1) Scenario.nearPlayer
     = ChickensRespawn.ALERT_RADIUS - 1
  /\ ChickensRespawn.mode c2 = ChickensRespawn.chase
  /\ dot (ChickensRespawn.velocity c2) (THREE.sub Scenario.nearPlayer (ChickensRespawn.position c1)) < 0.
Proof.
  destruct runaway_first as [Hm1 [Hp1 Hv1]]. cbv zeta.
  set (c1 := fst (fst (ChickensRespawn.updateChicken Scenario.half Scenario.farFrame
                                                     Scenario.farPlayer 0 Scenario.runaway))) in *.
  assert (Hd2 : THREE.distanceTo (ChickensRespawn.position c1) Scenario.nearPlayer = 13).
  { rewrite Hp1. rewrite distanceTo_axis_z by reflexivity. simpl. rewrite Rabs_right; lra. }
  assert (Hroam : RespawnSpec.roaming c1) by (left; exact Hm1).
  assert (Hquiet : ~ (PlayerStateTs.fireActive (fire Scenario.nearFrame) = true
                      /\ (RespawnSpec.inFootBox Scenario.nearPlayer c1
                          \/ RespawnSpec.nearFireTarget (fire Scenario.nearFrame)
                               (RespawnSpec.moved Scenario.half Scenario.nearFrame
                                                  Scenario.nearPlayer 0 c1)))).
  { intros [Ha _]. discriminate Ha. }
  split; [|split; [exact Hm1|split; [|split]]].
  - rewrite distanceTo_axis_z by reflexivity. unfold ChickensRespawn.ALERT_RADIUS. simpl.
    rewrite Rabs_right; lra.
  - rewrite Hd2. unfold ChickensRespawn.ALERT_RADIUS. lra.
  - rewrite Respawn_quiet_update by assumption.
    destruct (Respawn_moved_fields Scenario.half Scenario.nearFrame Scenario.nearPlayer 0 c1)
      as [_ [Hm _]].
    rewrite Hm, Hd2. rewrite ltb_true; [reflexivity | unfold ChickensRespawn.ALERT_RADIUS; lra].
  - rewrite Respawn_quiet_update by assumption.
    assert (Hflat : THREE.set_y 0 (THREE.sub Scenario.nearPlayer (ChickensRespawn.position c1))
                    = THREE.vec3 0 0 (-13)).
    { rewrite Hp1. unfold THREE.set_y, THREE.sub, Scenario.nearPlayer. simpl. f_equal; lra. }
    assert (Hl : THREE.lengthSq (THREE.vec3 0 0 (-13)) = 13 * 13)
      by (unfold THREE.lengthSq; simpl; lra).
    destruct (@Respawn_moved_pull Scenario.half Scenario.nearFrame Scenario.nearPlayer 0 c1)
      as [Hv _].
    + rewrite Hd2. unfold ChickensRespawn.ALERT_RADIUS. lra.
    + rewrite Hflat, Hl. lra.
    + rewrite Hv, Hflat, Hv1, Hp1.
      unfold THREE.normalize, THREE.length. rewrite Hl, sqrt_square by lra.
      destruct (eqbP 13 0) as [E|_]; [lra|].
      unfold THREE.divideScalar, THREE.multiplyScalar, THREE.lerp, THREE.sub, dot,
        ChickensRespawn.CHASE_SPEED, Scenario.nearPlayer.
      simpl. lra.
Qed.

(* ================================================================== *)
(** ** The log of a session *)



Section ForEachRange.
Variables C S E : Type.
Variable f : S -> C -> C * list E * S.



End ForEachRange.

(* ================================================================== *)
(** ** The cooldown of the bump against the player *)

Section FixedCooldown.
Import PlayerStateTs ChickensFixed.
Variable random : nat -> R.




End FixedCooldown.

Section RespawnCooldown.
Import PlayerStateTs ChickensRespawn RespawnSpec.
Variable random : nat -> R.





End RespawnCooldown.

Section RespawnCooldownTrace.
Import PlayerStateTs ChickensRespawn RespawnSpec.
Variable random : nat -> R.



End RespawnCooldownTrace.



(* ================================================================== *)
(** ** The engine that grows its roster *)

Section GrowFacts.
Import PlayerStateTs ChickensGrow GrowSpec.
Variable random : nat -> R.

Lemma Grow_steer_fields f p d rng c :
  let c' := fst (steer random f p d rng c) in
  alert c' = Num.ltb d ALERT_RADIUS
  /\ mode c' = (if Num.ltb d ALERT_RADIUS then chase else wander)
  /\ collected c' = collected c
  /\ drumTime c' = drumTime c
  /\ opacity c' = opacity c
  /\ hopOff c' = hopOff c
  /\ inArea (pos c')
  /\ pos c' = THREE.vec3
                (THREE.MathUtils.clamp (THREE.x (pos c) + THREE.x (vel c') * delta f)
                                       (- AREA_X) AREA_X)
                (BASE_HEIGHT + sin (elapsedTime f * HOP_SPEED + hopOff c) * HOP_HEIGHT)
                (THREE.MathUtils.clamp (THREE.z (pos c) + THREE.z (vel c') * delta f)
                                       AREA_Z_MIN AREA_Z_MAX).
Proof.
  unfold steer. cbv zeta.
  destruct (Num.leb _ 0); cbn [fst snd]; cbn;
    (repeat split; try reflexivity;
     try (apply clamp_bounds; unfold AREA_X, AREA_Z_MIN, AREA_Z_MAX; lra)).
Qed.

Lemma Grow_steer_timer f p d rng c :
  0 < timer c - delta f ->
  timer (fst (steer random f p d rng c)) = timer c - delta f
  /\ snd (steer random f p d rng c) = rng.
Proof.
  intro Ht. unfold steer. cbv zeta.
  cbn [timer set_timer set_mode set_alert].
  rewrite leb_false by exact Ht. cbn [fst snd]. split; reflexivity.
Qed.

Lemma Grow_steer_velocity_chase f p d rng c :
  d < ALERT_RADIUS ->
  vel (fst (steer random f p d rng c))
  = let flat := THREE.set_y 0 (THREE.sub p (pos c)) in
    let dirVec := if Num.gtb (THREE.lengthSq flat) 0.0001 then THREE.normalize flat else flat in
    THREE.lerp (vel c) (THREE.multiplyScalar dirVec CHASE_SPEED) 0.12.
Proof.
  intro Hd. unfold steer. cbv zeta.
  destruct (Num.leb _ 0); cbn [fst snd]; cbn; rewrite (ltb_true Hd); reflexivity.
Qed.

Lemma Grow_fireCheck_fields shared p c :
  let c' := fireCheck shared p c in
  pos c' = pos c /\ vel c' = vel c /\ collected c' = collected c /\ timer c' = timer c.
Proof.
  unfold fireCheck. destruct (fireActive shared); [|repeat split; reflexivity].
  cbv zeta. destruct (_ && _); [repeat split; reflexivity|].
  destruct (existsb _ _); repeat split; reflexivity.
Qed.

Lemma Grow_fireCheck_off shared p c : fireActive shared = false -> fireCheck shared p c = c.
Proof. intro H. unfold fireCheck. rewrite H. reflexivity. Qed.

Lemma Grow_collect_fields f p k c :
  let r := collect f p k c in
  pos (fst (fst r)) = pos c /\ vel (fst (fst r)) = vel c /\ mode (fst (fst r)) = mode c
  /\ timer (fst (fst r)) = timer c
  /\ rng (snd r) = rng k
  /\ filter (fun ev => event_eqb ev onPlayerHit) (snd (fst r)) = [].
Proof.
  unfold collect. destruct (_ && _); [|repeat split; reflexivity].
  cbv zeta. destruct (Num.ltb _ HIT_RADIUS); [|repeat split; reflexivity].
  cbn. destruct (canVibrate f); repeat split; reflexivity.
Qed.

Lemma Grow_collect_roaming f p k c :
  mode c <> drumstick -> collect f p k c = (c, [], k).
Proof.
  intro H. unfold collect. destruct (mode c); try contradiction; reflexivity.
Qed.

(** The two ways through the body of the loop. *)
Lemma Grow_update_drumstick f p k c :
  mode c = drumstick ->
  updateChick random f p k c
  = (fst (fst (collect f p k (fade f c))),
     snd (fst (collect f p k (fade f c))),
     snd (collect f p k (fade f c))).
Proof.
  intro H. unfold updateChick. rewrite H.
  destruct (collect f p k (fade f c)) as [[c' ev] k']. reflexivity.
Qed.

Lemma Grow_update_roam f p k c :
  mode c <> drumstick ->
  let d := THREE.distanceTo p (pos c) in
  let c1 := fireCheck (fire f) p (fst (steer random f p d (rng k) c)) in
  let k1 := {| rng := snd (steer random f p d (rng k) c);
               heartCount := heartCount k; heights := heights k |} in
  updateChick random f p k c
  = (fst (fst (collect f p k1 c1)),
     playerHit f d ++ snd (fst (collect f p k1 c1)),
     snd (collect f p k1 c1)).
Proof.
  intros H d c1 k1.
  assert (E : updateChick random f p k c =
              let '(c0, events, k0) :=
                let '(c0, rng') := steer random f p d (rng k) c in
                (fireCheck (fire f) p c0, playerHit f d,
                 {| rng := rng'; heartCount := heartCount k; heights := heights k |}) in
              let '(c2, events', k2) := collect f p k0 c0 in
              (c2, events ++ events', k2)).
  { unfold updateChick. destruct (mode c); try contradiction; reflexivity. }
  rewrite E. subst c1 k1.
  destruct (steer random f p d (rng k) c) as [c0 rng']. cbn [fst snd].
  destruct (collect f p _ _) as [[c2 ev] k2]. reflexivity.
Qed.



End GrowFacts.

Section GrowFrames.
Import PlayerStateTs ChickensGrow GrowSpec.
Variable random : nat -> R.

Lemma Grow_frame_eq f s :
  let roster := fst (fst (replenish random f s)) in
  let p := seenPlayer f s in
  useFrame random f s
  = ({| chickens := forEach_items (updateChick random f p) 0 (carry0 random f s) roster;
        respawnTimer := snd (fst (replenish random f s));
        heartCountRef := heartCount (forEach_state (updateChick random f p) 0 (carry0 random f s) roster);
        heartHeights := heights (forEach_state (updateChick random f p) 0 (carry0 random f s) roster);
        playerPos := p;
        cursor := rng (forEach_state (updateChick random f p) 0 (carry0 random f s) roster) |},
     forEach_events (updateChick random f p) 0 (carry0 random f s) roster).
Proof.
  cbv zeta. unfold useFrame, carry0, seenPlayer.
  destruct (replenish random f s) as [[roster timer'] cur]. reflexivity.
Qed.

Lemma Grow_replenish_cases f s :
  fst (fst (replenish random f s)) = chickens s
  \/ fst (fst (replenish random f s)) = chickens s ++ [newChick random (cursor s)].
Proof.
  unfold replenish. cbv zeta.
  destruct (_ <? _)%nat; [|left; reflexivity].
  destruct (Num.geb _ RESPAWN_DELAY); [right | left]; reflexivity.
Qed.

Lemma Grow_replenish_nth f s k c :
  nth_error (chickens s) k = Some c ->
  nth_error (fst (fst (replenish random f s))) k = Some c.
Proof.
  intro H. destruct (Grow_replenish_cases f s) as [E|E]; rewrite E; [exact H|].
  rewrite nth_error_app1; [exact H|]. apply nth_error_Some. rewrite H. discriminate.
Qed.

(** Creature [k] after a frame is the loop body applied to creature [k],
    and the callbacks logged under [k] are the body's. *)
Lemma Grow_frame_nth f s k c :
  nth_error (chickens s) k = Some c ->
  exists carry,
    nth_error (chickens (fst (useFrame random f s))) k
    = Some (fst (fst (updateChick random f (seenPlayer f s) carry c)))
    /\ eventsOf k (snd (useFrame random f s))
       = snd (fst (updateChick random f (seenPlayer f s) carry c)).
Proof.
  intro H. rewrite Grow_frame_eq. cbn [fst snd chickens].
  apply Grow_replenish_nth with (f := f) in H.
  destruct (forEach_nth (updateChick random f (seenPlayer f s)) 0 (carry0 random f s) _ k H)
    as [carry [H1 H2]].
  exists carry. split; [exact H1 | exact H2].
Qed.

Lemma Grow_run_cons s f fs :
  run random s (f :: fs)
  = (fst (run random (fst (useFrame random f s)) fs),
     map (pair (elapsedTime f)) (snd (useFrame random f s))
       ++ snd (run random (fst (useFrame random f s)) fs)).
Proof.
  simpl. destruct (useFrame random f s) as [s1 ev]. cbn [fst snd].
  destruct (run random s1 fs). reflexivity.
Qed.



End GrowFrames.

Lemma Grow_half_chick rng :
  ChickensGrow.pos (ChickensGrow.newChick Scenario.half rng) = THREE.vec3 0 8.5 (-72.5)
  /\ ChickensGrow.vel (ChickensGrow.newChick Scenario.half rng) = THREE.vec3 0 0 0
  /\ ChickensGrow.mode (ChickensGrow.newChick Scenario.half rng) = ChickensGrow.wander
  /\ ChickensGrow.timer (ChickensGrow.newChick Scenario.half rng) = 1.75
  /\ ChickensGrow.collected (ChickensGrow.newChick Scenario.half rng) = false.
Proof.
  unfold ChickensGrow.newChick, Scenario.half, THREE.MathUtils.lerp,
    ChickensGrow.AREA_X, ChickensGrow.AREA_Z_MIN, ChickensGrow.AREA_Z_MAX, ChickensGrow.BASE_HEIGHT.
  simpl. repeat split; try reflexivity; try lra. f_equal; lra.
Qed.


(* ================================================================== *)
(** ** From capture to respawn *)

Section RespawnTiming.
Import PlayerStateTs ChickensRespawn RespawnSpec.
Variable random : nat -> R.


Lemma duration_app fs1 fs2 : duration (fs1 ++ fs2) = duration fs1 + duration fs2.
Proof. induction fs1 as [|f fs1 IH]; simpl; [lra | rewrite IH; lra]. Qed.





End RespawnTiming.

Section RespawnTimingTrace.
Import PlayerStateTs ChickensRespawn RespawnSpec.
Variable random : nat -> R.









End RespawnTimingTrace.

Section RespawnLeftAlone.
Import PlayerStateTs ChickensRespawn RespawnSpec.
Variable random : nat -> R.





End RespawnLeftAlone.

Section FixedForever.
Import PlayerStateTs ChickensFixed FixedSpec.
Variable random : nat -> R.


End FixedForever.







(* ================================================================== *)
(** ** Frames without a player, and the length of the roster *)

Section GrowBlind.
Import PlayerStateTs ChickensGrow GrowSpec.
Variable random : nat -> R.

(** A frame that does not find the player runs exactly as if it had found
    the player at the last recorded position. *)
Lemma Grow_blind_frame f s :
  player f = None ->
  useFrame random f s = useFrame random (withPlayer (Some (playerPos s)) f) s.
Proof.
  intro H. unfold useFrame. rewrite H. reflexivity.
Qed.

Lemma Grow_update_timer f p k c :
  mode c <> drumstick -> 0 < timer c - delta f ->
  timer (fst (fst (updateChick random f p k c))) = timer c - delta f.
Proof.
  intros Hm Ht. rewrite Grow_update_roam by exact Hm. cbn [fst].
  match goal with |- context [collect f p ?k1 ?c1] =>
    destruct (Grow_collect_fields f p k1 c1) as [_ [_ [_ [Hc _]]]] end.
  rewrite Hc.
  match goal with |- context [fireCheck ?sh p ?c1] =>
    destruct (Grow_fireCheck_fields sh p c1) as [_ [_ [_ Hf]]] end.
  rewrite Hf. apply Grow_steer_timer. exact Ht.
Qed.


End GrowBlind.

(** C9, as the code has it.  When its reference is unavailable, the player
    controller and the two fixed-roster creature engines skip the frame and
    change nothing.  The engine that grows its roster skips only the read of
    the player's position: its frame runs in full against the last recorded
    position. *)
Theorem C9_missing_reference :
  forall random,
    (forall f shared s,
        Player.groupRef s = None ->
        Player.useFrame f shared s
        = {| Player.next := s; Player.published := shared; Player.onTrigger := [] |})
    /\ (forall f s, player f = None -> ChickensFixed.useFrame random f s = (s, []))
    /\ (forall f s, player f = None -> ChickensRespawn.useFrame random f s = (s, []))
    /\ (forall f s,
           player f = None ->
           ChickensGrow.useFrame random f s
           = ChickensGrow.useFrame random (withPlayer (Some (ChickensGrow.playerPos s)) f) s).
Proof.
  intro random. split; [|split; [|split]].
  - intros f shared s H. apply Player_skipped. exact H.
  - intros f s H. apply Fixed_skipped. exact H.
  - intros f s H. apply Respawn_skipped. exact H.
  - intros f s H. apply Grow_blind_frame. exact H.
Qed.

Lemma C9_missing_reference_witness :
  player Scenario.blindFrame = None
  /\ ChickensRespawn.useFrame Scenario.half Scenario.blindFrame Scenario.torched
     = (Scenario.torched, []).
Proof.
  split; [reflexivity|].
  destruct (C9_missing_reference Scenario.half) as [_ [_ [H _]]].
  apply H. reflexivity.
Defined.

(** C9 fails as stated on the engine that grows its roster: in a frame whose
    lookup of the player group yields nothing, the wander timer of creature 0
    still runs down, from 1.75 to 1.65. *)
Lemma C9_counterexample :
  let s := ChickensGrow.initial Scenario.half in
  let s' := fst (ChickensGrow.useFrame Scenario.half Scenario.blindFrame s) in
  player Scenario.blindFrame = None
  /\ option_map ChickensGrow.timer (nth_error (ChickensGrow.chickens s) 0) = Some 1.75
  /\ option_map ChickensGrow.timer (nth_error (ChickensGrow.chickens s') 0) = Some 1.65
  /\ s' <> s.
Proof.
  cbv zeta.
  set (s := ChickensGrow.initial Scenario.half).
  set (c0 := ChickensGrow.newChick Scenario.half (5 * 0)).
  assert (Hn0 : nth_error (ChickensGrow.chickens s) 0 = Some c0) by reflexivity.
  destruct (Grow_half_chick (5 * 0)) as [_ [_ [Hm0 [Ht0 _]]]]. fold c0 in Hm0, Ht0.
  destruct (Grow_frame_nth Scenario.half Scenario.blindFrame s 0 Hn0) as [k1 [Hn1 _]].
  assert (Ht1 : ChickensGrow.timer
                  (fst (fst (ChickensGrow.updateChick Scenario.half Scenario.blindFrame
                               (GrowSpec.seenPlayer Scenario.blindFrame s) k1 c0))) = 1.65).
  { rewrite Grow_update_timer.
    - rewrite Ht0. simpl. lra.
    - rewrite Hm0. discriminate.
    - rewrite Ht0. simpl. lra. }
  assert (H0 : option_map ChickensGrow.timer (nth_error (ChickensGrow.chickens s) 0) = Some 1.75).
  { rewrite Hn0. simpl. f_equal. exact Ht0. }
  assert (H1 : option_map ChickensGrow.timer
                 (nth_error (ChickensGrow.chickens
                               (fst (ChickensGrow.useFrame Scenario.half Scenario.blindFrame s))) 0)
               = Some 1.65).
  { rewrite Hn1. simpl. f_equal. exact Ht1. }
  split; [reflexivity|]. split; [exact H0|]. split; [exact H1|].
  intro E. rewrite E, H0 in H1. inversion H1. lra.
Qed.


(* ================================================================== *)
(** ** The population of the growing roster *)

Section ForEachRelated.
Variables C S E : Type.
Variable f : S -> C -> C * list E * S.

Lemma forEach_Forall2 (P : C -> Prop) (R : C -> C -> Prop) i s cs :
  (forall s0 c, P c -> R c (fst (fst (f s0 c)))) ->
  Forall P cs -> Forall2 R cs (forEach_items f i s cs).
Proof.
  intros H HP. revert i s. induction HP as [|c cs Hc Hcs IH]; intros i s.
  - constructor.
  - unfold forEach_items. rewrite forEach_cons. simpl. constructor.
    + apply H, Hc.
    + apply IH.
Qed.
End ForEachRelated.

Section GrowPopulation.
Import PlayerStateTs ChickensGrow GrowSpec.
Variable random : nat -> R.

Lemma Grow_live_not_collected c : live c = negb (isCollected c).
Proof.
  unfold live, isCollected. destruct (mode_eqb (mode c) drumstick), (collected c); reflexivity.
Qed.

Lemma Grow_count_split roster :
  (count live roster + count isCollected roster = List.length roster)%nat.
Proof.
  unfold count. induction roster as [|c cs IH]; [reflexivity|].
  simpl. rewrite Grow_live_not_collected. destruct (isCollected c); simpl; lia.
Qed.

Lemma Grow_count_app test (xs ys : list Chick) :
  count test (xs ++ ys) = (count test xs + count test ys)%nat.
Proof. unfold count. rewrite filter_app, length_app. reflexivity. Qed.

Lemma Grow_count_mono (test : Chick -> bool) xs ys :
  Forall2 (fun c c' => test c = true -> test c' = true) xs ys ->
  (count test xs <= count test ys)%nat.
Proof.
  unfold count. induction 1 as [|c c' cs cs' Hc _ IH]; [simpl; lia|].
  simpl. destruct (test c); [rewrite (Hc eq_refl)|destruct (test c')]; simpl; lia.
Qed.


(** The mark [collected] is only ever put on drumsticks, and stays. *)
Lemma Grow_update_marks f p k c :
  wellMarked c ->
  let c' := fst (fst (updateChick random f p k c)) in
  wellMarked c' /\ (isCollected c = true -> isCollected c' = true).
Proof.
  intros Hw c'. subst c'. unfold wellMarked, isCollected in *.
  assert (Hroaming : mode c <> drumstick ->
            (collected (fst (fst (updateChick random f p k c))) = true ->
             mode (fst (fst (updateChick random f p k c))) = drumstick)
            /\ (mode_eqb (mode c) drumstick && collected c = true ->
                mode_eqb (mode (fst (fst (updateChick random f p k c)))) drumstick
                && collected (fst (fst (updateChick random f p k c))) = true)).
  { intro Hroam.
    assert (Hc : collected c = false).
    { destruct (collected c); [specialize (Hw eq_refl); congruence | reflexivity]. }
    split.
    2: { rewrite Hc, andb_false_r. discriminate. }
    rewrite Grow_update_roam by exact Hroam. cbn [fst].
    set (c1 := fireCheck (fire f) p (fst (steer random f p (THREE.distanceTo p (pos c)) (rng k) c))).
    assert (Hc1 : collected c1 = false).
    { subst c1.
      destruct (Grow_fireCheck_fields (fire f) p
                  (fst (steer random f p (THREE.distanceTo p (pos c)) (rng k) c)))
        as [_ [_ [Hfc _]]].
      destruct (Grow_steer_fields random f p (THREE.distanceTo p (pos c)) (rng k) c)
        as [_ [_ [Hsc _]]].
      rewrite Hfc, Hsc. exact Hc. }
    unfold collect. rewrite Hc1. cbn [negb].
    destruct (mode c1) eqn:Hm1; cbn [mode_eqb andb fst].
    - rewrite Hc1. discriminate.
    - rewrite Hc1. discriminate.
    - destruct (Num.ltb _ HIT_RADIUS); cbn [fst].
      + cbn. intros _. exact Hm1.
      + rewrite Hc1. discriminate. }
  destruct (mode c) eqn:Hm.
  - apply Hroaming. discriminate.
  - apply Hroaming. discriminate.
  - rewrite Grow_update_drumstick by exact Hm. cbn [fst].
    unfold collect, fade.
    destruct (collected c) eqn:Hc; cbn [negb mode collected set_vel set_opacity set_drumTime];
      rewrite Hm; cbn [mode_eqb andb negb].
    + rewrite ?Hc. cbn. rewrite Hm, Hc. split; auto.
    + rewrite ?Hc. cbn [negb andb].
      destruct (Num.ltb _ HIT_RADIUS); cbn; rewrite ?Hm, ?Hc; split; auto; discriminate.
Qed.

Lemma Grow_newChick_marks n : wellMarked (newChick random n) /\ isCollected (newChick random n) = false.
Proof. split; [intro H; discriminate | reflexivity]. Qed.

(** The replenishing step, case by case. *)
Lemma Grow_replenish_spec f s :
  ((count live (chickens s) < CHICKEN_COUNT)%nat ->
   RESPAWN_DELAY <= respawnTimer s + delta f ->
   replenish random f s = (chickens s ++ [newChick random (cursor s)], 0, (cursor s + 5)%nat))
  /\ ((count live (chickens s) < CHICKEN_COUNT)%nat ->
      respawnTimer s + delta f < RESPAWN_DELAY ->
      replenish random f s = (chickens s, respawnTimer s + delta f, cursor s))
  /\ ((CHICKEN_COUNT <= count live (chickens s))%nat ->
      replenish random f s = (chickens s, 0, cursor s)).
Proof.
  unfold replenish, count. cbv zeta.
  destruct (Nat.ltb_spec (List.length (filter live (chickens s))) CHICKEN_COUNT) as [Hlt|Hge].
  - split; [|split]; intros H1; try lia.
    + intro H2. rewrite geb_true by exact H2. reflexivity.
    + intro H2. rewrite geb_false by exact H2. reflexivity.
  - split; [|split]; intros H1; try lia. reflexivity.
Qed.

Lemma Grow_frame_bounded f s : bounded s -> bounded (fst (useFrame random f s)).
Proof.
  intros [Hlen Hmarks]. unfold bounded.
  rewrite Grow_frame_eq. cbn [fst chickens].
  set (roster := fst (fst (replenish random f s))).
  assert (Hroster : (List.length roster <= CHICKEN_COUNT + count isCollected roster)%nat
                    /\ Forall wellMarked roster).
  { subst roster. destruct (Grow_replenish_spec f s) as [Hpush [Hwait Hfull]].
    pose proof (Grow_count_split (chickens s)) as Hsplit.
    destruct (Nat.lt_ge_cases (count live (chickens s)) CHICKEN_COUNT) as [Hlt|Hge].
    - destruct (Rlt_le_dec (respawnTimer s + delta f) RESPAWN_DELAY) as [Hw|Hp].
      + rewrite (Hwait Hlt Hw). cbn [fst]. split; assumption.
      + rewrite (Hpush Hlt Hp). cbn [fst]. split.
        * rewrite length_app, Grow_count_app. cbn [List.length].
          assert (count isCollected [newChick random (cursor s)] = 0%nat) by reflexivity.
          lia.
        * apply Forall_app. split; [exact Hmarks|]. constructor; [|constructor].
          apply Grow_newChick_marks.
    - rewrite (Hfull Hge). cbn [fst]. split; assumption. }
  destruct Hroster as [Hrlen Hrmarks].
  pose proof (@forEach_Forall2 _ _ _ (updateChick random f (seenPlayer f s)) wellMarked
                (fun c c' => wellMarked c' /\ (isCollected c = true -> isCollected c' = true))
                0%nat (carry0 random f s) roster
                (fun k c Hw => Grow_update_marks f (seenPlayer f s) k Hw) Hrmarks) as Hrel.
  split.
  - rewrite forEach_length.
    assert (count isCollected roster
            <= count isCollected (forEach_items (updateChick random f (seenPlayer f s)) 0
                                                (carry0 random f s) roster))%nat.
    { apply Grow_count_mono. eapply Forall2_impl; [|exact Hrel].
      intros c c' [_ H]. exact H. }
    lia.
  - clear - Hrel. induction Hrel as [|c c' cs cs' [Hc _] _ IH]; constructor; assumption.
Qed.

Lemma Grow_initial_bounded : bounded (initial random).
Proof.
  unfold bounded. split.
  - simpl. lia.
  - apply Forall_forall. intros c Hin. unfold initial, createInitialChicks in Hin.
    cbn [chickens] in Hin. apply in_map_iff in Hin. destruct Hin as [i [Hc _]]. subst c.
    apply Grow_newChick_marks.
Qed.


End GrowPopulation.

Section GrowUndisturbed.
Import PlayerStateTs ChickensGrow GrowSpec.
Variable random : nat -> R.


Lemma Grow_all_live roster :
  Forall (fun c => collected c = false) roster -> count live roster = List.length roster.
Proof.
  unfold count. induction 1 as [|c cs Hc _ IH]; [reflexivity|].
  simpl. unfold live at 1. rewrite Hc, orb_true_r. simpl. rewrite IH. reflexivity.
Qed.



End GrowUndisturbed.






(* ================================================================== *)
(** ** The player controller: bounds, steps, triggers and fire *)

Section PlayerMore.
Import PlayerStateTs.

(** The horizontal position an unlocked frame moves to, before the height
    is set. *)
Lemma Player_unlocked_fields f shared s group :
  Player.isLocked f = false -> Player.groupRef s = Some group ->
  let r := Player.useFrame f shared s in
  let rot := Player.rotation_y group + Player.moveTurn f * Player.rotationSpeed in
  let p0 :=
    if Num.eqb (Player.moveForward f) 0 then Player.position s
    else Player.boundaries
           (THREE.addScaledVector (Player.position s)
              (THREE.applyAxisAngleUp (THREE.vec3 0 0 (-1)) rot)
              (Player.moveForward f * Player.speed)) in
  let firing := Player.fire (Player.input f) || Player.fireButtonState_pressed f in
  let intensity :=
    THREE.MathUtils.lerp (Player.fireIntensityRef s) (if firing then 1 else 0)
                         (if firing then 0.2 else 0.18) in
  Player.position (Player.next r) = THREE.set_y (Player.stairsY (THREE.z p0)) p0
  /\ (exists g, Player.groupRef (Player.next r) = Some g /\ Player.rotation_y g = rot)
  /\ Player.fireIntensityRef (Player.next r) = intensity
  /\ Player.fireRef_visible (Player.next r) = Num.gtb intensity 0.05
  /\ fireActive (Player.published r) = Num.gtb intensity 0.05
  /\ fireRadius (Player.published r) = Player.FIRE_HIT_RADIUS
  /\ fireCenters (Player.published r) =
       [ THREE.addScaledVector (Player.mouthWorld f) (Player.tmpForward f) 1.5;
         THREE.addScaledVector (Player.mouthWorld f) (Player.tmpForward f) 3;
         THREE.addScaledVector (Player.mouthWorld f) (Player.tmpForward f) Player.FIRE_VISUAL_LENGTH;
         THREE.add (THREE.addScaledVector (Player.mouthWorld f) (Player.tmpForward f) 2)
                   Player.FIRE_DROP_OFFSET ]
  /\ Player.onTrigger r = Player.triggers (Player.position (Player.next r)).
Proof.
  intros Hl Hg. unfold Player.useFrame. rewrite Hg, Hl. cbv zeta.
  rewrite andb_true_r. cbn [Player.next Player.published Player.onTrigger Player.position
    Player.groupRef Player.fireIntensityRef Player.fireRef_visible
    updatePlayerFireState fireActive fireRadius fireCenters].
  repeat split; try reflexivity.
  eexists. split; reflexivity.
Qed.

Lemma Player_locked_fields f shared s group :
  Player.isLocked f = true -> Player.groupRef s = Some group ->
  let r := Player.useFrame f shared s in
  Player.position (Player.next r) = Player.position s
  /\ Player.groupRef (Player.next r) = Some group
  /\ Player.fireIntensityRef (Player.next r) = Player.fireIntensityRef s
  /\ fireActive (Player.published r) = false
  /\ Player.onTrigger r = [].
Proof.
  intros Hl Hg. unfold Player.useFrame. rewrite Hg, Hl. cbn. repeat split.
Qed.

(** The four clamps of the movement boundaries, coordinate by coordinate. *)
Lemma boundaries_eq v :
  Player.boundaries v =
  THREE.vec3 (if Num.gtb (THREE.x v) 35 then 35
              else if Num.ltb (THREE.x v) (-35) then -35 else THREE.x v)
             (THREE.y v)
             (if Num.gtb (THREE.z v) 15 then 15
              else if Num.ltb (THREE.z v) (-125) then -125 else THREE.z v).
Proof.
  destruct v as [vx vy vz]. unfold Player.boundaries. cbv [THREE.x THREE.y THREE.z].
  destruct (gtbP vx 35) as [H1|H1].
  - cbv [THREE.x THREE.y THREE.z THREE.set_x]. rewrite (@ltb_false 35 (-35)) by lra.
    destruct (gtbP vz 15) as [H3|H3].
    + cbv [THREE.x THREE.y THREE.z THREE.set_z]. rewrite (@ltb_false 15 (-125)) by lra.
      reflexivity.
    + destruct (ltbP vz (-125)); reflexivity.
  - destruct (ltbP vx (-35)) as [H2|H2]; cbv [THREE.x THREE.y THREE.z THREE.set_x];
    (destruct (gtbP vz 15) as [H3|H3];
     [ cbv [THREE.x THREE.y THREE.z THREE.set_z];
       rewrite (@ltb_false 15 (-125)) by lra; reflexivity
     | destruct (ltbP vz (-125)); reflexivity ]).
Qed.

Lemma boundaries_inBounds v : PlayerSession.inBounds (Player.boundaries v).
Proof.
  rewrite boundaries_eq. unfold PlayerSession.inBounds. cbn [THREE.x THREE.z].
  destruct (gtbP (THREE.x v) 35); [|destruct (ltbP (THREE.x v) (-35))];
  (destruct (gtbP (THREE.z v) 15); [|destruct (ltbP (THREE.z v) (-125))]);
  unfold Rgt in *; lra.
Qed.

(** Clamping toward a box that holds the old point shortens both offsets. *)
Lemma boundaries_closer p v :
  PlayerSession.inBounds p ->
  Rabs (THREE.x (Player.boundaries v) - THREE.x p) <= Rabs (THREE.x v - THREE.x p)
  /\ Rabs (THREE.z (Player.boundaries v) - THREE.z p) <= Rabs (THREE.z v - THREE.z p).
Proof.
  rewrite boundaries_eq. unfold PlayerSession.inBounds. cbn [THREE.x THREE.z].
  intros [Hx Hz].
  destruct (gtbP (THREE.x v) 35); [|destruct (ltbP (THREE.x v) (-35))];
  (destruct (gtbP (THREE.z v) 15); [|destruct (ltbP (THREE.z v) (-125))]);
  unfold Rgt in *; split; unfold Rabs;
  repeat match goal with |- context [Rcase_abs ?e] => destruct (Rcase_abs e) end; lra.
Qed.

Lemma stairsY_range z : 0 <= Player.stairsY z <= Player.topY.
Proof.
  unfold Player.stairsY, Player.topY, Player.stairStartZ, Player.stairEndZ,
    THREE.MathUtils.lerp.
  destruct (ltbP z (-5)) as [H1|H1]; destruct (gtbP z (-25)) as [H2|H2];
  cbn [andb]; try destruct (lebP z (-25)) as [H3|H3]; unfold Rgt in *; lra.
Qed.

Lemma Player_frame_bounds f shared s :
  PlayerSession.inBounds (Player.position s) ->
  0 <= THREE.y (Player.position s) <= Player.topY ->
  let r := Player.useFrame f shared s in
  PlayerSession.inBounds (Player.position (Player.next r))
  /\ 0 <= THREE.y (Player.position (Player.next r)) <= Player.topY.
Proof.
  intros Hb Hy r. subst r.
  destruct (Player.groupRef s) as [group|] eqn:Hg.
  2:{ rewrite Player_skipped by assumption. cbn. split; assumption. }
  destruct (Player.isLocked f) eqn:Hl.
  { destruct (Player_locked_fields f shared s Hl Hg) as (Hp & _). rewrite Hp. split; assumption. }
  destruct (Player_unlocked_fields f shared s Hl Hg) as (Hp & _). rewrite Hp.
  set (p0 := if Num.eqb _ 0 then _ else _).
  assert (Hp0 : PlayerSession.inBounds p0).
  { subst p0. destruct (Num.eqb _ 0); [assumption | apply boundaries_inBounds]. }
  split.
  - unfold PlayerSession.inBounds in *. destruct p0; cbn in *. assumption.
  - destruct p0; cbn. apply stairsY_range.
Qed.

Lemma Player_run_bounds fs : forall shared s,
  PlayerSession.inBounds (Player.position s) ->
  0 <= THREE.y (Player.position s) <= Player.topY ->
  let r := PlayerSession.run shared s fs in
  PlayerSession.inBounds (Player.position (Player.next r))
  /\ 0 <= THREE.y (Player.position (Player.next r)) <= Player.topY.
Proof.
  induction fs as [|f fs IH]; intros shared s Hb Hy; cbn.
  - split; assumption.
  - destruct (Player_frame_bounds f shared s Hb Hy) as [Hb' Hy'].
    apply IH; assumption.
Qed.

End PlayerMore.

(** X1. The player never leaves the walkable rectangle: from a position
    with [-35 <= x <= 35], [-125 <= z <= 15] and height between 0 and 8, every
    sequence of frames (locked, unlocked or skipped, whatever the input) ends
    in such a position. *)
Theorem X1_player_stays_in_bounds :
  forall shared s fs,
    PlayerSession.inBounds (Player.position s) ->
    0 <= THREE.y (Player.position s) <= Player.topY ->
    PlayerSession.inBounds (Player.position (Player.next (PlayerSession.run shared s fs)))
    /\ 0 <= THREE.y (Player.position (Player.next (PlayerSession.run shared s fs)))
       <= Player.topY.
Proof.
  intros shared s fs Hb Hy. exact (Player_run_bounds fs shared s Hb Hy).
Qed.

Lemma X1_player_stays_in_bounds_witness :
  PlayerSession.inBounds
    (Player.position
       (Player.next (PlayerSession.run PlayerStateTs.playerActionState PlayerSession.mounted
                       [Scenario.walkingFrame; Scenario.walkingFrame])))
  /\ 0 <= THREE.y (Player.position
       (Player.next (PlayerSession.run PlayerStateTs.playerActionState PlayerSession.mounted
                       [Scenario.walkingFrame; Scenario.walkingFrame])))
     <= Player.topY.
Proof.
  apply X1_player_stays_in_bounds.
  - unfold PlayerSession.inBounds, PlayerSession.mounted. cbn. lra.
  - unfold PlayerSession.mounted, Player.topY. cbn. lra.
Defined.

Lemma hypot_le_scaled a b c d m :
  Rabs a <= Rabs c -> Rabs b <= Rabs d -> 0 <= m -> c * c + d * d = m * m ->
  THREE.hypot a b <= m.
Proof.
  intros Ha Hb Hm Hcd. unfold THREE.hypot.
  rewrite <- (sqrt_square m) by assumption.
  apply sqrt_le_1_alt. rewrite <- Hcd.
  assert (a * a <= c * c).
  { apply Rsqr_le_abs_1 in Ha. unfold Rsqr in Ha. exact Ha. }
  assert (b * b <= d * d).
  { apply Rsqr_le_abs_1 in Hb. unfold Rsqr in Hb. exact Hb. }
  lra.
Qed.

Lemma Player_step_length f shared s group :
  Player.isLocked f = false ->
  Player.groupRef s = Some group ->
  PlayerSession.inBounds (Player.position s) ->
  THREE.hypot
    (THREE.x (Player.position (Player.next (Player.useFrame f shared s)))
     - THREE.x (Player.position s))
    (THREE.z (Player.position (Player.next (Player.useFrame f shared s)))
     - THREE.z (Player.position s))
  <= Rabs (Player.moveForward f) * Player.speed.
Proof.
  intros Hl Hg Hb.
  destruct (Player_unlocked_fields f shared s Hl Hg) as (Hp & _). rewrite Hp. clear Hp.
  set (rot := Player.rotation_y group + Player.moveTurn f * Player.rotationSpeed).
  assert (Hm : 0 <= Rabs (Player.moveForward f) * Player.speed).
  { unfold Player.speed. pose proof (Rabs_pos (Player.moveForward f)). nra. }
  destruct (eqbP (Player.moveForward f) 0) as [H0|H0].
  - cbn [THREE.set_y THREE.x THREE.z].
    replace (THREE.x (Player.position s) - THREE.x (Player.position s)) with 0 by ring.
    replace (THREE.z (Player.position s) - THREE.z (Player.position s)) with 0 by ring.
    unfold THREE.hypot. replace (0 * 0 + 0 * 0) with 0 by ring. rewrite sqrt_0. exact Hm.
  - cbn [THREE.set_y THREE.x THREE.z].
    set (v := THREE.addScaledVector (Player.position s)
                (THREE.applyAxisAngleUp (THREE.vec3 0 0 (-1)) rot)
                (Player.moveForward f * Player.speed)).
    destruct (boundaries_closer v Hb) as [Hx Hz].
    apply hypot_le_scaled with (c := THREE.x v - THREE.x (Player.position s))
                               (d := THREE.z v - THREE.z (Player.position s));
      try assumption.
    subst v. unfold THREE.addScaledVector, THREE.applyAxisAngleUp. cbn [THREE.x THREE.y THREE.z].
    pose proof (sin2_cos2 rot) as Hsc. unfold Rsqr in Hsc.
    rewrite <- (Rabs_mult (Player.moveForward f) (Player.moveForward f)) || idtac.
    replace (Rabs (Player.moveForward f) * Player.speed * (Rabs (Player.moveForward f) * Player.speed))
      with ((Rabs (Player.moveForward f) * Rabs (Player.moveForward f)) * (Player.speed * Player.speed)) by ring.
    rewrite <- Rabs_mult. rewrite (Rabs_pos_eq (Player.moveForward f * Player.moveForward f))
      by (apply Rle_0_sqr).
    set (m := Player.moveForward f) in *. set (sp := Player.speed) in *.
    set (sn := sin rot) in *. set (cs := cos rot) in *.
    replace (THREE.x (Player.position s) + (0 * cs + -1 * sn) * (m * sp) - THREE.x (Player.position s))
      with (- sn * (m * sp)) by ring.
    replace (THREE.z (Player.position s) + (-1 * cs - 0 * sn) * (m * sp) - THREE.z (Player.position s))
      with (- cs * (m * sp)) by ring.
    replace (- sn * (m * sp) * (- sn * (m * sp)) + - cs * (m * sp) * (- cs * (m * sp)))
      with ((sn * sn + cs * cs) * (m * m * (sp * sp))) by ring.
    rewrite Hsc. ring.
Qed.

(** X2. One unlocked frame moves the player, horizontally, by at most
    [|moveForward| * speed]: the step is taken along the unit heading vector
    and the boundary clamps only shorten it (the old position being inside
    the walkable rectangle). *)
Theorem X2_player_step_length :
  forall f shared s group,
    Player.isLocked f = false ->
    Player.groupRef s = Some group ->
    PlayerSession.inBounds (Player.position s) ->
    THREE.hypot
      (THREE.x (Player.position (Player.next (Player.useFrame f shared s)))
       - THREE.x (Player.position s))
      (THREE.z (Player.position (Player.next (Player.useFrame f shared s)))
       - THREE.z (Player.position s))
    <= Rabs (Player.moveForward f) * Player.speed.
Proof.
  intros f shared s group Hl Hg Hb. exact (@Player_step_length f shared s group Hl Hg Hb).
Qed.

Lemma X2_player_step_length_witness :
  THREE.hypot
    (THREE.x (Player.position (Player.next
       (Player.useFrame Scenario.walkingFrame PlayerStateTs.playerActionState PlayerSession.mounted)))
     - THREE.x (Player.position PlayerSession.mounted))
    (THREE.z (Player.position (Player.next
       (Player.useFrame Scenario.walkingFrame PlayerStateTs.playerActionState PlayerSession.mounted)))
     - THREE.z (Player.position PlayerSession.mounted))
  <= Rabs (Player.moveForward Scenario.walkingFrame) * Player.speed.
Proof.
  apply (@X2_player_step_length Scenario.walkingFrame PlayerStateTs.playerActionState
           PlayerSession.mounted
           {| Player.rotation_y := 0; Player.group_position := THREE.vec3 0 0 0 |}).
  - reflexivity.
  - reflexivity.
  - unfold PlayerSession.inBounds, PlayerSession.mounted. cbn. lra.
Defined.

Lemma distanceTo_ge_x a b r :
  0 <= r -> r <= Rabs (THREE.x a - THREE.x b) -> r <= THREE.distanceTo a b.
Proof.
  intros Hr H. unfold THREE.distanceTo.
  rewrite <- (sqrt_square r) by assumption.
  apply sqrt_le_1; [nra | apply distanceToSquared_nonneg |].
  unfold THREE.distanceToSquared; cbv zeta.
  assert (r * r <= (THREE.x a - THREE.x b) * (THREE.x a - THREE.x b)).
  { revert H. unfold Rabs. destruct (Rcase_abs (THREE.x a - THREE.x b)); intro; nra. }
  pose proof (Rle_0_sqr (THREE.y a - THREE.y b)). pose proof (Rle_0_sqr (THREE.z a - THREE.z b)).
  unfold Rsqr in *. lra.
Qed.

Lemma checkTrigger_near_x pos target range :
  0 <= range -> Player.checkTrigger pos target range = true ->
  Rabs (THREE.x pos - THREE.x target) < range.
Proof.
  intros Hr H. unfold Player.checkTrigger in H.
  destruct (ltbP (THREE.distanceTo pos target) range) as [Hd|Hd]; [|discriminate].
  destruct (Rlt_le_dec (Rabs (THREE.x pos - THREE.x target)) range) as [Hlt|Hge]; [assumption|].
  pose proof (distanceTo_ge_x pos target Hr Hge). lra.
Qed.

Lemma triggers_at_most_one p : (List.length (Player.triggers p) <= 1)%nat.
Proof.
  unfold Player.triggers.
  destruct (Player.checkTrigger p Player.altarPos 12) eqn:Ha;
  destruct (Player.checkTrigger p Player.monumentPos 12) eqn:Hm;
  destruct (Player.checkTrigger p Player.debrisPos 12) eqn:Hd;
  cbn [app List.length]; try lia; exfalso;
  try (apply checkTrigger_near_x in Ha; [|lra]);
  try (apply checkTrigger_near_x in Hm; [|lra]);
  try (apply checkTrigger_near_x in Hd; [|lra]);
  unfold Player.altarPos, Player.monumentPos, Player.debrisPos in *;
  cbn [THREE.x] in *; unfold Rabs in *;
  repeat match goal with H : context [Rcase_abs ?e] |- _ => destruct (Rcase_abs e) end; lra.
Qed.

(** X3. A frame calls [onTrigger] at most once: the three trigger points
    are more than two trigger ranges apart, so no position is in range of two
    of them. *)
Theorem X3_at_most_one_trigger_per_frame :
  forall f shared s,
    (List.length (Player.onTrigger (Player.useFrame f shared s)) <= 1)%nat.
Proof.
  intros f shared s.
  destruct (Player.groupRef s) as [group|] eqn:Hg.
  2:{ rewrite Player_skipped by assumption. cbn. lia. }
  destruct (Player.isLocked f) eqn:Hl.
  - destruct (Player_locked_fields f shared s Hl Hg) as (_ & _ & _ & _ & Ht).
    rewrite Ht. cbn. lia.
  - destruct (Player_unlocked_fields f shared s Hl Hg) as (_ & _ & _ & _ & _ & _ & _ & Ht).
    rewrite Ht. apply triggers_at_most_one.
Qed.

Lemma hypot_ge_second a b : Rabs b <= THREE.hypot a b.
Proof.
  unfold THREE.hypot. rewrite <- sqrt_Rsqr_abs. apply sqrt_le_1_alt.
  unfold Rsqr. pose proof (Rle_0_sqr a). unfold Rsqr in *. lra.
Qed.

(** For a player standing at the height of the stairs function, the
    trigger test against a point of the platform is a test of horizontal
    distance. *)
Lemma checkTrigger_flat p tx tz :
  THREE.y p = Player.stairsY (THREE.z p) -> tz + 12 <= Player.stairEndZ ->
  (Player.checkTrigger p (THREE.vec3 tx Player.topY tz) 12 = true
   <-> THREE.hypot (THREE.x p - tx) (THREE.z p - tz) < 12).
Proof.
  intros Hy Htz. unfold Player.checkTrigger. split.
  - intro H. destruct (ltbP (THREE.distanceTo p (THREE.vec3 tx Player.topY tz)) 12) as [Hd|Hd];
      [|discriminate].
    eapply Rle_lt_trans; [|exact Hd].
    unfold THREE.hypot, THREE.distanceTo, THREE.distanceToSquared. cbv zeta.
    cbn [THREE.x THREE.y THREE.z]. apply sqrt_le_1_alt.
    pose proof (Rle_0_sqr (THREE.y p - Player.topY)). unfold Rsqr in *. lra.
  - intro H. apply ltb_true.
    pose proof (hypot_ge_second (THREE.x p - tx) (THREE.z p - tz)) as Hz.
    assert (Hzp : THREE.z p <= Player.stairEndZ).
    { revert Hz. unfold Rabs. destruct (Rcase_abs (THREE.z p - tz)); intro; lra. }
    rewrite (stairsY_platform Hzp) in Hy.
    unfold THREE.hypot in H. unfold THREE.distanceTo, THREE.distanceToSquared. cbv zeta.
    cbn [THREE.x THREE.y THREE.z]. rewrite Hy.
    replace ((THREE.x p - tx) * (THREE.x p - tx) + (Player.topY - Player.topY) * (Player.topY - Player.topY)
             + (THREE.z p - tz) * (THREE.z p - tz))
      with ((THREE.x p - tx) * (THREE.x p - tx) + (THREE.z p - tz) * (THREE.z p - tz)) by ring.
    exact H.
Qed.

Lemma triggers_In p url :
  In url (Player.triggers p) <->
  (Player.checkTrigger p Player.altarPos 12 = true
   /\ url = "https://www.zhenggdove.com/exhibition"%string)
  \/ (Player.checkTrigger p Player.monumentPos 12 = true
      /\ url = "https://www.zhenggdove.com/bio"%string)
  \/ (Player.checkTrigger p Player.debrisPos 12 = true
      /\ url = "https://www.zhenggdove.com/category/all-products"%string).
Proof.
  unfold Player.triggers. rewrite !in_app_iff.
  destruct (Player.checkTrigger p Player.altarPos 12);
  destruct (Player.checkTrigger p Player.monumentPos 12);
  destruct (Player.checkTrigger p Player.debrisPos 12); cbn [In];
  intuition (try discriminate; auto).
Qed.

(** X4. The trigger zones are three discs on the top platform.  After an
    unlocked frame, [onTrigger] is called with the exhibition, bio or
    products address exactly when the player's new position is horizontally
    closer than 12 to (0, -110), (-30, -105) or (30, -105) respectively; and
    whenever it is called the player stands at the platform height 8. *)
Theorem X4_trigger_zones :
  forall f shared s group,
    Player.isLocked f = false ->
    Player.groupRef s = Some group ->
    let r := Player.useFrame f shared s in
    let p := Player.position (Player.next r) in
    (In "https://www.zhenggdove.com/exhibition"%string (Player.onTrigger r)
     <-> THREE.hypot (THREE.x p - 0) (THREE.z p - -110) < 12)
    /\ (In "https://www.zhenggdove.com/bio"%string (Player.onTrigger r)
        <-> THREE.hypot (THREE.x p - -30) (THREE.z p - -105) < 12)
    /\ (In "https://www.zhenggdove.com/category/all-products"%string (Player.onTrigger r)
        <-> THREE.hypot (THREE.x p - 30) (THREE.z p - -105) < 12)
    /\ (Player.onTrigger r <> [] -> THREE.y p = Player.topY).
Proof.
  intros f shared s group Hl Hg r p.
  destruct (Player_unlocked_fields f shared s Hl Hg) as (Hp & _ & _ & _ & _ & _ & _ & Ht).
  fold r in Hp, Ht. fold p in Ht.
  assert (Hy : THREE.y p = Player.stairsY (THREE.z p)).
  { unfold p. rewrite Hp. destruct (if Num.eqb _ 0 then _ else _); reflexivity. }
  pose proof (@checkTrigger_flat p 0 (-110) Hy) as Ha.
  pose proof (@checkTrigger_flat p (-30) (-105) Hy) as Hm.
  pose proof (@checkTrigger_flat p 30 (-105) Hy) as Hd.
  unfold Player.stairEndZ in Ha, Hm, Hd.
  specialize (Ha ltac:(lra)). specialize (Hm ltac:(lra)). specialize (Hd ltac:(lra)).
  change (THREE.vec3 0 Player.topY (-110)) with Player.altarPos in Ha.
  change (THREE.vec3 (-30) Player.topY (-105)) with Player.monumentPos in Hm.
  change (THREE.vec3 30 Player.topY (-105)) with Player.debrisPos in Hd.
  rewrite Ht. repeat split.
  - intro H. apply triggers_In in H. apply Ha.
    destruct H as [[H _]|[[_ H]|[_ H]]]; [assumption | discriminate | discriminate].
  - intro H. apply triggers_In. left. split; [apply Ha; assumption | reflexivity].
  - intro H. apply triggers_In in H. apply Hm.
    destruct H as [[_ H]|[[H _]|[_ H]]]; [discriminate | assumption | discriminate].
  - intro H. apply triggers_In. right; left. split; [apply Hm; assumption | reflexivity].
  - intro H. apply triggers_In in H. apply Hd.
    destruct H as [[_ H]|[[_ H]|[H _]]]; [discriminate | discriminate | assumption].
  - intro H. apply triggers_In. right; right. split; [apply Hd; assumption | reflexivity].
  - intro Hne.
    assert (Hz : THREE.z p <= Player.stairEndZ).
    { destruct (Player.triggers p) as [|url rest] eqn:E; [contradiction|].
      assert (Hin : In url (Player.triggers p)) by (rewrite E; left; reflexivity).
      apply triggers_In in Hin.
      assert (Hnear : exists tz, tz <= -105 /\ Rabs (THREE.z p - tz) < 12).
      { destruct Hin as [[H _]|[[H _]|[H _]]].
        - exists (-110). split; [lra|]. apply Ha in H.
          eapply Rle_lt_trans; [apply hypot_ge_second | exact H].
        - exists (-105). split; [lra|]. apply Hm in H.
          eapply Rle_lt_trans; [apply hypot_ge_second | exact H].
        - exists (-105). split; [lra|]. apply Hd in H.
          eapply Rle_lt_trans; [apply hypot_ge_second | exact H]. }
      destruct Hnear as (tz & Htz & Hab). unfold Player.stairEndZ.
      revert Hab. unfold Rabs. destruct (Rcase_abs (THREE.z p - tz)); intro; lra. }
    rewrite Hy. apply stairsY_platform. exact Hz.
Qed.

(** One walking frame from in front of the altar ends 4.5 from the altar,
    on the platform, and calls [onTrigger] with the exhibition address. *)
Lemma walkingFrame_axes :
  Player.moveForward Scenario.walkingFrame = 1 - 0
  /\ Player.moveTurn Scenario.walkingFrame = 0 - 0.
Proof.
  unfold Player.moveForward, Player.moveTurn, Scenario.walkingFrame.
  cbn [Player.joystickState_x Player.joystickState_y Player.input Player.forward
       Player.backward Player.left Player.right].
  rewrite Rabs_R0. rewrite (@gtb_false 0 0.1) by lra. cbn [orb]. split; reflexivity.
Qed.

Lemma arrived_position :
  Player.position (Player.next Scenario.arrived) = THREE.vec3 0 8 (-105.5).
Proof.
  unfold Scenario.arrived.
  destruct (@Player_unlocked_fields Scenario.walkingFrame PlayerStateTs.playerActionState
              Scenario.atAltar Scenario.mountedGroup eq_refl eq_refl) as (Hp & _).
  rewrite Hp. clear Hp.
  destruct walkingFrame_axes as [Hf Ht]. rewrite Hf, Ht.
  destruct (eqbP (1 - 0) 0) as [E|_]; [lra|].
  assert (Hrot : Player.rotation_y Scenario.mountedGroup + (0 - 0) * Player.rotationSpeed = 0).
  { unfold Player.rotationSpeed. cbn. lra. }
  rewrite Hrot. unfold THREE.applyAxisAngleUp. rewrite cos_0, sin_0.
  rewrite boundaries_eq.
  unfold THREE.addScaledVector, Scenario.atAltar, Player.speed.
  cbn [Player.position THREE.x THREE.y THREE.z].
  rewrite gtb_false by lra. rewrite ltb_false by lra.
  rewrite gtb_false by lra. rewrite ltb_false by lra.
  unfold THREE.set_y. cbn [THREE.x THREE.y THREE.z].
  rewrite stairsY_platform by (unfold Player.stairEndZ; lra).
  unfold Player.topY. f_equal; lra.
Qed.

Lemma arrived_trigger :
  Player.onTrigger Scenario.arrived = ["https://www.zhenggdove.com/exhibition"%string].
Proof.
  pose proof arrived_position as Hpos. unfold Scenario.arrived in *.
  destruct (@Player_unlocked_fields Scenario.walkingFrame PlayerStateTs.playerActionState
              Scenario.atAltar Scenario.mountedGroup eq_refl eq_refl)
    as (_ & _ & _ & _ & _ & _ & _ & Ht).
  rewrite Ht, Hpos. unfold Player.triggers, Player.checkTrigger.
  rewrite ltb_true.
  2:{ apply distanceTo_lt_sq; [lra|]. unfold THREE.distanceToSquared, Player.altarPos. cbn. lra. }
  rewrite ltb_false.
  2:{ apply distanceTo_ge_sq; [lra|]. unfold THREE.distanceToSquared, Player.monumentPos. cbn. lra. }
  rewrite ltb_false.
  2:{ apply distanceTo_ge_sq; [lra|]. unfold THREE.distanceToSquared, Player.debrisPos. cbn. lra. }
  reflexivity.
Qed.

Lemma X4_trigger_zones_witness :
  Player.onTrigger Scenario.arrived = ["https://www.zhenggdove.com/exhibition"%string]
  /\ Player.position (Player.next Scenario.arrived) = THREE.vec3 0 8 (-105.5)
  /\ (In "https://www.zhenggdove.com/exhibition"%string (Player.onTrigger Scenario.arrived)
      <-> THREE.hypot (THREE.x (Player.position (Player.next Scenario.arrived)) - 0)
                      (THREE.z (Player.position (Player.next Scenario.arrived)) - -110) < 12)
  /\ (In "https://www.zhenggdove.com/bio"%string (Player.onTrigger Scenario.arrived)
      <-> THREE.hypot (THREE.x (Player.position (Player.next Scenario.arrived)) - -30)
                      (THREE.z (Player.position (Player.next Scenario.arrived)) - -105) < 12)
  /\ (In "https://www.zhenggdove.com/category/all-products"%string (Player.onTrigger Scenario.arrived)
      <-> THREE.hypot (THREE.x (Player.position (Player.next Scenario.arrived)) - 30)
                      (THREE.z (Player.position (Player.next Scenario.arrived)) - -105) < 12)
  /\ (Player.onTrigger Scenario.arrived <> []
      -> THREE.y (Player.position (Player.next Scenario.arrived)) = Player.topY).
Proof.
  split; [exact arrived_trigger|]. split; [exact arrived_position|].
  exact (@X4_trigger_zones Scenario.walkingFrame PlayerStateTs.playerActionState
           Scenario.atAltar Scenario.mountedGroup eq_refl eq_refl).
Defined.

Section PlayerFire.
Import PlayerStateTs.

Lemma Player_frame_intensity_range f shared s :
  0 <= Player.fireIntensityRef s <= 1 ->
  0 <= Player.fireIntensityRef (Player.next (Player.useFrame f shared s)) <= 1.
Proof.
  intro H.
  destruct (Player.groupRef s) as [group|] eqn:Hg.
  2:{ rewrite Player_skipped by assumption. exact H. }
  destruct (Player.isLocked f) eqn:Hl.
  - destruct (Player_locked_fields f shared s Hl Hg) as (_ & _ & Hi & _). rewrite Hi. exact H.
  - destruct (Player_unlocked_fields f shared s Hl Hg) as (_ & _ & Hi & _). rewrite Hi.
    unfold THREE.MathUtils.lerp.
    destruct (Player.fire (Player.input f) || Player.fireButtonState_pressed f); lra.
Qed.

Lemma Player_run_intensity_range fs : forall shared s,
  0 <= Player.fireIntensityRef s <= 1 ->
  0 <= Player.fireIntensityRef (Player.next (PlayerSession.run shared s fs)) <= 1.
Proof.
  induction fs as [|f fs IH]; intros shared s H; cbn.
  - exact H.
  - apply IH. apply Player_frame_intensity_range. exact H.
Qed.

(** The flame after frames without fire input: the intensity decays by the
    factor 0.82 per frame, and the published flag compares it with 0.05. *)
Lemma Player_idle_run fs : forall shared s group,
  Player.groupRef s = Some group ->
  Forall (fun f => PlayerSession.unlocked f /\ PlayerSession.idle f) fs ->
  let r := PlayerSession.run shared s fs in
  Player.fireIntensityRef (Player.next r) = Player.fireIntensityRef s * 0.82 ^ List.length fs
  /\ (exists g, Player.groupRef (Player.next r) = Some g)
  /\ (fs <> [] ->
      fireActive (Player.published r) = Num.gtb (Player.fireIntensityRef (Player.next r)) 0.05).
Proof.
  induction fs as [|f fs IH]; intros shared s group Hg Hall; cbn zeta.
  - cbn. split; [lra|]. split; [eauto | intro H; contradiction].
  - inversion Hall as [|f' fs' [Hl [Hk Hb]] Hrest]; subst.
    destruct (Player_unlocked_fields f shared s Hl Hg)
      as (_ & (g & Hg' & _) & Hi & _ & Ha & _).
    rewrite Hk, Hb in Hi, Ha. cbn [orb] in Hi, Ha.
    specialize (IH (Player.published (Player.useFrame f shared s))
                   (Player.next (Player.useFrame f shared s)) g Hg' Hrest).
    cbn zeta in IH. destruct IH as (IHi & IHg & IHa).
    cbn [PlayerSession.run Player.next Player.published List.length].
    split; [|split].
    + rewrite IHi, Hi. unfold THREE.MathUtils.lerp. simpl pow.
      set (p := 0.82 ^ List.length fs). nra.
    + exact IHg.
    + intros _. destruct fs as [|f2 fs2].
      * cbn [PlayerSession.run Player.next Player.published]. rewrite Ha, Hi. reflexivity.
      * apply IHa. discriminate.
Qed.

Lemma pow_082_16 : 0.82 ^ 16 < 0.05.
Proof. simpl pow. lra. Qed.

Lemma pow_082_15 : 0.05 < 0.82 ^ 15.
Proof. simpl pow. lra. Qed.

Lemma pow_082_le n : (16 <= n)%nat -> 0 < 0.82 ^ n < 0.05.
Proof.
  intro H. replace n with (16 + (n - 16))%nat by lia. rewrite pow_add.
  assert (0 < 0.82 ^ (n - 16) <= 1).
  { split; [apply pow_lt; lra|].
    rewrite <- (pow1 (n - 16)). apply pow_incr. lra. }
  pose proof pow_082_16. assert (0 < 0.82 ^ 16) by (apply pow_lt; lra). nra.
Qed.

End PlayerFire.

(** X5. The flame starts at once: in an unlocked frame with the fire key or
    the fire button held, whatever the (non-negative) intensity before, the
    published fire state is active with radius 2.4 and four targets, and the
    flame is shown. *)
Theorem X5_fire_starts_at_once :
  forall f shared s group,
    Player.isLocked f = false ->
    Player.groupRef s = Some group ->
    PlayerSession.firing f ->
    0 <= Player.fireIntensityRef s ->
    let r := Player.useFrame f shared s in
    PlayerStateTs.fireActive (Player.published r) = true
    /\ PlayerStateTs.fireRadius (Player.published r) = 2.4
    /\ List.length (PlayerStateTs.fireCenters (Player.published r)) = 4%nat
    /\ Player.fireRef_visible (Player.next r) = true.
Proof.
  intros f shared s group Hl Hg Hf Hi r.
  destruct (Player_unlocked_fields f shared s Hl Hg)
    as (_ & _ & _ & Hv & Ha & Hr & Hc & _).
  fold r in Hv, Ha, Hr, Hc.
  assert (Hfire : Player.fire (Player.input f) || Player.fireButtonState_pressed f = true).
  { destruct Hf as [H|H]; rewrite H; [reflexivity | apply orb_true_r]. }
  rewrite Hfire in Hv, Ha.
  assert (Hgt : Num.gtb (THREE.MathUtils.lerp (Player.fireIntensityRef s) 1 0.2) 0.05 = true).
  { apply gtb_true. unfold THREE.MathUtils.lerp. lra. }
  rewrite Hgt in Hv, Ha. rewrite Hc.
  split; [exact Ha|]. split; [rewrite Hr; reflexivity|]. split; [reflexivity | exact Hv].
Qed.

Lemma X5_fire_starts_at_once_witness :
  PlayerStateTs.fireActive
    (Player.published (Player.useFrame Scenario.fireFrame PlayerStateTs.playerActionState
                         PlayerSession.mounted)) = true
  /\ PlayerStateTs.fireRadius
       (Player.published (Player.useFrame Scenario.fireFrame PlayerStateTs.playerActionState
                            PlayerSession.mounted)) = 2.4
  /\ List.length (PlayerStateTs.fireCenters
       (Player.published (Player.useFrame Scenario.fireFrame PlayerStateTs.playerActionState
                            PlayerSession.mounted))) = 4%nat
  /\ Player.fireRef_visible
       (Player.next (Player.useFrame Scenario.fireFrame PlayerStateTs.playerActionState
                       PlayerSession.mounted)) = true.
Proof.
  apply (@X5_fire_starts_at_once Scenario.fireFrame PlayerStateTs.playerActionState
           PlayerSession.mounted Scenario.mountedGroup).
  - reflexivity.
  - reflexivity.
  - left. reflexivity.
  - cbn. lra.
Defined.

(** X6. The flame dies out within sixteen frames: after sixteen or more
    consecutive unlocked frames without fire input, from any intensity of at
    most 1, the published fire state is inactive. *)
Theorem X6_fire_dies_out :
  forall shared s group fs,
    Player.groupRef s = Some group ->
    Forall (fun f => PlayerSession.unlocked f /\ PlayerSession.idle f) fs ->
    Player.fireIntensityRef s <= 1 ->
    (16 <= List.length fs)%nat ->
    PlayerStateTs.fireActive (Player.published (PlayerSession.run shared s fs)) = false.
Proof.
  intros shared s group fs Hg Hall Hle Hn.
  destruct (Player_idle_run shared s Hg Hall) as (Hi & _ & Ha).
  rewrite Ha by (destruct fs; [cbn in Hn; lia | discriminate]).
  rewrite Hi. apply gtb_false.
  pose proof (pow_082_le Hn).
  destruct (Rle_lt_dec (Player.fireIntensityRef s) 0); nra.
Qed.

Lemma X6_fire_dies_out_witness :
  PlayerStateTs.fireActive
    (Player.published (PlayerSession.run PlayerStateTs.playerActionState Scenario.ablaze
                         (repeat Scenario.walkingFrame 16))) = false.
Proof.
  apply (@X6_fire_dies_out PlayerStateTs.playerActionState Scenario.ablaze
           Scenario.mountedGroup (repeat Scenario.walkingFrame 16)).
  - reflexivity.
  - apply Forall_forall. intros f Hf. apply repeat_spec in Hf. subst f.
    repeat split.
  - cbn. lra.
  - cbn. lia.
Defined.

(** X8. The flame outlasts the fire key: from full intensity, the published
    fire state is still active after each of the first fifteen unlocked
    frames without fire input. *)
Theorem X8_fire_afterglow :
  forall shared s group fs,
    Player.groupRef s = Some group ->
    Forall (fun f => PlayerSession.unlocked f /\ PlayerSession.idle f) fs ->
    Player.fireIntensityRef s = 1 ->
    (1 <= List.length fs <= 15)%nat ->
    PlayerStateTs.fireActive (Player.published (PlayerSession.run shared s fs)) = true.
Proof.
  intros shared s group fs Hg Hall H1 Hn.
  destruct (Player_idle_run shared s Hg Hall) as (Hi & _ & Ha).
  rewrite Ha by (destruct fs; [cbn in Hn; lia | discriminate]).
  rewrite Hi, H1. apply gtb_true.
  pose proof pow_082_15 as H15.
  replace 15%nat with (List.length fs + (15 - List.length fs))%nat in H15 by lia.
  rewrite pow_add in H15.
  assert (0 < 0.82 ^ (15 - List.length fs) <= 1).
  { split; [apply pow_lt; lra|].
    rewrite <- (pow1 (15 - List.length fs)). apply pow_incr. lra. }
  assert (0 < 0.82 ^ List.length fs) by (apply pow_lt; lra).
  nra.
Qed.

Lemma X8_fire_afterglow_witness :
  PlayerStateTs.fireActive
    (Player.published (PlayerSession.run PlayerStateTs.playerActionState Scenario.ablaze
                         (repeat Scenario.walkingFrame 15))) = true.
Proof.
  apply (@X8_fire_afterglow PlayerStateTs.playerActionState Scenario.ablaze
           Scenario.mountedGroup (repeat Scenario.walkingFrame 15)).
  - reflexivity.
  - apply Forall_forall. intros f Hf. apply repeat_spec in Hf. subst f.
    repeat split.
  - reflexivity.
  - cbn. lia.
Defined.

(** X7. The fire intensity stays between 0 and 1 over any sequence of
    frames, whatever the input. *)
Theorem X7_fire_intensity_range :
  forall shared s fs,
    0 <= Player.fireIntensityRef s <= 1 ->
    0 <= Player.fireIntensityRef (Player.next (PlayerSession.run shared s fs)) <= 1.
Proof.
  intros shared s fs H. exact (Player_run_intensity_range fs shared s H).
Qed.

Lemma X7_fire_intensity_range_witness :
  0 <= Player.fireIntensityRef
         (Player.next (PlayerSession.run PlayerStateTs.playerActionState PlayerSession.mounted
                         [Scenario.fireFrame; Scenario.walkingFrame])) <= 1.
Proof.
  apply X7_fire_intensity_range. cbn. lra.
Defined.

(* ================================================================== *)
(** ** The keyboard *)

Section KeyboardFacts.
Import UseInput InputSpec.

Lemma handleKey_table value code prev :
  handleKey value code prev =
  match boundTo code with
  | Some Forward => set_forward value prev
  | Some Backward => set_backward value prev
  | Some Left => set_left value prev
  | Some Right => set_right value prev
  | Some Fire => set_fire value prev
  | None => prev
  end.
Proof.
  unfold handleKey, boundTo, bindings, lookup.
  repeat match goal with
         | |- context [(code =? ?c)%string] => destruct (code =? c)%string
         end; reflexivity.
Qed.

Lemma dispatch_flag a s e :
  flag a (dispatch s e) = match writes a e with Some w => w | None => flag a s end.
Proof.
  destruct e as [code|code]; unfold dispatch, handleKeyDown, handleKeyUp, writes;
  rewrite handleKey_table; destruct (boundTo code) as [b|]; try reflexivity;
  destruct a, b; reflexivity.
Qed.

Lemma dispatch_joystick s e :
  joystickX (dispatch s e) = joystickX s /\ joystickY (dispatch s e) = joystickY s.
Proof.
  destruct e as [code|code]; unfold dispatch, handleKeyDown, handleKeyUp;
  rewrite handleKey_table; destruct (boundTo code) as [[]|]; split; reflexivity.
Qed.

Lemma dispatchAll_flag a es : forall s,
  flag a (dispatchAll es s) = lastWritten a (flag a s) es.
Proof.
  unfold dispatchAll, lastWritten.
  induction es as [|e es IH]; intro s; cbn [fold_left].
  - reflexivity.
  - rewrite IH. rewrite dispatch_flag. reflexivity.
Qed.

Lemma dispatchAll_joystick es : forall s,
  joystickX (dispatchAll es s) = joystickX s /\ joystickY (dispatchAll es s) = joystickY s.
Proof.
  unfold dispatchAll.
  induction es as [|e es IH]; intro s; cbn [fold_left].
  - split; reflexivity.
  - destruct (IH (dispatch s e)) as [Hx Hy]. destruct (dispatch_joystick s e) as [Hx' Hy'].
    split; congruence.
Qed.

End KeyboardFacts.

(** X9. After any sequence of key events, each of the five flags holds what
    the last event on one of its two keys wrote (true for a key press, false
    for a release), or its old value when the sequence has no such event;
    keys of other actions, unbound keys and the order of events on other keys
    do not matter, and the joystick fields are never touched. *)
Theorem X9_flag_follows_last_event :
  forall a es s,
    InputSpec.flag a (UseInput.dispatchAll es s)
    = InputSpec.lastWritten a (InputSpec.flag a s) es
    /\ UseInput.joystickX (UseInput.dispatchAll es s) = UseInput.joystickX s
    /\ UseInput.joystickY (UseInput.dispatchAll es s) = UseInput.joystickY s.
Proof.
  intros a es s. split.
  - apply dispatchAll_flag.
  - apply dispatchAll_joystick.
Qed.

(** X10. The two keys of an action share one flag: releasing either of them
    clears it, even while the other one is still held down. *)
Theorem X10_alias_release_clears_flag :
  forall a held released s,
    InputSpec.boundTo held = Some a ->
    InputSpec.boundTo released = Some a ->
    InputSpec.flag a
      (UseInput.handleKeyUp released
         (UseInput.handleKeyDown held (UseInput.handleKeyDown released s))) = false.
Proof.
  intros a held released s Hh Hr.
  change (UseInput.handleKeyUp released
            (UseInput.handleKeyDown held (UseInput.handleKeyDown released s)))
    with (UseInput.dispatchAll
            [UseInput.keydown released; UseInput.keydown held; UseInput.keyup released] s).
  rewrite dispatchAll_flag. unfold InputSpec.lastWritten. cbn [fold_left InputSpec.writes].
  rewrite Hh, Hr. destruct a; reflexivity.
Qed.

Lemma X10_alias_release_clears_flag_witness :
  InputSpec.flag InputSpec.Forward
    (UseInput.handleKeyUp "KeyW"
       (UseInput.handleKeyDown "ArrowUp" (UseInput.handleKeyDown "KeyW" UseInput.initial)))
  = false.
Proof.
  apply (@X10_alias_release_clears_flag InputSpec.Forward "ArrowUp" "KeyW" UseInput.initial).
  - reflexivity.
  - reflexivity.
Defined.

(* ================================================================== *)
(** ** [Math.atan2] and the virtual joystick *)

Lemma sqrt_ratio_pos x y :
  0 < x -> sqrt (1 + (y / x)²) = sqrt (x * x + y * y) / x.
Proof.
  intro Hx. unfold Rsqr.
  replace (1 + y / x * (y / x)) with ((x * x + y * y) / (x * x)) by (field; lra).
  rewrite sqrt_div by nra. rewrite sqrt_square by lra. reflexivity.
Qed.

Lemma sqrt_ratio_neg x y :
  x < 0 -> sqrt (1 + (y / x)²) = sqrt (x * x + y * y) / - x.
Proof.
  intro Hx. unfold Rsqr.
  replace (1 + y / x * (y / x)) with ((x * x + y * y) / (- x * - x)) by (field; lra).
  rewrite sqrt_div by nra. rewrite sqrt_square by lra. reflexivity.
Qed.

Lemma sqrt_sum_pos x y : x <> 0 \/ y <> 0 -> 0 < sqrt (x * x + y * y).
Proof.
  intro H. apply sqrt_lt_R0.
  pose proof (Rle_0_sqr x). pose proof (Rle_0_sqr y). unfold Rsqr in *.
  destruct H as [H|H].
  - assert (0 < x * x) by (destruct (Rtotal_order x 0) as [?|[?|?]]; [nra | contradiction | nra]).
    lra.
  - assert (0 < y * y) by (destruct (Rtotal_order y 0) as [?|[?|?]]; [nra | contradiction | nra]).
    lra.
Qed.

(** Away from the origin, [atan2 y x] is the angle of the point [(x, y)]. *)
Lemma atan2_cos_sin y x :
  x <> 0 \/ y <> 0 ->
  cos (JsMath.atan2 y x) = x / sqrt (x * x + y * y)
  /\ sin (JsMath.atan2 y x) = y / sqrt (x * x + y * y).
Proof.
  intro Hne. pose proof (sqrt_sum_pos Hne) as Hr.
  unfold JsMath.atan2.
  destruct (gtbP x 0) as [Hx|Hx].
  - unfold Rgt in Hx. rewrite cos_atan, sin_atan, (sqrt_ratio_pos y Hx).
    split; field; lra.
  - destruct (ltbP x 0) as [Hx'|Hx'].
    + destruct (Num.geb y 0).
      * rewrite cos_plus, sin_plus, cos_PI, sin_PI, cos_atan, sin_atan, (sqrt_ratio_neg y Hx').
        split; field; lra.
      * rewrite cos_minus, sin_minus, cos_PI, sin_PI, cos_atan, sin_atan, (sqrt_ratio_neg y Hx').
        split; field; lra.
    + assert (x = 0) by (unfold Rgt in Hx; lra). subst x.
      assert (Hy : y <> 0) by (destruct Hne; [lra | assumption]).
      replace (0 * 0 + y * y) with (y * y) in * by ring.
      destruct (gtbP y 0) as [Hy1|Hy1].
      * unfold Rgt in Hy1. rewrite cos_PI2, sin_PI2, sqrt_square by lra. split; field; lra.
      * assert (Hy2 : y < 0) by (unfold Rgt in Hy1; lra).
        rewrite (ltb_true Hy2). rewrite cos_neg, sin_neg, cos_PI2, sin_PI2.
        replace (y * y) with (- y * - y) by ring. rewrite sqrt_square by lra.
        split; field; lra.
Qed.

Section JoystickFacts.
Import UIOverlay UIOverlaySpec.

Lemma updateJoystick_fields baseRect touch s :
  0 < rect_width baseRect ->
  let dx := offsetX baseRect touch in
  let dy := offsetY baseRect touch in
  let maxDist := rect_width baseRect / 2 in
  let distance := sqrt (dx * dx + dy * dy) in
  let s' := updateJoystick (Some baseRect) touch s in
  touching s' = touching s
  /\ fireButtonState_pressed s' = fireButtonState_pressed s
  /\ (distance <= maxDist ->
      joystickState_x s' = dx / maxDist /\ joystickState_y s' = - (dy / maxDist))
  /\ (maxDist < distance ->
      joystickState_x s' = dx / distance /\ joystickState_y s' = - (dy / distance)).
Proof.
  intros Hw dx dy maxDist distance s'. subst s'. unfold updateJoystick.
  fold (offsetX baseRect touch) (offsetY baseRect touch). fold dx dy. cbv zeta.
  fold maxDist. fold distance.
  destruct (gtbP distance maxDist) as [Hd|Hd]; unfold Rgt in Hd;
  cbn [touching fireButtonState_pressed joystickState_x joystickState_y];
  (split; [reflexivity|]); (split; [reflexivity|]); split; intro H; try lra.
  - assert (Hne : dx <> 0 \/ dy <> 0).
    { destruct (Req_dec dx 0) as [Hx|Hx]; [|left; assumption].
      destruct (Req_dec dy 0) as [Hy|Hy]; [|right; assumption].
      exfalso. subst distance. rewrite Hx, Hy in Hd.
      replace (0 * 0 + 0 * 0) with 0 in Hd by ring. rewrite sqrt_0 in Hd.
      subst maxDist. lra. }
    destruct (atan2_cos_sin Hne) as [Hc Hs]. rewrite Hc, Hs. fold distance.
    assert (0 < maxDist) by (subst maxDist; lra).
    assert (0 < distance) by lra.
    split; field; lra.
Qed.

Lemma updateJoystick_inDisc baseRect touch s :
  0 < rect_width baseRect -> inDisc (updateJoystick (Some baseRect) touch s).
Proof.
  intro Hw. destruct (@updateJoystick_fields baseRect touch s Hw) as (_ & _ & Hin & Hout).
  set (dx := offsetX baseRect touch) in *. set (dy := offsetY baseRect touch) in *.
  set (maxDist := rect_width baseRect / 2) in *.
  set (distance := sqrt (dx * dx + dy * dy)) in *.
  assert (Hm : 0 < maxDist) by (subst maxDist; lra).
  assert (Hsq : distance * distance = dx * dx + dy * dy).
  { subst distance. apply sqrt_sqrt.
    pose proof (Rle_0_sqr dx). pose proof (Rle_0_sqr dy). unfold Rsqr in *. lra. }
  assert (Hd0 : 0 <= distance) by (subst distance; apply sqrt_pos).
  unfold inDisc.
  destruct (Rle_lt_dec distance maxDist) as [Hle|Hlt].
  - destruct (Hin Hle) as [Hx Hy]. rewrite Hx, Hy.
    replace (dx / maxDist * (dx / maxDist) + - (dy / maxDist) * - (dy / maxDist))
      with ((dx * dx + dy * dy) / (maxDist * maxDist)) by (field; lra).
    rewrite <- Hsq. apply Rmult_le_reg_r with (maxDist * maxDist); [nra|].
    replace (distance * distance / (maxDist * maxDist) * (maxDist * maxDist))
      with (distance * distance) by (field; lra).
    nra.
  - destruct (Hout Hlt) as [Hx Hy]. rewrite Hx, Hy.
    replace (dx / distance * (dx / distance) + - (dy / distance) * - (dy / distance))
      with ((dx * dx + dy * dy) / (distance * distance)) by (field; lra).
    rewrite <- Hsq. right. field. lra.
Qed.

Lemma handle_inDisc baseRef s g :
  laidOut baseRef -> inDisc s -> inDisc (handle baseRef s g).
Proof.
  intros Hb Hs. destruct g as [touch|touch| | |]; cbn [handle].
  - unfold handleTouchStart. destruct baseRef as [baseRect|].
    + apply updateJoystick_inDisc. exact Hb.
    + exact Hs.
  - unfold handleTouchMove. destruct (touching s); cbn [negb]; [|exact Hs].
    destruct baseRef as [baseRect|].
    + apply updateJoystick_inDisc. exact Hb.
    + exact Hs.
  - unfold inDisc, handleTouchEnd. cbn. lra.
  - exact Hs.
  - exact Hs.
Qed.

Lemma handleAll_inDisc baseRef gs : forall s,
  laidOut baseRef -> inDisc s -> inDisc (handleAll baseRef gs s).
Proof.
  unfold handleAll. induction gs as [|g gs IH]; intros s Hb Hs; cbn [fold_left].
  - exact Hs.
  - apply IH; [exact Hb|]. apply handle_inDisc; assumption.
Qed.

Lemma initial_inDisc : inDisc initial.
Proof. unfold inDisc, initial. cbn. lra. Qed.

Lemma inDisc_axes s :
  inDisc s -> Rabs (joystickState_x s) <= 1 /\ Rabs (joystickState_y s) <= 1.
Proof.
  unfold inDisc. intro H.
  pose proof (Rle_0_sqr (joystickState_x s)). pose proof (Rle_0_sqr (joystickState_y s)).
  unfold Rsqr in *.
  split; unfold Rabs;
  match goal with |- context [Rcase_abs ?e] => destruct (Rcase_abs e) end; nra.
Qed.

End JoystickFacts.

(** X11. The stick points at the finger.  With the joystick base laid out
    (positive width), a touch inside the base circle sets the stick to the
    touch offset divided by the radius, with the vertical axis flipped; a
    touch outside sets it to the unit vector toward the touch, vertical axis
    flipped. *)
Theorem X11_joystick_vector :
  forall baseRect touch s,
    0 < UIOverlay.rect_width baseRect ->
    let dx := UIOverlaySpec.offsetX baseRect touch in
    let dy := UIOverlaySpec.offsetY baseRect touch in
    let maxDist := UIOverlay.rect_width baseRect / 2 in
    let s' := UIOverlay.updateJoystick (Some baseRect) touch s in
    (sqrt (dx * dx + dy * dy) <= maxDist ->
     UIOverlay.joystickState_x s' = dx / maxDist
     /\ UIOverlay.joystickState_y s' = - (dy / maxDist))
    /\ (maxDist < sqrt (dx * dx + dy * dy) ->
        UIOverlay.joystickState_x s' = dx / sqrt (dx * dx + dy * dy)
        /\ UIOverlay.joystickState_y s' = - (dy / sqrt (dx * dx + dy * dy))).
Proof.
  intros baseRect touch s Hw dx dy maxDist s'.
  destruct (@updateJoystick_fields baseRect touch s Hw) as (_ & _ & Hin & Hout).
  split; assumption.
Qed.

Lemma X11_joystick_vector_witness :
  (sqrt (UIOverlaySpec.offsetX Scenario.base Scenario.farTouch
         * UIOverlaySpec.offsetX Scenario.base Scenario.farTouch
         + UIOverlaySpec.offsetY Scenario.base Scenario.farTouch
           * UIOverlaySpec.offsetY Scenario.base Scenario.farTouch)
   <= UIOverlay.rect_width Scenario.base / 2 ->
   UIOverlay.joystickState_x
     (UIOverlay.updateJoystick (Some Scenario.base) Scenario.farTouch UIOverlay.initial)
   = UIOverlaySpec.offsetX Scenario.base Scenario.farTouch
     / (UIOverlay.rect_width Scenario.base / 2)
   /\ UIOverlay.joystickState_y
        (UIOverlay.updateJoystick (Some Scenario.base) Scenario.farTouch UIOverlay.initial)
      = - (UIOverlaySpec.offsetY Scenario.base Scenario.farTouch
           / (UIOverlay.rect_width Scenario.base / 2)))
  /\ (UIOverlay.rect_width Scenario.base / 2
      < sqrt (UIOverlaySpec.offsetX Scenario.base Scenario.farTouch
              * UIOverlaySpec.offsetX Scenario.base Scenario.farTouch
              + UIOverlaySpec.offsetY Scenario.base Scenario.farTouch
                * UIOverlaySpec.offsetY Scenario.base Scenario.farTouch) ->
      UIOverlay.joystickState_x
        (UIOverlay.updateJoystick (Some Scenario.base) Scenario.farTouch UIOverlay.initial)
      = UIOverlaySpec.offsetX Scenario.base Scenario.farTouch
        / sqrt (UIOverlaySpec.offsetX Scenario.base Scenario.farTouch
                * UIOverlaySpec.offsetX Scenario.base Scenario.farTouch
                + UIOverlaySpec.offsetY Scenario.base Scenario.farTouch
                  * UIOverlaySpec.offsetY Scenario.base Scenario.farTouch)
      /\ UIOverlay.joystickState_y
           (UIOverlay.updateJoystick (Some Scenario.base) Scenario.farTouch UIOverlay.initial)
         = - (UIOverlaySpec.offsetY Scenario.base Scenario.farTouch
              / sqrt (UIOverlaySpec.offsetX Scenario.base Scenario.farTouch
                      * UIOverlaySpec.offsetX Scenario.base Scenario.farTouch
                      + UIOverlaySpec.offsetY Scenario.base Scenario.farTouch
                        * UIOverlaySpec.offsetY Scenario.base Scenario.farTouch))).
Proof.
  apply (@X11_joystick_vector Scenario.base Scenario.farTouch UIOverlay.initial).
  cbn. lra.
Defined.

(** X12. The stick never leaves the unit disc: whatever touches and button
    presses reach the overlay, and whether or not the joystick base is in the
    page, [joystickState.x^2 + joystickState.y^2 <= 1] holds after each of
    them (the base, when present, having a positive width). *)
Theorem X12_joystick_in_unit_disc :
  forall baseRef gs,
    UIOverlaySpec.laidOut baseRef ->
    UIOverlaySpec.inDisc (UIOverlay.handleAll baseRef gs UIOverlay.initial).
Proof.
  intros baseRef gs Hb. apply handleAll_inDisc; [exact Hb | apply initial_inDisc].
Qed.

Lemma X12_joystick_in_unit_disc_witness :
  UIOverlaySpec.inDisc
    (UIOverlay.handleAll (Some Scenario.base)
       [UIOverlay.touchStart Scenario.farTouch; UIOverlay.touchMove Scenario.farTouch]
       UIOverlay.initial).
Proof.
  apply X12_joystick_in_unit_disc. cbn. lra.
Defined.

Lemma Player_axes_bound f :
  Rabs (Player.joystickState_x f) <= 1 -> Rabs (Player.joystickState_y f) <= 1 ->
  Rabs (Player.moveForward f) <= 1 /\ Rabs (Player.moveTurn f) <= 1.
Proof.
  intros Hx Hy. unfold Player.moveForward, Player.moveTurn.
  destruct (Num.gtb (Rabs (Player.joystickState_y f)) 0.1
            || Num.gtb (Rabs (Player.joystickState_x f)) 0.1).
  - split; [exact Hy | rewrite Rabs_Ropp; exact Hx].
  - destruct (Player.forward (Player.input f)), (Player.backward (Player.input f)),
             (Player.left (Player.input f)), (Player.right (Player.input f));
    split; unfold Rabs;
    match goal with |- context [Rcase_abs ?e] => destruct (Rcase_abs e) end; lra.
Qed.

(** X13. The speed limit of the player.  Whatever keys are held and whatever
    touches have reached the joystick, an unlocked frame moves the player by
    at most [speed = 0.5] horizontally and turns it by at most
    [rotationSpeed = 0.05]. *)
Theorem X13_player_speed_limit :
  forall baseRef gestures keys time tmpForward mouthWorld shared s group,
    UIOverlaySpec.laidOut baseRef ->
    Player.groupRef s = Some group ->
    PlayerSession.inBounds (Player.position s) ->
    let f := PlayerSession.frame time keys
               (UIOverlay.handleAll baseRef gestures UIOverlay.initial)
               false tmpForward mouthWorld in
    let r := Player.useFrame f shared s in
    THREE.hypot (THREE.x (Player.position (Player.next r)) - THREE.x (Player.position s))
                (THREE.z (Player.position (Player.next r)) - THREE.z (Player.position s))
    <= Player.speed
    /\ exists g, Player.groupRef (Player.next r) = Some g
                 /\ Rabs (Player.rotation_y g - Player.rotation_y group) <= Player.rotationSpeed.
Proof.
  intros baseRef gestures keys time tmpForward mouthWorld shared s group Hb Hg Hin f r.
  pose proof (@handleAll_inDisc baseRef gestures UIOverlay.initial Hb initial_inDisc) as Hd.
  apply inDisc_axes in Hd. destruct Hd as [Hx Hy].
  destruct (@Player_axes_bound f Hx Hy) as [Hf Ht].
  assert (Hl : Player.isLocked f = false) by reflexivity.
  split.
  - eapply Rle_trans; [exact (@Player_step_length f shared s group Hl Hg Hin)|].
    unfold Player.speed. lra.
  - destruct (Player_unlocked_fields f shared s Hl Hg) as (_ & (g & Hg' & Hrot) & _).
    exists g. split; [exact Hg'|]. rewrite Hrot.
    replace (Player.rotation_y group + Player.moveTurn f * Player.rotationSpeed
             - Player.rotation_y group)
      with (Player.moveTurn f * Player.rotationSpeed) by ring.
    rewrite Rabs_mult. unfold Player.rotationSpeed.
    rewrite (Rabs_pos_eq 0.05) by lra. pose proof (Rabs_pos (Player.moveTurn f)). nra.
Qed.

Lemma X13_player_speed_limit_witness :
  THREE.hypot
    (THREE.x (Player.position (Player.next
       (Player.useFrame
          (PlayerSession.frame 1 UseInput.initial
             (UIOverlay.handleAll (Some Scenario.base)
                [UIOverlay.touchStart Scenario.farTouch] UIOverlay.initial)
             false (THREE.vec3 0 0 (-1)) (THREE.vec3 0 6.5 7.8))
          PlayerStateTs.playerActionState PlayerSession.mounted)))
     - THREE.x (Player.position PlayerSession.mounted))
    (THREE.z (Player.position (Player.next
       (Player.useFrame
          (PlayerSession.frame 1 UseInput.initial
             (UIOverlay.handleAll (Some Scenario.base)
                [UIOverlay.touchStart Scenario.farTouch] UIOverlay.initial)
             false (THREE.vec3 0 0 (-1)) (THREE.vec3 0 6.5 7.8))
          PlayerStateTs.playerActionState PlayerSession.mounted)))
     - THREE.z (Player.position PlayerSession.mounted))
  <= Player.speed
  /\ exists g,
      Player.groupRef (Player.next
        (Player.useFrame
           (PlayerSession.frame 1 UseInput.initial
              (UIOverlay.handleAll (Some Scenario.base)
                 [UIOverlay.touchStart Scenario.farTouch] UIOverlay.initial)
              false (THREE.vec3 0 0 (-1)) (THREE.vec3 0 6.5 7.8))
           PlayerStateTs.playerActionState PlayerSession.mounted)) = Some g
      /\ Rabs (Player.rotation_y g - Player.rotation_y Scenario.mountedGroup)
         <= Player.rotationSpeed.
Proof.
  apply (@X13_player_speed_limit (Some Scenario.base) [UIOverlay.touchStart Scenario.farTouch]
           UseInput.initial 1 (THREE.vec3 0 0 (-1)) (THREE.vec3 0 6.5 7.8)
           PlayerStateTs.playerActionState PlayerSession.mounted Scenario.mountedGroup).
  - cbn. lra.
  - reflexivity.
  - unfold PlayerSession.inBounds, PlayerSession.mounted. cbn. lra.
Defined.

(* ================================================================== *)
(** ** The stairs, the labels and the hit flash *)

Lemma stair_height i :
  (i < WorldEnvironment.stairCount)%nat ->
  Player.stairsY (THREE.z (WorldEnvironment.stairPosition i))
  = THREE.y (WorldEnvironment.stairPosition i).
Proof.
  intro Hi. unfold WorldEnvironment.stairPosition, WorldEnvironment.stairCount in *.
  cbn [THREE.y THREE.z]. unfold WorldEnvironment.stairHeight, WorldEnvironment.stairDepth.
  assert (Hr : 0 <= INR i <= 39).
  { split; [apply pos_INR|]. replace 39 with (INR 39) by (simpl; lra).
    apply le_INR. lia. }
  destruct (Req_dec (INR i) 0) as [H0|H0].
  - rewrite H0. rewrite stairsY_ground by (unfold Player.stairStartZ; lra). lra.
  - rewrite stairsY_inside by (unfold Player.stairStartZ, Player.stairEndZ; lra).
    unfold THREE.MathUtils.lerp, Player.topY, Player.stairStartZ, Player.stairEndZ. lra.
Qed.

(** X14. The player walks on the stairs that are drawn: at the depth of each
    of the forty stairs of the world, the height the player controller
    computes is the height at which that stair is placed. *)
Theorem X14_player_height_matches_stairs :
  forall p,
    In p WorldEnvironment.stairs ->
    Player.stairsY (THREE.z p) = THREE.y p.
Proof.
  intros p Hp. unfold WorldEnvironment.stairs in Hp.
  apply in_map_iff in Hp. destruct Hp as (i & Hi & Hin). subst p.
  apply in_seq in Hin. apply stair_height. lia.
Qed.

Lemma X14_player_height_matches_stairs_witness :
  Player.stairsY (THREE.z (WorldEnvironment.stairPosition 10))
  = THREE.y (WorldEnvironment.stairPosition 10).
Proof.
  apply (@X14_player_height_matches_stairs (WorldEnvironment.stairPosition 10)).
  unfold WorldEnvironment.stairs. apply in_map. apply in_seq.
  unfold WorldEnvironment.stairCount. lia.
Defined.

Section LabelFacts.
Import SceneTs SceneSpec.

Lemma targetOpacity_range position p : 0 <= targetOpacity position p <= 1.
Proof. unfold targetOpacity. cbv zeta. apply clamp_bounds. lra. Qed.

(** The flat distance that the label measures. *)
Lemma targetOpacity_cases position p :
  let dist := flatDistance position p in
  (dist <= 30 -> targetOpacity position p = 1)
  /\ (60 <= dist -> targetOpacity position p = 0)
  /\ (30 <= dist <= 60 -> targetOpacity position p = 2 - dist / 30).
Proof.
  intro dist. unfold targetOpacity. cbv zeta.
  assert (Hd : THREE.distanceTo (THREE.vec3 (THREE.x p) 0 (THREE.z p))
                 (THREE.vec3 (THREE.x position) 0 (THREE.z position)) = dist).
  { unfold dist, flatDistance, THREE.hypot, THREE.distanceTo, THREE.distanceToSquared. cbv zeta.
    cbn [THREE.x THREE.y THREE.z]. f_equal. ring. }
  rewrite Hd. unfold THREE.MathUtils.clamp.
  split; [|split]; intro H; unfold Rmin;
  (destruct (Rle_dec 1 (1 - (dist - 30) / 30)); unfold Rmax;
   match goal with |- context [Rle_dec ?a ?b] => destruct (Rle_dec a b) end; lra).
Qed.

Lemma labelFrame_range position f l :
  0 <= opacity l <= 1 -> 0 <= opacity (labelFrame position f l) <= 1.
Proof.
  intro H. unfold labelFrame. destruct (ref_position_y l); [|exact H].
  cbn [opacity]. destruct (playerGroup f) as [p|]; [|exact H].
  pose proof (targetOpacity_range position p). unfold THREE.MathUtils.lerp. nra.
Qed.

Lemma labelRun_range position fs : forall l,
  0 <= opacity l <= 1 -> 0 <= opacity (labelRun position fs l) <= 1.
Proof.
  unfold labelRun. induction fs as [|f fs IH]; intros l H; cbn [fold_left].
  - exact H.
  - apply IH. apply labelFrame_range. exact H.
Qed.

Lemma labelFrame_away position f l :
  playerAway position f -> 0 <= opacity l ->
  0 <= opacity (labelFrame position f l) <= opacity l.
Proof.
  intros Hf H. unfold labelFrame. destruct (ref_position_y l); [|lra].
  cbn [opacity]. unfold playerAway in Hf. destruct (playerGroup f) as [p|]; [|lra].
  destruct (targetOpacity_cases position p) as (_ & H0 & _). cbv zeta in H0.
  rewrite (H0 Hf). unfold THREE.MathUtils.lerp. lra.
Qed.

Lemma labelRun_away position fs : forall l,
  Forall (playerAway position) fs -> 0 <= opacity l ->
  0 <= opacity (labelRun position fs l) <= opacity l.
Proof.
  unfold labelRun. induction fs as [|f fs IH]; intros l Hall H; cbn [fold_left].
  - lra.
  - inversion Hall as [|f' fs' Hf Hrest]; subst.
    destruct (@labelFrame_away position f l Hf H) as [H1 H2].
    destruct (IH (labelFrame position f l) Hrest H1) as [H3 H4]. lra.
Qed.

End LabelFacts.

(** X15. The opacity of a label stays between 0 and 1 over any sequence of
    frames, wherever the player is and whether or not the player group or the
    label is mounted. *)
Theorem X15_label_opacity_range :
  forall position fs l,
    0 <= SceneTs.opacity l <= 1 ->
    0 <= SceneTs.opacity (SceneTs.labelRun position fs l) <= 1.
Proof.
  intros position fs l H. exact (@labelRun_range position fs l H).
Qed.

Lemma X15_label_opacity_range_witness :
  0 <= SceneTs.opacity
         (SceneTs.labelRun (THREE.vec3 0 30 (-110))
            [Scenario.altarFrame; Scenario.groundFrame] Scenario.hiddenLabel) <= 1.
Proof.
  apply X15_label_opacity_range. cbn. lra.
Defined.

(** X16. A label fades in only when the player comes closer than 60: over
    frames in which the player group is missing or horizontally at least 60
    away, the opacity never rises, so a label that is hidden stays hidden. *)
Theorem X16_label_hidden_while_far :
  forall position fs l,
    Forall (SceneSpec.playerAway position) fs ->
    0 <= SceneTs.opacity l ->
    SceneTs.opacity (SceneTs.labelRun position fs l) <= SceneTs.opacity l
    /\ (SceneTs.visible l = false ->
        SceneTs.visible (SceneTs.labelRun position fs l) = false).
Proof.
  intros position fs l Hall H0.
  destruct (@labelRun_away position fs l Hall H0) as [H1 H2].
  split; [exact H2|].
  unfold SceneTs.visible. intro Hv.
  destruct (gtbP (SceneTs.opacity l) 0.01) as [Hg|Hg]; [discriminate|].
  apply gtb_false. unfold Rgt in Hg. lra.
Qed.

Lemma X16_label_hidden_while_far_witness :
  SceneTs.opacity
    (SceneTs.labelRun (THREE.vec3 0 30 (-110)) [Scenario.groundFrame] Scenario.hiddenLabel)
  <= SceneTs.opacity Scenario.hiddenLabel
  /\ (SceneTs.visible Scenario.hiddenLabel = false ->
      SceneTs.visible
        (SceneTs.labelRun (THREE.vec3 0 30 (-110)) [Scenario.groundFrame] Scenario.hiddenLabel)
      = false).
Proof.
  apply (@X16_label_hidden_while_far (THREE.vec3 0 30 (-110)) [Scenario.groundFrame]
           Scenario.hiddenLabel).
  - constructor; [|constructor].
    unfold SceneSpec.playerAway, SceneSpec.flatDistance, Scenario.groundFrame, THREE.hypot.
    cbn [SceneTs.playerGroup THREE.x THREE.z].
    replace 60 with (sqrt (60 * 60)) by (apply sqrt_square; lra).
    apply sqrt_le_1_alt. lra.
  - cbn. lra.
Defined.

(** X17. A label shines when its trigger fires: whenever an unlocked frame
    of the player controller calls [onTrigger] with the exhibition, bio or
    products address, the label placed over that trigger point (Exhibition,
    CV, Things) fades toward full opacity for the new position of the player
    group. *)
Theorem X17_label_full_at_trigger :
  forall f shared s group g,
    Player.isLocked f = false ->
    Player.groupRef s = Some group ->
    Player.groupRef (Player.next (Player.useFrame f shared s)) = Some g ->
    (In "https://www.zhenggdove.com/exhibition"%string
        (Player.onTrigger (Player.useFrame f shared s)) ->
     In ("Exhibition"%string, THREE.vec3 0 30 (-110)) SceneTs.LABEL_DATA
     /\ SceneTs.targetOpacity (THREE.vec3 0 30 (-110)) (Player.group_position g) = 1)
    /\ (In "https://www.zhenggdove.com/bio"%string
           (Player.onTrigger (Player.useFrame f shared s)) ->
        In ("CV"%string, THREE.vec3 (-30) 27 (-105)) SceneTs.LABEL_DATA
        /\ SceneTs.targetOpacity (THREE.vec3 (-30) 27 (-105)) (Player.group_position g) = 1)
    /\ (In "https://www.zhenggdove.com/category/all-products"%string
           (Player.onTrigger (Player.useFrame f shared s)) ->
        In ("Things"%string, THREE.vec3 30 27 (-105)) SceneTs.LABEL_DATA
        /\ SceneTs.targetOpacity (THREE.vec3 30 27 (-105)) (Player.group_position g) = 1).
Proof.
  intros f shared s group g Hl Hg Hg'.
  destruct (Player_unlocked_fields f shared s Hl Hg) as (Hp & _ & _ & _ & _ & _ & _ & Ht).
  set (r := Player.useFrame f shared s) in *. set (p := Player.position (Player.next r)) in *.
  assert (Hxz : THREE.x (Player.group_position g) = THREE.x p
                /\ THREE.z (Player.group_position g) = THREE.z p).
  { revert Hg'. unfold p, r, Player.useFrame. rewrite Hg, Hl. cbv zeta.
    cbn [Player.next Player.groupRef Player.position]. intro E. injection E as E. subst g.
    unfold THREE.set_y. cbn [Player.group_position THREE.x THREE.z]. split; reflexivity. }
  destruct Hxz as [Hx Hz].
  assert (Hy : THREE.y p = Player.stairsY (THREE.z p)).
  { rewrite Hp. destruct (if Num.eqb _ 0 then _ else _); reflexivity. }
  assert (Hnear : forall tx ty tz url,
    tz + 12 <= Player.stairEndZ ->
    (In url (Player.triggers p) -> Player.checkTrigger p (THREE.vec3 tx Player.topY tz) 12 = true) ->
    In url (Player.onTrigger r) ->
    SceneTs.targetOpacity (THREE.vec3 tx ty tz) (Player.group_position g) = 1).
  { intros tx ty tz url Htz Hc Hin. rewrite Ht in Hin. specialize (Hc Hin).
    apply (@checkTrigger_flat p tx tz Hy Htz) in Hc.
    destruct (targetOpacity_cases (THREE.vec3 tx ty tz) (Player.group_position g)) as (H1 & _). cbv zeta in H1.
    apply H1. unfold SceneSpec.flatDistance. cbn [THREE.x THREE.z]. rewrite Hx, Hz. lra. }
  unfold Player.stairEndZ in Hnear.
  split; [|split]; intro Hin; (split; [unfold SceneTs.LABEL_DATA; cbn; tauto|]).
  - apply (Hnear 0 30 (-110) "https://www.zhenggdove.com/exhibition"%string ltac:(lra)); [|exact Hin].
    intro H. apply triggers_In in H.
    destruct H as [[H _]|[[_ H]|[_ H]]]; [exact H | discriminate | discriminate].
  - apply (Hnear (-30) 27 (-105) "https://www.zhenggdove.com/bio"%string ltac:(lra)); [|exact Hin].
    intro H. apply triggers_In in H.
    destruct H as [[_ H]|[[H _]|[_ H]]]; [discriminate | exact H | discriminate].
  - apply (Hnear 30 27 (-105) "https://www.zhenggdove.com/category/all-products"%string ltac:(lra)); [|exact Hin].
    intro H. apply triggers_In in H.
    destruct H as [[_ H]|[[_ H]|[H _]]]; [discriminate | discriminate | exact H].
Qed.

Lemma X17_label_full_at_trigger_witness :
  (In "https://www.zhenggdove.com/exhibition"%string
      (Player.onTrigger
         (Player.useFrame Scenario.walkingFrame PlayerStateTs.playerActionState
            Scenario.atAltar)) ->
   In ("Exhibition"%string, THREE.vec3 0 30 (-110)) SceneTs.LABEL_DATA
   /\ SceneTs.targetOpacity (THREE.vec3 0 30 (-110))
        (Player.group_position Scenario.atAltarGroup) = 1)
  /\ (In "https://www.zhenggdove.com/bio"%string
         (Player.onTrigger
            (Player.useFrame Scenario.walkingFrame PlayerStateTs.playerActionState
               Scenario.atAltar)) ->
      In ("CV"%string, THREE.vec3 (-30) 27 (-105)) SceneTs.LABEL_DATA
      /\ SceneTs.targetOpacity (THREE.vec3 (-30) 27 (-105))
           (Player.group_position Scenario.atAltarGroup) = 1)
  /\ (In "https://www.zhenggdove.com/category/all-products"%string
         (Player.onTrigger
            (Player.useFrame Scenario.walkingFrame PlayerStateTs.playerActionState
               Scenario.atAltar)) ->
      In ("Things"%string, THREE.vec3 30 27 (-105)) SceneTs.LABEL_DATA
      /\ SceneTs.targetOpacity (THREE.vec3 30 27 (-105))
           (Player.group_position Scenario.atAltarGroup) = 1).
Proof.
  apply (@X17_label_full_at_trigger Scenario.walkingFrame PlayerStateTs.playerActionState
           Scenario.atAltar Scenario.mountedGroup Scenario.atAltarGroup).
  - reflexivity.
  - reflexivity.
  - reflexivity.
Defined.

Section FlashFacts.
Import SceneTs SceneSpec.

(** [settled], with what the induction needs about the ids. *)
Lemma flashStep_settled latest s e :
  settled latest s ->
  (1 <= nextId s)%nat ->
  (forall id, hitFlashTimer s = Some id -> (1 <= id)%nat) ->
  settled (match e with hit now => Some now | tick _ => latest end) (flashStep s e)
  /\ (1 <= nextId (flashStep s e))%nat
  /\ (forall id, hitFlashTimer (flashStep s e) = Some id -> (1 <= id)%nat).
Proof.
  intros Hs Hn Hid. destruct e as [now|now]; cbn [flashStep].
  - (* a hit *)
    assert (Hclear : clearCurrent s = []).
    { unfold clearCurrent. destruct Hs as [[Ht _]|(id & t & Ht & Hr & _)].
      - rewrite Ht. destruct (hitFlashTimer s) as [id|]; [|reflexivity].
        destruct (Nat.eqb id 0); reflexivity.
      - rewrite Hr, Ht. specialize (Hid id Hr).
        destruct (Nat.eqb id 0) eqn:E; [apply Nat.eqb_eq in E; lia|].
        unfold clearTimeout. cbn [filter fst]. rewrite Nat.eqb_refl. reflexivity. }
    unfold triggerPlayerHitFlash. rewrite Hclear.
    cbn [nextId hitFlashTimer timeouts playerHitFlash]. split; [|split].
    + right. exists (nextId s), now. repeat split.
    + lia.
    + intros id E. injection E as E. lia.
  - (* the window runs what is due *)
    unfold runDue. destruct Hs as [[Ht Hf]|(id & t & Ht & Hr & Hl & Hf)].
    + rewrite Ht. cbn [fold_left]. split; [left; split; assumption | split; assumption].
    + rewrite Ht. cbn [fold_left snd fst].
      destruct (Num.leb (t + 200) now).
      * unfold runTimeout. cbn [nextId hitFlashTimer timeouts playerHitFlash].
        rewrite Ht. unfold clearTimeout. cbn [filter fst]. rewrite Nat.eqb_refl.
        cbn [negb]. split; [left; split; reflexivity | split; assumption].
      * split; [|split; assumption].
        right. exists id, t. repeat split; assumption.
Qed.

Lemma flashRun_settled es : forall latest s,
  settled latest s ->
  (1 <= nextId s)%nat ->
  (forall id, hitFlashTimer s = Some id -> (1 <= id)%nat) ->
  settled (fold_left (fun acc e => match e with hit now => Some now | tick _ => acc end)
                     es latest)
          (flashRun es s)
  /\ (forall id, hitFlashTimer (flashRun es s) = Some id -> (1 <= id)%nat).
Proof.
  unfold flashRun. induction es as [|e es IH]; intros latest s Hs Hn Hid; cbn [fold_left].
  - split; assumption.
  - destruct (@flashStep_settled latest s e Hs Hn Hid) as (Hs' & Hn' & Hid').
    apply IH; assumption.
Qed.

Lemma initialFlash_settled : settled None initialFlash.
Proof. left. split; reflexivity. Qed.

Lemma unmount_clears latest s :
  settled latest s ->
  (forall id, hitFlashTimer s = Some id -> (1 <= id)%nat) ->
  timeouts (unmount s) = [].
Proof.
  intros Hs Hid. unfold unmount. cbn [timeouts]. unfold clearCurrent.
  destruct Hs as [[Ht _]|(id & t & Ht & Hr & _)].
  - rewrite Ht. destruct (hitFlashTimer s) as [id|]; [|reflexivity].
    destruct (Nat.eqb id 0); reflexivity.
  - rewrite Hr, Ht. specialize (Hid id Hr).
    destruct (Nat.eqb id 0) eqn:E; [apply Nat.eqb_eq in E; lia|].
    unfold clearTimeout. cbn [filter fst]. rewrite Nat.eqb_refl. reflexivity.
Qed.

End FlashFacts.

(** X18. The hit flash is debounced.  After any sequence of hits and of
    turns of the window's timer queue, either no timeout is pending and the
    flash is off, or exactly one timeout is pending, it is the one whose id
    the ref holds, it is due 200 ms after the latest hit, and the flash is
    on: a new hit always cancels the timeout of the one before.  Unmounting
    then leaves no timeout behind. *)
Theorem X18_hit_flash_debounced :
  forall es,
    SceneSpec.settled (SceneTs.lastHit es) (SceneTs.flashRun es SceneTs.initialFlash)
    /\ SceneTs.timeouts (SceneTs.unmount (SceneTs.flashRun es SceneTs.initialFlash)) = [].
Proof.
  intro es. unfold SceneTs.lastHit.
  assert (H1 : (1 <= SceneTs.nextId SceneTs.initialFlash)%nat) by (cbn; lia).
  assert (H2 : forall id, SceneTs.hitFlashTimer SceneTs.initialFlash = Some id -> (1 <= id)%nat)
    by (intros id H; discriminate H).
  destruct (@flashRun_settled es None SceneTs.initialFlash initialFlash_settled H1 H2)
    as [Hs Hid].
  split; [exact Hs|]. eapply unmount_clears; eassumption.
Qed.

(* ================================================================== *)
(** ** What is drawn of a creature *)

Section RespawnLookFacts.
Variable random : nat -> R.
Import PlayerStateTs ChickensRespawn RespawnSpec.

Lemma Respawn_update_solid f p rng c :
  Look.solid (fst (fst (updateChicken random f p rng c))).
Proof.
  unfold Look.solid. destruct (mode c) eqn:Hm.
  1,2: destruct (fireActive (fire f) && footFireHit p c) eqn:Hf.
  1,3: rewrite Respawn_update_foot by (unfold roaming; auto); cbn; intros _; lra.
  1,2: rewrite Respawn_update_roam by (unfold roaming; auto); cbn [fst];
       unfold fireCheck;
       destruct (fireActive (fire f) && fireHit (fire f) _);
       [ cbn; intros _; lra
       | destruct (Respawn_moved_fields random f p rng c) as [_ [Hmm _]];
         rewrite Hmm; destruct (Num.ltb _ ALERT_RADIUS); discriminate ].
  - rewrite Respawn_update_drumstick by assumption. cbn [fst].
    unfold fade. cbv zeta.
    destruct (Num.ltb _ DRUMSTICK_PICKUP_RADIUS); cbn [fst snd].
    + destruct (Num.leb _ 0.01); cbn; discriminate.
    + match goal with |- context [Num.leb ?a 0.01] => destruct (lebP a 0.01) as [Hle|Hle] end.
      * cbn. discriminate.
      * intros _. lra.
  - rewrite Respawn_update_respawn by assumption. cbn [fst].
    unfold respawning. cbv zeta. destruct (Num.geb _ RESPAWN_DELAY); cbn [fst].
    + cbn. discriminate.
    + cbn. rewrite Hm. discriminate.
Qed.

Lemma Respawn_run_solid fs : forall s,
  Forall Look.solid (chickensRef s) ->
  Forall Look.solid (chickensRef (fst (run random s fs))).
Proof.
  induction fs as [|f fs IH]; intros s Hs; [exact Hs|].
  rewrite Respawn_run_cons. cbn [fst]. apply IH.
  destruct (player f) as [p|] eqn:Hp.
  - rewrite Respawn_played with (p := p) by exact Hp. cbn [fst chickensRef].
    apply forEach_Forall with (P := fun _ => True).
    + intros rng c _. apply Respawn_update_solid.
    + apply Forall_forall. intros; exact I.
  - rewrite Respawn_skipped by exact Hp. exact Hs.
Qed.

Lemma Respawn_initial_solid : Forall Look.solid (createInitialChickens random).
Proof.
  unfold createInitialChickens. apply Forall_forall. intros c Hin.
  apply in_map_iff in Hin. destruct Hin as [i [Hc _]]. subst c.
  unfold Look.solid, initialChicken. cbn [mode]. discriminate.
Qed.

Lemma Respawn_shown c group g :
  Look.solid c ->
  RespawnModel.useFrame [c] 0 (Some group) = Some g ->
  Look.shownRespawn c g.
Proof.
  intros Hs E. unfold RespawnModel.useFrame in E. cbn [nth_error] in E.
  injection E as E. subst g. unfold Look.shownRespawn, Look.solid, roaming in *.
  cbn [model_position live_visible drumstick_visible].
  destruct (mode c) eqn:Hm.
  - repeat split; try tauto; try discriminate; intros; intuition discriminate.
  - repeat split; try tauto; try discriminate; intros; intuition discriminate.
  - rewrite (gtb_true (Hs eq_refl)).
    repeat split; try tauto; try discriminate; intros; intuition discriminate.
  - repeat split; try tauto; try discriminate; intros; intuition discriminate.
Qed.

End RespawnLookFacts.

(** X19. In the engine with in-place respawn, the model of a creature
    always shows its mode: after any session, [ChickenModel] draws the live
    bird exactly for a wandering or chasing creature, the drumstick exactly
    for a captured one (a drumstick is never left in the roster invisible),
    and nothing exactly for a creature waiting in the respawn queue; an index
    beyond the roster leaves the group as it is. *)
Theorem X19_respawn_model_shows_mode :
  forall random fs k group,
    match nth_error (ChickensRespawn.chickensRef
                       (fst (ChickensRespawn.run random (ChickensRespawn.initial random) fs))) k
    with
    | Some c =>
        exists g,
          RespawnModel.useFrame
            (ChickensRespawn.chickensRef
               (fst (ChickensRespawn.run random (ChickensRespawn.initial random) fs)))
            k (Some group) = Some g
          /\ Look.shownRespawn c g
    | None =>
        RespawnModel.useFrame
          (ChickensRespawn.chickensRef
             (fst (ChickensRespawn.run random (ChickensRespawn.initial random) fs)))
          k (Some group) = Some group
    end.
Proof.
  intros random fs k group.
  pose proof (@Respawn_run_solid random fs (ChickensRespawn.initial random)
                (Respawn_initial_solid random)) as Hall.
  set (roster := ChickensRespawn.chickensRef
                   (fst (ChickensRespawn.run random (ChickensRespawn.initial random) fs))) in *.
  destruct (nth_error roster k) as [c|] eqn:Hk.
  - assert (Hc : Look.solid c).
    { apply nth_error_In in Hk. rewrite Forall_forall in Hall. apply Hall. exact Hk. }
    assert (E : RespawnModel.useFrame roster k (Some group)
                = RespawnModel.useFrame [c] 0 (Some group)).
    { unfold RespawnModel.useFrame. rewrite Hk. reflexivity. }
    destruct (RespawnModel.useFrame [c] 0 (Some group)) as [g|] eqn:Eg.
    + exists g. split; [exact E|]. eapply Respawn_shown; eassumption.
    + unfold RespawnModel.useFrame in Eg. cbn [nth_error] in Eg. discriminate.
  - unfold RespawnModel.useFrame. rewrite Hk. reflexivity.
Qed.

Section FixedLookFacts.
Variable random : nat -> R.
Import PlayerStateTs ChickensFixed FixedSpec.







End FixedLookFacts.




Lemma heading_faces velocity threshold rotation_y :
  (threshold < THREE.lengthSq velocity ->
   THREE.x velocity <> 0 \/ THREE.z velocity <> 0 ->
   Look.faces (heading velocity threshold rotation_y) velocity)
  /\ (THREE.lengthSq velocity <= threshold ->
      heading velocity threshold rotation_y = rotation_y).
Proof.
  unfold heading. split.
  - intros Ht Hne. rewrite gtb_true by exact Ht. unfold Look.faces, THREE.hypot.
    assert (Hne' : THREE.z velocity <> 0 \/ THREE.x velocity <> 0) by tauto.
    destruct (atan2_cos_sin Hne') as [Hc Hs].
    replace (THREE.x velocity * THREE.x velocity + THREE.z velocity * THREE.z velocity)
      with (THREE.z velocity * THREE.z velocity + THREE.x velocity * THREE.x velocity) by ring.
    split; assumption.
  - intro Ht. rewrite gtb_false by exact Ht. reflexivity.
Qed.

(** X22. A model turns to where its creature is going: [ChickenModel] sets
    the heading of the group to the direction of the creature's horizontal
    velocity (its sine and cosine are the velocity's x and z over the
    horizontal speed) whenever the squared speed exceeds 0.0001, and keeps
    the old heading otherwise, so a creature that has stopped keeps facing
    where it last went.  Both versions of the model do so. *)
Theorem X22_model_faces_velocity :
  forall rosterR rosterF k cR cF group,
    nth_error rosterR k = Some cR ->
    nth_error rosterF k = Some cF ->
    (exists g,
       RespawnModel.useFrame rosterR k (Some group) = Some g
       /\ (0.0001 < THREE.lengthSq (ChickensRespawn.velocity cR) ->
           THREE.x (ChickensRespawn.velocity cR) <> 0
           \/ THREE.z (ChickensRespawn.velocity cR) <> 0 ->
           Look.faces (model_rotation_y g) (ChickensRespawn.velocity cR))
       /\ (THREE.lengthSq (ChickensRespawn.velocity cR) <= 0.0001 ->
           model_rotation_y g = model_rotation_y group))
    /\ (exists g,
          FixedModel.useFrame rosterF k (Some group) = Some g
          /\ (0.0001 < THREE.lengthSq (ChickensFixed.velocity cF) ->
              THREE.x (ChickensFixed.velocity cF) <> 0
              \/ THREE.z (ChickensFixed.velocity cF) <> 0 ->
              Look.faces (model_rotation_y g) (ChickensFixed.velocity cF))
          /\ (THREE.lengthSq (ChickensFixed.velocity cF) <= 0.0001 ->
              model_rotation_y g = model_rotation_y group)).
Proof.
  intros rosterR rosterF k cR cF group HR HF. split.
  - unfold RespawnModel.useFrame. rewrite HR. eexists. split; [reflexivity|].
    cbn [model_rotation_y]. apply heading_faces.
  - unfold FixedModel.useFrame. rewrite HF. eexists. split; [reflexivity|].
    cbn [model_rotation_y]. apply heading_faces.
Qed.

Lemma X22_model_faces_velocity_witness :
  (exists g,
     RespawnModel.useFrame [Scenario.runaway] 0 (Some Scenario.freshModel) = Some g
     /\ (0.0001 < THREE.lengthSq (ChickensRespawn.velocity Scenario.runaway) ->
         THREE.x (ChickensRespawn.velocity Scenario.runaway) <> 0
         \/ THREE.z (ChickensRespawn.velocity Scenario.runaway) <> 0 ->
         Look.faces (model_rotation_y g) (ChickensRespawn.velocity Scenario.runaway))
     /\ (THREE.lengthSq (ChickensRespawn.velocity Scenario.runaway) <= 0.0001 ->
         model_rotation_y g = model_rotation_y Scenario.freshModel))
  /\ (exists g,
        FixedModel.useFrame [Scenario.underfoot] 0 (Some Scenario.freshModel) = Some g
        /\ (0.0001 < THREE.lengthSq (ChickensFixed.velocity Scenario.underfoot) ->
            THREE.x (ChickensFixed.velocity Scenario.underfoot) <> 0
            \/ THREE.z (ChickensFixed.velocity Scenario.underfoot) <> 0 ->
            Look.faces (model_rotation_y g) (ChickensFixed.velocity Scenario.underfoot))
        /\ (THREE.lengthSq (ChickensFixed.velocity Scenario.underfoot) <= 0.0001 ->
            model_rotation_y g = model_rotation_y Scenario.freshModel)).
Proof.
  apply (@X22_model_faces_velocity [Scenario.runaway] [Scenario.underfoot] 0
           Scenario.runaway Scenario.underfoot Scenario.freshModel).
  - reflexivity.
  - reflexivity.
Defined.

(* ================================================================== *)
(** ** Sessions in which the player never breathes fire *)

Section ForEachInvariant.
Variables C S E : Type.
Variable f : S -> C -> C * list E * S.

(** An invariant of the elements together with one of the threaded state. *)
Lemma forEach_invariant (P : C -> Prop) (Q : S -> Prop) i s cs :
  (forall s0 c, P c -> Q s0 -> P (fst (fst (f s0 c))) /\ Q (snd (f s0 c))) ->
  Forall P cs -> Q s ->
  Forall P (forEach_items f i s cs) /\ Q (forEach_state f i s cs).
Proof.
  intros H HP. revert i s. induction HP as [|c cs Hc Hcs IH]; intros i s HQ.
  - split; [constructor | exact HQ].
  - unfold forEach_items, forEach_state. rewrite forEach_cons. cbn [fst snd].
    destruct (H s c Hc HQ) as [HP' HQ'].
    destruct (IH (Datatypes.S i) (snd (f s c)) HQ') as [IH1 IH2].
    split; [constructor; assumption | exact IH2].
Qed.

End ForEachInvariant.

Section QuietFacts.
Variable random : nat -> R.
Import PlayerStateTs.

Lemma Respawn_update_quiet f p rng c :
  Quiet.fireOff f -> RespawnSpec.roaming c ->
  RespawnSpec.roaming (fst (fst (ChickensRespawn.updateChicken random f p rng c))).
Proof.
  intros Hoff Hr. unfold Quiet.fireOff in Hoff.
  rewrite Respawn_update_roam by (try exact Hr; rewrite Hoff; reflexivity).
  cbn [fst]. unfold ChickensRespawn.fireCheck. rewrite Hoff. cbn [andb].
  destruct (Respawn_moved_fields random f p rng c) as [_ [Hmm _]].
  unfold RespawnSpec.roaming. rewrite Hmm.
  destruct (Num.ltb _ ChickensRespawn.ALERT_RADIUS); [right | left]; reflexivity.
Qed.

Lemma Fixed_update_quiet f p rng c :
  Quiet.fireOff f -> FixedSpec.roaming c ->
  FixedSpec.roaming (fst (fst (ChickensFixed.updateChicken random f p rng c))).
Proof.
  intros Hoff Hr. unfold Quiet.fireOff in Hoff.
  rewrite Fixed_update_roam by exact Hr.
  cbn [fst]. unfold ChickensFixed.fireCheck. rewrite Hoff. cbn [andb].
  destruct (Fixed_moved_fields random f p rng c) as [_ [Hmm _]].
  unfold FixedSpec.roaming. rewrite Hmm.
  destruct (Num.ltb _ ChickensFixed.ALERT_RADIUS); [right | left]; reflexivity.
Qed.

Lemma Grow_update_quiet f p k c :
  Quiet.fireOff f -> Quiet.uncaught c ->
  Quiet.uncaught (fst (fst (ChickensGrow.updateChick random f p k c)))
  /\ ChickensGrow.heartCount (snd (ChickensGrow.updateChick random f p k c))
     = ChickensGrow.heartCount k
  /\ ChickensGrow.heights (snd (ChickensGrow.updateChick random f p k c))
     = ChickensGrow.heights k.
Proof.
  intros Hoff [Hm Hc]. unfold Quiet.fireOff in Hoff.
  rewrite Grow_update_roam by exact Hm. cbn [fst snd].
  rewrite Grow_fireCheck_off by exact Hoff.
  set (d := THREE.distanceTo p (ChickensGrow.pos c)).
  destruct (Grow_steer_fields random f p d (ChickensGrow.rng k) c) as [_ [Hmode [Hcol _]]].
  assert (Hm' : ChickensGrow.mode (fst (ChickensGrow.steer random f p d (ChickensGrow.rng k) c))
                <> ChickensGrow.drumstick).
  { rewrite Hmode. destruct (Num.ltb d ChickensGrow.ALERT_RADIUS); discriminate. }
  rewrite Grow_collect_roaming by exact Hm'. cbn [fst snd ChickensGrow.heartCount ChickensGrow.heights].
  repeat split; try assumption. rewrite Hcol. exact Hc.
Qed.

Lemma Respawn_run_quiet fs : forall s,
  Forall Quiet.fireOff fs -> Forall RespawnSpec.roaming (ChickensRespawn.chickensRef s) ->
  Forall RespawnSpec.roaming
         (ChickensRespawn.chickensRef (fst (ChickensRespawn.run random s fs))).
Proof.
  induction fs as [|f fs IH]; intros s Hall Hs; [exact Hs|].
  inversion Hall as [|f' fs' Hf Hrest]; subst.
  rewrite Respawn_run_cons. cbn [fst]. apply IH; [exact Hrest|].
  destruct (player f) as [p|] eqn:Hp.
  - rewrite Respawn_played with (p := p) by exact Hp. cbn [fst ChickensRespawn.chickensRef].
    apply forEach_Forall with (P := RespawnSpec.roaming); [|exact Hs].
    intros rng c Hc. apply Respawn_update_quiet; assumption.
  - rewrite Respawn_skipped by exact Hp. exact Hs.
Qed.

Lemma Fixed_run_quiet fs : forall s,
  Forall Quiet.fireOff fs -> Forall FixedSpec.roaming (ChickensFixed.chickensRef s) ->
  Forall FixedSpec.roaming (ChickensFixed.chickensRef (fst (ChickensFixed.run random s fs))).
Proof.
  induction fs as [|f fs IH]; intros s Hall Hs; [exact Hs|].
  inversion Hall as [|f' fs' Hf Hrest]; subst.
  rewrite Fixed_run_cons. cbn [fst]. apply IH; [exact Hrest|].
  destruct (player f) as [p|] eqn:Hp.
  - rewrite Fixed_played with (p := p) by exact Hp. cbn [fst ChickensFixed.chickensRef].
    apply forEach_Forall with (P := FixedSpec.roaming); [|exact Hs].
    intros rng c Hc. apply Fixed_update_quiet; assumption.
  - rewrite Fixed_skipped by exact Hp. exact Hs.
Qed.

Lemma Grow_uncaught_live roster :
  Forall Quiet.uncaught roster -> GrowSpec.count ChickensGrow.live roster = List.length roster.
Proof.
  intro H. apply Grow_all_live. eapply Forall_impl; [|exact H].
  intros c [_ Hc]. exact Hc.
Qed.

Lemma Grow_frame_quiet f s :
  Quiet.fireOff f ->
  Forall Quiet.uncaught (ChickensGrow.chickens s) ->
  (ChickensGrow.CHICKEN_COUNT <= List.length (ChickensGrow.chickens s))%nat ->
  let s' := fst (ChickensGrow.useFrame random f s) in
  Forall Quiet.uncaught (ChickensGrow.chickens s')
  /\ List.length (ChickensGrow.chickens s') = List.length (ChickensGrow.chickens s)
  /\ ChickensGrow.heartCountRef s' = ChickensGrow.heartCountRef s
  /\ ChickensGrow.heartHeights s' = ChickensGrow.heartHeights s.
Proof.
  intros Hoff Hs Hn s'. subst s'.
  pose proof (Grow_uncaught_live Hs) as Hlive.
  destruct (Grow_replenish_spec random f s) as (_ & _ & Hfull).
  rewrite Grow_frame_eq. cbn [fst ChickensGrow.chickens ChickensGrow.heartCountRef
                                ChickensGrow.heartHeights].
  unfold GrowSpec.carry0. rewrite Hfull by lia. cbn [fst snd].
  destruct (@forEach_invariant _ _ _
              (ChickensGrow.updateChick random f (GrowSpec.seenPlayer f s))
              Quiet.uncaught
              (fun k => ChickensGrow.heartCount k = ChickensGrow.heartCountRef s
                        /\ ChickensGrow.heights k = ChickensGrow.heartHeights s)
              0%nat
              {| ChickensGrow.rng := ChickensGrow.cursor s;
                 ChickensGrow.heartCount := ChickensGrow.heartCountRef s;
                 ChickensGrow.heights := ChickensGrow.heartHeights s |}
              (ChickensGrow.chickens s)) as [H1 [H2 H3]].
  - intros k c Hc [Hk1 Hk2].
    destruct (@Grow_update_quiet f (GrowSpec.seenPlayer f s) k c Hoff Hc) as (Hu & Hh1 & Hh2).
    split; [exact Hu|]. split; congruence.
  - exact Hs.
  - split; reflexivity.
  - split; [exact H1|]. split; [apply forEach_length|]. split; assumption.
Qed.

Lemma Grow_run_quiet fs : forall s,
  Forall Quiet.fireOff fs ->
  Forall Quiet.uncaught (ChickensGrow.chickens s) ->
  (ChickensGrow.CHICKEN_COUNT <= List.length (ChickensGrow.chickens s))%nat ->
  let s' := fst (ChickensGrow.run random s fs) in
  Forall Quiet.uncaught (ChickensGrow.chickens s')
  /\ List.length (ChickensGrow.chickens s') = List.length (ChickensGrow.chickens s)
  /\ ChickensGrow.heartCountRef s' = ChickensGrow.heartCountRef s
  /\ ChickensGrow.heartHeights s' = ChickensGrow.heartHeights s.
Proof.
  induction fs as [|f fs IH]; intros s Hall Hs Hn.
  - cbn. repeat split. exact Hs.
  - inversion Hall as [|f' fs' Hf Hrest]; subst.
    rewrite Grow_run_cons. cbn [fst].
    destruct (@Grow_frame_quiet f s Hf Hs Hn) as (H1 & H2 & H3 & H4).
    destruct (IH (fst (ChickensGrow.useFrame random f s)) Hrest H1 ltac:(lia))
      as (I1 & I2 & I3 & I4).
    split; [exact I1|]. split; [congruence|]. split; congruence.
Qed.

Lemma Respawn_initial_roaming :
  Forall RespawnSpec.roaming (ChickensRespawn.createInitialChickens random).
Proof.
  unfold ChickensRespawn.createInitialChickens. apply Forall_forall. intros c Hin.
  apply in_map_iff in Hin. destruct Hin as [i [Hc _]]. subst c. left. reflexivity.
Qed.

Lemma Fixed_initial_roaming :
  Forall FixedSpec.roaming (ChickensFixed.createInitialChickens random).
Proof.
  unfold ChickensFixed.createInitialChickens. apply Forall_forall. intros c Hin.
  apply in_map_iff in Hin. destruct Hin as [i [Hc _]]. subst c. left. reflexivity.
Qed.

Lemma Grow_initial_uncaught :
  Forall Quiet.uncaught (ChickensGrow.createInitialChicks random).
Proof.
  unfold ChickensGrow.createInitialChicks. apply Forall_forall. intros c Hin.
  apply in_map_iff in Hin. destruct Hin as [i [Hc _]]. subst c.
  split; [discriminate | reflexivity].
Qed.

End QuietFacts.

(** X23. Without fire nothing is ever captured.  In a session in which the
    published fire state is inactive in every frame, all three creature
    engines keep every creature of the first roster wandering or chasing; the
    growing roster, moreover, stays at its five creatures and no heart is
    earned. *)
Theorem X23_no_fire_no_capture :
  forall random fs,
    Forall Quiet.fireOff fs ->
    Forall FixedSpec.roaming
      (ChickensFixed.chickensRef
         (fst (ChickensFixed.run random (ChickensFixed.initial random) fs)))
    /\ Forall RespawnSpec.roaming
         (ChickensRespawn.chickensRef
            (fst (ChickensRespawn.run random (ChickensRespawn.initial random) fs)))
    /\ Forall Quiet.uncaught
         (ChickensGrow.chickens (fst (ChickensGrow.run random (ChickensGrow.initial random) fs)))
    /\ List.length
         (ChickensGrow.chickens (fst (ChickensGrow.run random (ChickensGrow.initial random) fs)))
       = ChickensGrow.CHICKEN_COUNT
    /\ ChickensGrow.heartCountRef
         (fst (ChickensGrow.run random (ChickensGrow.initial random) fs)) = 0%nat
    /\ ChickensGrow.heartHeights
         (fst (ChickensGrow.run random (ChickensGrow.initial random) fs)) = [].
Proof.
  intros random fs Hall. split; [|split].
  - apply Fixed_run_quiet; [exact Hall | apply Fixed_initial_roaming].
  - apply Respawn_run_quiet; [exact Hall | apply Respawn_initial_roaming].
  - assert (Hn : List.length (ChickensGrow.chickens (ChickensGrow.initial random))
                 = ChickensGrow.CHICKEN_COUNT) by reflexivity.
    destruct (@Grow_run_quiet random fs (ChickensGrow.initial random) Hall
                (Grow_initial_uncaught random) ltac:(rewrite Hn; lia)) as (H1 & H2 & H3 & H4).
    split; [exact H1|]. split; [rewrite H2; exact Hn|]. split; assumption.
Qed.

Lemma X23_no_fire_no_capture_witness :
  Forall FixedSpec.roaming
    (ChickensFixed.chickensRef
       (fst (ChickensFixed.run Scenario.half (ChickensFixed.initial Scenario.half)
               [Scenario.quietFrame; Scenario.quietFrame])))
  /\ Forall RespawnSpec.roaming
       (ChickensRespawn.chickensRef
          (fst (ChickensRespawn.run Scenario.half (ChickensRespawn.initial Scenario.half)
                  [Scenario.quietFrame; Scenario.quietFrame])))
  /\ Forall Quiet.uncaught
       (ChickensGrow.chickens
          (fst (ChickensGrow.run Scenario.half (ChickensGrow.initial Scenario.half)
                  [Scenario.quietFrame; Scenario.quietFrame])))
  /\ List.length
       (ChickensGrow.chickens
          (fst (ChickensGrow.run Scenario.half (ChickensGrow.initial Scenario.half)
                  [Scenario.quietFrame; Scenario.quietFrame])))
     = ChickensGrow.CHICKEN_COUNT
  /\ ChickensGrow.heartCountRef
       (fst (ChickensGrow.run Scenario.half (ChickensGrow.initial Scenario.half)
               [Scenario.quietFrame; Scenario.quietFrame])) = 0%nat
  /\ ChickensGrow.heartHeights
       (fst (ChickensGrow.run Scenario.half (ChickensGrow.initial Scenario.half)
               [Scenario.quietFrame; Scenario.quietFrame])) = [].
Proof.
  apply (@X23_no_fire_no_capture Scenario.half [Scenario.quietFrame; Scenario.quietFrame]).
  repeat constructor.
Defined.

(* ================================================================== *)
(** ** How fast a creature can go *)

Lemma normalize_unit v :
  0 < THREE.lengthSq v -> THREE.lengthSq (THREE.normalize v) = 1.
Proof.
  intro H. unfold THREE.normalize, THREE.length.
  set (L := sqrt (THREE.lengthSq v)).
  assert (HL : 0 < L) by (apply sqrt_lt_R0; exact H).
  assert (HLsq : L * L = THREE.lengthSq v) by (apply sqrt_sqrt; lra).
  destruct (eqbP L 0) as [E|_]; [lra|].
  unfold THREE.divideScalar, THREE.multiplyScalar, THREE.lengthSq in *.
  cbn [THREE.x THREE.y THREE.z].
  replace (THREE.x v * (1 / L) * (THREE.x v * (1 / L)) + THREE.y v * (1 / L) * (THREE.y v * (1 / L))
           + THREE.z v * (1 / L) * (THREE.z v * (1 / L)))
    with ((THREE.x v * THREE.x v + THREE.y v * THREE.y v + THREE.z v * THREE.z v) / (L * L))
    by (field; lra).
  rewrite <- HLsq. field. lra.
Qed.

Lemma normalize_y v : THREE.y v = 0 -> THREE.y (THREE.normalize v) = 0.
Proof.
  intro H. unfold THREE.normalize, THREE.divideScalar, THREE.multiplyScalar.
  cbn [THREE.y]. rewrite H. ring.
Qed.

(** The velocity a creature steers toward is horizontal and no longer than
    its speed. *)
Lemma target_slow dir0 speed limit :
  THREE.y dir0 = 0 -> 0 <= speed <= limit ->
  Look.slow limit
    (THREE.multiplyScalar
       (if Num.gtb (THREE.lengthSq dir0) 0.0001 then THREE.normalize dir0 else dir0) speed).
Proof.
  intros Hy Hs.
  assert (Hd : THREE.lengthSq (if Num.gtb (THREE.lengthSq dir0) 0.0001
                               then THREE.normalize dir0 else dir0) <= 1
               /\ THREE.y (if Num.gtb (THREE.lengthSq dir0) 0.0001
                           then THREE.normalize dir0 else dir0) = 0).
  { destruct (gtbP (THREE.lengthSq dir0) 0.0001) as [Hg|Hg]; unfold Rgt in Hg.
    - split; [rewrite normalize_unit by lra; lra | apply normalize_y; exact Hy].
    - split; [lra | exact Hy]. }
  destruct Hd as [Hl Hy'].
  set (dir := if Num.gtb (THREE.lengthSq dir0) 0.0001 then THREE.normalize dir0 else dir0) in *.
  unfold Look.slow, THREE.multiplyScalar, THREE.lengthSq in *. cbn [THREE.x THREE.y THREE.z].
  split; [|rewrite Hy'; ring].
  replace (THREE.x dir * speed * (THREE.x dir * speed) + THREE.y dir * speed * (THREE.y dir * speed)
           + THREE.z dir * speed * (THREE.z dir * speed))
    with ((THREE.x dir * THREE.x dir + THREE.y dir * THREE.y dir + THREE.z dir * THREE.z dir)
          * (speed * speed)) by ring.
  pose proof (Rle_0_sqr (THREE.x dir)). pose proof (Rle_0_sqr (THREE.y dir)).
  pose proof (Rle_0_sqr (THREE.z dir)). unfold Rsqr in *.
  assert (speed * speed <= limit * limit) by nra.
  assert (0 <= speed * speed) by nra. nra.
Qed.

(** Moving 12% of the way toward a slow velocity keeps a velocity slow. *)
Lemma lerp_slow limit v target :
  Look.slow limit v -> Look.slow limit target -> Look.slow limit (THREE.lerp v target 0.12).
Proof.
  unfold Look.slow, THREE.lerp, THREE.lengthSq. cbn [THREE.x THREE.y THREE.z].
  intros [Hv Hvy] [Ht Hty]. split; [|rewrite Hvy, Hty; lra].
  pose proof (Rle_0_sqr (THREE.x v - THREE.x target)).
  pose proof (Rle_0_sqr (THREE.y v - THREE.y target)).
  pose proof (Rle_0_sqr (THREE.z v - THREE.z target)). unfold Rsqr in *.
  nra.
Qed.

Lemma zero_slow limit : Look.slow limit (THREE.vec3 0 0 0).
Proof.
  unfold Look.slow, THREE.lengthSq. cbn [THREE.x THREE.y THREE.z].
  split; [|reflexivity]. pose proof (Rle_0_sqr limit). unfold Rsqr in *. lra.
Qed.

Section SpeedFacts.
Variable random : nat -> R.
Import PlayerStateTs.

Lemma Respawn_steer_slow f p d rng c :
  Look.slow ChickensRespawn.CHASE_SPEED (ChickensRespawn.velocity c) ->
  Look.slow ChickensRespawn.CHASE_SPEED
            (ChickensRespawn.velocity (fst (ChickensRespawn.steer random f p d rng c))).
Proof.
  intro Hv. unfold ChickensRespawn.steer. cbv zeta.
  destruct (Num.leb _ 0); cbn [fst snd];
  cbn [ChickensRespawn.velocity ChickensRespawn.set_velocity ChickensRespawn.set_position];
  (apply lerp_slow; [exact Hv|];
   apply target_slow;
   [ reflexivity
   | unfold ChickensRespawn.CHASE_SPEED, ChickensRespawn.WANDER_SPEED;
     match goal with |- context [if ?b then _ else _] => destruct b end; lra ]).
Qed.

Lemma Fixed_steer_slow f p d rng c :
  Look.slow ChickensFixed.CHASE_SPEED (ChickensFixed.velocity c) ->
  Look.slow ChickensFixed.CHASE_SPEED
            (ChickensFixed.velocity (fst (ChickensFixed.steer random f p d rng c))).
Proof.
  intro Hv. unfold ChickensFixed.steer. cbv zeta.
  destruct (Num.leb _ 0); cbn [fst snd];
  cbn [ChickensFixed.velocity ChickensFixed.set_velocity ChickensFixed.set_position];
  (apply lerp_slow; [exact Hv|];
   apply target_slow;
   [ reflexivity
   | unfold ChickensFixed.CHASE_SPEED, ChickensFixed.WANDER_SPEED;
     match goal with |- context [if ?b then _ else _] => destruct b end; lra ]).
Qed.

Lemma Grow_steer_slow f p d rng c :
  Look.slow ChickensGrow.CHASE_SPEED (ChickensGrow.vel c) ->
  Look.slow ChickensGrow.CHASE_SPEED
            (ChickensGrow.vel (fst (ChickensGrow.steer random f p d rng c))).
Proof.
  intro Hv. unfold ChickensGrow.steer. cbv zeta.
  destruct (Num.leb _ 0); cbn [fst snd];
  cbn [ChickensGrow.vel ChickensGrow.set_vel ChickensGrow.set_pos];
  (apply lerp_slow; [exact Hv|];
   match goal with
   | |- context [if ChickensGrow.alert ?c0 then THREE.set_y 0 ?a else ?b] =>
       replace (if ChickensGrow.alert c0 then THREE.set_y 0 a else b)
         with (THREE.set_y 0 (if ChickensGrow.alert c0 then a else b))
         by (destruct (ChickensGrow.alert c0); reflexivity)
   end;
   apply target_slow;
   [ reflexivity
   | unfold ChickensGrow.CHASE_SPEED, ChickensGrow.WANDER_SPEED;
     match goal with |- context [if ?b then _ else _] => destruct b end; lra ]).
Qed.

End SpeedFacts.

Section SpeedFrames.
Variable random : nat -> R.
Import PlayerStateTs.

Lemma Respawn_update_slow f p rng c :
  Look.slow ChickensRespawn.CHASE_SPEED (ChickensRespawn.velocity c) ->
  Look.slow ChickensRespawn.CHASE_SPEED
    (ChickensRespawn.velocity (fst (fst (ChickensRespawn.updateChicken random f p rng c)))).
Proof.
  intro Hv. destruct (ChickensRespawn.mode c) eqn:Hm.
  1,2: destruct (fireActive (fire f) && ChickensRespawn.footFireHit p c) eqn:Hf.
  1,3: rewrite Respawn_update_foot by (unfold RespawnSpec.roaming; auto); cbn; apply zero_slow.
  1,2: rewrite Respawn_update_roam by (unfold RespawnSpec.roaming; auto); cbn [fst];
       unfold ChickensRespawn.fireCheck;
       destruct (fireActive (fire f) && ChickensRespawn.fireHit (fire f) _);
       [ cbn; apply zero_slow
       | destruct (Respawn_moved_fields random f p rng c) as (_ & _ & _ & Hvel);
         rewrite Hvel; apply Respawn_steer_slow; exact Hv ].
  - rewrite Respawn_update_drumstick by assumption. cbn [fst].
    unfold ChickensRespawn.fade. cbv zeta.
    destruct (Num.ltb _ ChickensRespawn.DRUMSTICK_PICKUP_RADIUS); cbn [fst snd];
      destruct (Num.leb _ 0.01); cbn; apply zero_slow.
  - rewrite Respawn_update_respawn by assumption. cbn [fst].
    unfold ChickensRespawn.respawning. cbv zeta.
    destruct (Num.geb _ ChickensRespawn.RESPAWN_DELAY); cbn [fst].
    + cbn. apply zero_slow.
    + cbn. exact Hv.
Qed.

Lemma Fixed_update_slow f p rng c :
  Look.slow ChickensFixed.CHASE_SPEED (ChickensFixed.velocity c) ->
  Look.slow ChickensFixed.CHASE_SPEED
    (ChickensFixed.velocity (fst (fst (ChickensFixed.updateChicken random f p rng c)))).
Proof.
  intro Hv. destruct (ChickensFixed.mode c) eqn:Hm.
  1,2: rewrite Fixed_update_roam by (unfold FixedSpec.roaming; auto); cbn [fst];
       unfold ChickensFixed.fireCheck;
       destruct (fireActive (fire f) && ChickensFixed.fireHit (fire f) _);
       [ cbn; apply zero_slow
       | destruct (Fixed_moved_fields random f p rng c) as (_ & _ & _ & Hvel);
         rewrite Hvel; apply Fixed_steer_slow; exact Hv ].
  rewrite Fixed_update_drumstick by assumption. cbn. apply zero_slow.
Qed.

Lemma Grow_update_slow f p k c :
  Look.slow ChickensGrow.CHASE_SPEED (ChickensGrow.vel c) ->
  Look.slow ChickensGrow.CHASE_SPEED
    (ChickensGrow.vel (fst (fst (ChickensGrow.updateChick random f p k c)))).
Proof.
  intro Hv. destruct (ChickensGrow.mode c) eqn:Hm.
  1,2: rewrite Grow_update_roam by (rewrite Hm; discriminate); cbn [fst];
       match goal with
       | |- context [ChickensGrow.collect ?f0 ?p0 ?k1 ?c1] =>
           destruct (Grow_collect_fields f0 p0 k1 c1) as (_ & Hcv & _); rewrite Hcv
       end;
       match goal with
       | |- context [ChickensGrow.fireCheck ?sh ?p0 ?c1] =>
           destruct (Grow_fireCheck_fields sh p0 c1) as (_ & Hfv & _); rewrite Hfv
       end;
       apply Grow_steer_slow; exact Hv.
  rewrite Grow_update_drumstick by exact Hm. cbn [fst].
  match goal with
  | |- context [ChickensGrow.collect f p ?k1 ?c1] =>
      destruct (Grow_collect_fields f p k1 c1) as (_ & Hcv & _); rewrite Hcv
  end.
  unfold ChickensGrow.fade. cbn. apply zero_slow.
Qed.

Lemma Respawn_run_slow fs : forall s,
  Forall (fun c => Look.slow ChickensRespawn.CHASE_SPEED (ChickensRespawn.velocity c))
         (ChickensRespawn.chickensRef s) ->
  Forall (fun c => Look.slow ChickensRespawn.CHASE_SPEED (ChickensRespawn.velocity c))
         (ChickensRespawn.chickensRef (fst (ChickensRespawn.run random s fs))).
Proof.
  induction fs as [|f fs IH]; intros s Hs; [exact Hs|].
  rewrite Respawn_run_cons. cbn [fst]. apply IH.
  destruct (player f) as [p|] eqn:Hp.
  - rewrite Respawn_played with (p := p) by exact Hp. cbn [fst ChickensRespawn.chickensRef].
    eapply forEach_Forall; [|exact Hs].
    intros rng c Hc. apply Respawn_update_slow. exact Hc.
  - rewrite Respawn_skipped by exact Hp. exact Hs.
Qed.

Lemma Fixed_run_slow fs : forall s,
  Forall (fun c => Look.slow ChickensFixed.CHASE_SPEED (ChickensFixed.velocity c))
         (ChickensFixed.chickensRef s) ->
  Forall (fun c => Look.slow ChickensFixed.CHASE_SPEED (ChickensFixed.velocity c))
         (ChickensFixed.chickensRef (fst (ChickensFixed.run random s fs))).
Proof.
  induction fs as [|f fs IH]; intros s Hs; [exact Hs|].
  rewrite Fixed_run_cons. cbn [fst]. apply IH.
  destruct (player f) as [p|] eqn:Hp.
  - rewrite Fixed_played with (p := p) by exact Hp. cbn [fst ChickensFixed.chickensRef].
    eapply forEach_Forall; [|exact Hs].
    intros rng c Hc. apply Fixed_update_slow. exact Hc.
  - rewrite Fixed_skipped by exact Hp. exact Hs.
Qed.

Lemma Grow_run_slow fs : forall s,
  Forall (fun c => Look.slow ChickensGrow.CHASE_SPEED (ChickensGrow.vel c))
         (ChickensGrow.chickens s) ->
  Forall (fun c => Look.slow ChickensGrow.CHASE_SPEED (ChickensGrow.vel c))
         (ChickensGrow.chickens (fst (ChickensGrow.run random s fs))).
Proof.
  induction fs as [|f fs IH]; intros s Hs; [exact Hs|].
  rewrite Grow_run_cons. cbn [fst]. apply IH.
  rewrite Grow_frame_eq. cbn [fst ChickensGrow.chickens].
  eapply forEach_Forall.
  - intros k c Hc. apply Grow_update_slow. exact Hc.
  - destruct (Grow_replenish_cases random f s) as [E|E]; rewrite E; [exact Hs|].
    apply Forall_app. split; [exact Hs|]. constructor; [|constructor].
    cbn. apply zero_slow.
Qed.

End SpeedFrames.

(** X24. No creature ever exceeds its chase speed.  After any session from
    the first roster, in each of the three creature engines, the velocity of
    every creature is horizontal and at most the chase speed of that engine
    long (2.2, 2.2 and 4): the velocity only ever moves 12% of the way toward
    a target of at most that length. *)
Theorem X24_creature_speed_limit :
  forall random fs,
    Forall (fun c => Look.slow ChickensFixed.CHASE_SPEED (ChickensFixed.velocity c))
      (ChickensFixed.chickensRef
         (fst (ChickensFixed.run random (ChickensFixed.initial random) fs)))
    /\ Forall (fun c => Look.slow ChickensRespawn.CHASE_SPEED (ChickensRespawn.velocity c))
         (ChickensRespawn.chickensRef
            (fst (ChickensRespawn.run random (ChickensRespawn.initial random) fs)))
    /\ Forall (fun c => Look.slow ChickensGrow.CHASE_SPEED (ChickensGrow.vel c))
         (ChickensGrow.chickens (fst (ChickensGrow.run random (ChickensGrow.initial random) fs))).
Proof.
  intros random fs. split; [|split].
  - apply Fixed_run_slow. cbn [ChickensFixed.initial ChickensFixed.chickensRef].
    unfold ChickensFixed.createInitialChickens. apply Forall_forall. intros c Hin.
    apply in_map_iff in Hin. destruct Hin as [i [Hc _]]. subst c. cbn. apply zero_slow.
  - apply Respawn_run_slow. cbn [ChickensRespawn.initial ChickensRespawn.chickensRef].
    unfold ChickensRespawn.createInitialChickens. apply Forall_forall. intros c Hin.
    apply in_map_iff in Hin. destruct Hin as [i [Hc _]]. subst c. cbn. apply zero_slow.
  - apply Grow_run_slow. cbn [ChickensGrow.initial ChickensGrow.chickens].
    unfold ChickensGrow.createInitialChicks. apply Forall_forall. intros c Hin.
    apply in_map_iff in Hin. destruct Hin as [i [Hc _]]. subst c. cbn. apply zero_slow.
Qed.

(* ================================================================== *)
(** ** Where a creature comes back *)

Lemma floor_index r n :
  0 <= r < 1 -> (0 < n)%nat -> (Z.to_nat (Num.floor (r * INR n)) < n)%nat.
Proof.
  intros [H0 H1] Hn. unfold Num.floor.
  assert (HN : 0 < INR n) by (apply lt_0_INR; exact Hn).
  destruct (base_Int_part (r * INR n)) as [Hle Hgt].
  assert (Hx0 : 0 <= r * INR n) by nra.
  assert (Hx1 : r * INR n < INR n) by nra.
  assert (Hlo : (0 <= Int_part (r * INR n))%Z).
  { apply le_IZR. apply Rnot_lt_le. intro Hneg.
    assert (IZR (Int_part (r * INR n)) <= -1).
    { apply IZR_le. apply lt_IZR in Hneg. lia. }
    lra. }
  assert (Hhi : (Int_part (r * INR n) < Z.of_nat n)%Z).
  { apply lt_IZR. rewrite <- INR_IZR_INZ. lra. }
  lia.
Qed.

Section SpawnFacts.
Variable random : nat -> R.
Import ChickensRespawn.

Lemma randomize_position rng c :
  position (randomizeChicken random rng c)
  = THREE.vec3
      (nth (Z.to_nat (Num.floor (random rng * INR (List.length startXs)))) startXs 0
       + (random (rng + 1) - 0.5) * 1.5)
      BASE_HEIGHT
      (startZ + (random (rng + 2) - 0.5) * 4).
Proof. reflexivity. Qed.

End SpawnFacts.

(** X25. A creature comes back in one of the five starting lanes.  With
    [Math.random()] in [[0, 1)], the index that [randomizeChicken] draws is
    inside the table of lanes, the creature is put within 0.75 of a lane, at
    the base height and with depth between -77 and -73, as a wandering
    creature at rest whose hit timestamp is reset; and nothing of what the
    creature was before survives. *)
Theorem X25_respawn_spawn_lanes :
  forall random rng c,
    unitRandom random ->
    (exists lane,
       In lane ChickensRespawn.startXs
       /\ Rabs (THREE.x (ChickensRespawn.position
                           (ChickensRespawn.randomizeChicken random rng c)) - lane) <= 0.75)
    /\ THREE.y (ChickensRespawn.position (ChickensRespawn.randomizeChicken random rng c))
       = ChickensRespawn.BASE_HEIGHT
    /\ -77 <= THREE.z (ChickensRespawn.position
                         (ChickensRespawn.randomizeChicken random rng c)) <= -73
    /\ ChickensRespawn.mode (ChickensRespawn.randomizeChicken random rng c)
       = ChickensRespawn.wander
    /\ ChickensRespawn.velocity (ChickensRespawn.randomizeChicken random rng c)
       = THREE.vec3 0 0 0
    /\ ChickensRespawn.lastPlayerHit (ChickensRespawn.randomizeChicken random rng c) = -10
    /\ forall other,
         ChickensRespawn.randomizeChicken random rng other
         = ChickensRespawn.randomizeChicken random rng c.
Proof.
  intros random rng c Hr.
  rewrite randomize_position. cbn [THREE.x THREE.y THREE.z].
  pose proof (Hr rng) as H0. pose proof (Hr (rng + 1)%nat) as H1.
  pose proof (Hr (rng + 2)%nat) as H2.
  split; [|split; [|split; [|split; [|split; [|split]]]]].
  - set (seed := Z.to_nat (Num.floor (random rng * INR (List.length ChickensRespawn.startXs)))).
    assert (Hseed : (seed < List.length ChickensRespawn.startXs)%nat).
    { apply floor_index; [exact H0 | cbn; lia]. }
    exists (nth seed ChickensRespawn.startXs 0). split; [apply nth_In; exact Hseed|].
    replace (nth seed ChickensRespawn.startXs 0 + (random (rng + 1)%nat - 0.5) * 1.5
             - nth seed ChickensRespawn.startXs 0)
      with ((random (rng + 1)%nat - 0.5) * 1.5) by ring.
    unfold Rabs. destruct (Rcase_abs _); lra.
  - reflexivity.
  - unfold ChickensRespawn.startZ. lra.
  - reflexivity.
  - reflexivity.
  - reflexivity.
  - intro other. reflexivity.
Qed.

Lemma X25_respawn_spawn_lanes_witness :
  (exists lane,
     In lane ChickensRespawn.startXs
     /\ Rabs (THREE.x (ChickensRespawn.position
                         (ChickensRespawn.randomizeChicken Scenario.half 0 Scenario.runaway))
              - lane) <= 0.75)
  /\ THREE.y (ChickensRespawn.position
                (ChickensRespawn.randomizeChicken Scenario.half 0 Scenario.runaway))
     = ChickensRespawn.BASE_HEIGHT
  /\ -77 <= THREE.z (ChickensRespawn.position
                       (ChickensRespawn.randomizeChicken Scenario.half 0 Scenario.runaway))
     <= -73
  /\ ChickensRespawn.mode (ChickensRespawn.randomizeChicken Scenario.half 0 Scenario.runaway)
     = ChickensRespawn.wander
  /\ ChickensRespawn.velocity
       (ChickensRespawn.randomizeChicken Scenario.half 0 Scenario.runaway)
     = THREE.vec3 0 0 0
  /\ ChickensRespawn.lastPlayerHit
       (ChickensRespawn.randomizeChicken Scenario.half 0 Scenario.runaway) = -10
  /\ forall other,
       ChickensRespawn.randomizeChicken Scenario.half 0 other
       = ChickensRespawn.randomizeChicken Scenario.half 0 Scenario.runaway.
Proof.
  apply (@X25_respawn_spawn_lanes Scenario.half 0%nat Scenario.runaway).
  intro n. unfold Scenario.half. lra.
Defined.

(* ================================================================== *)
(** ** The stack of hearts *)

Section HeartFacts.
Variable random : nat -> R.
Import PlayerStateTs ChickensGrow GrowSpec Hearts.

Lemma stackHeights_S n :
  stackHeights (S n) = stackHeights n ++ [HEART_BASE_HEIGHT + HEART_GAP * INR n].
Proof.
  unfold stackHeights. rewrite seq_S, map_app. reflexivity.
Qed.

Lemma collect_hearts f p k c :
  carried k ->
  let r := collect f p k c in
  carried (snd r)
  /\ (heartCount (snd r) + one (isCollected c) = heartCount k + one (isCollected (fst (fst r))))%nat.
Proof.
  intros Hk r. subst r. unfold collect, isCollected.
  destruct (mode_eqb (mode c) drumstick) eqn:Hm; cbn [andb].
  2:{ cbn [fst snd]. rewrite Hm. cbn [andb one]. split; [exact Hk | lia]. }
  destruct (collected c) eqn:Hc; cbn [negb].
  { cbn [fst snd]. rewrite Hm, Hc. cbn [andb one]. split; [exact Hk | lia]. }
  cbv zeta. destruct (Num.ltb _ HIT_RADIUS); cbn [fst snd].
  - cbn [mode collected set_collected heartCount heights]. rewrite Hm. cbn [andb one].
    split; [|lia]. unfold carried in *. cbn [heights heartCount].
    rewrite stackHeights_S, Hk. f_equal. f_equal.
    rewrite S_INR. unfold HEART_GAP. lra.
  - rewrite Hm, Hc. cbn [andb one]. split; [exact Hk | lia].
Qed.

Lemma Grow_update_hearts f p k c :
  wellMarked c -> carried k ->
  let r := updateChick random f p k c in
  carried (snd r)
  /\ (heartCount (snd r) + one (isCollected c)
      = heartCount k + one (isCollected (fst (fst r))))%nat.
Proof.
  intros Hw Hk r. subst r.
  destruct (mode_eqb (mode c) drumstick) eqn:Hm.
  - assert (Hmode : mode c = drumstick) by (destruct (mode c); try discriminate; reflexivity).
    rewrite Grow_update_drumstick by exact Hmode. cbn [fst snd].
    assert (E : isCollected (fade f c) = isCollected c).
    { unfold isCollected, fade. destruct (collected c) eqn:Ec; cbn; rewrite ?Ec; reflexivity. }
    rewrite <- E. apply collect_hearts. exact Hk.
  - assert (Hmode : mode c <> drumstick) by (intro E; rewrite E in Hm; discriminate).
    assert (Hc : collected c = false).
    { destruct (collected c) eqn:E; [|reflexivity]. exfalso. apply Hmode. apply Hw. exact E. }
    rewrite Grow_update_roam by exact Hmode. cbv zeta. cbn [fst snd].
    set (d := THREE.distanceTo p (pos c)).
    set (c1 := fireCheck (fire f) p (fst (steer random f p d (rng k) c))).
    set (k1 := {| rng := snd (steer random f p d (rng k) c);
                  heartCount := heartCount k; heights := heights k |}).
    assert (E : isCollected c1 = isCollected c).
    { unfold isCollected. rewrite Hm, Hc. cbn [andb].
      destruct (Grow_fireCheck_fields (fire f) p (fst (steer random f p d (rng k) c)))
        as (_ & _ & Hcol & _). fold c1 in Hcol.
      destruct (Grow_steer_fields random f p d (rng k) c) as (_ & _ & Hcol' & _).
      rewrite Hcol, Hcol', Hc. apply andb_false_r. }
    rewrite <- E.
    change (heartCount k) with (heartCount k1).
    apply collect_hearts. exact Hk.
Qed.

Lemma forEach_hearts f p cs : forall i k,
  Forall wellMarked cs -> carried k ->
  carried (forEach_state (updateChick random f p) i k cs)
  /\ (heartCount (forEach_state (updateChick random f p) i k cs) + count isCollected cs
      = heartCount k + count isCollected (forEach_items (updateChick random f p) i k cs))%nat.
Proof.
  induction cs as [|c cs IH]; intros i k Hw Hk.
  - cbn. split; [exact Hk | lia].
  - inversion Hw as [|c' cs' Hc Hcs]; subst.
    unfold forEach_state, forEach_items. rewrite forEach_cons. cbn [fst snd].
    destruct (@Grow_update_hearts f p k c Hc Hk) as [Hk' Hn].
    destruct (IH (S i) (snd (updateChick random f p k c)) Hcs Hk') as [IH1 IH2].
    split; [exact IH1|].
    unfold count in *. cbn [filter].
    unfold one in Hn.
    destruct (isCollected c); destruct (isCollected (fst (fst (updateChick random f p k c))));
      cbn [List.length]; lia.
Qed.

Lemma Grow_frame_stacked f s :
  Forall wellMarked (chickens s) -> stacked s ->
  stacked (fst (useFrame random f s)).
Proof.
  intros Hw [Hn Hh].
  rewrite Grow_frame_eq. cbn [fst]. unfold stacked.
  cbn [heartCountRef heartHeights chickens].
  set (roster := fst (fst (replenish random f s))).
  assert (Hroster : Forall wellMarked roster
                    /\ count isCollected roster = count isCollected (chickens s)).
  { subst roster. destruct (Grow_replenish_cases random f s) as [E|E]; rewrite E.
    - split; [exact Hw | reflexivity].
    - split.
      + apply Forall_app. split; [exact Hw|]. constructor; [|constructor].
        apply Grow_newChick_marks.
      + unfold count. rewrite filter_app, length_app.
        destruct (Grow_newChick_marks random (cursor s)) as [_ Hnew].
        cbn [filter]. rewrite Hnew. cbn [List.length]. lia. }
  destruct Hroster as [Hw' Hcount].
  assert (Hk : carried (carry0 random f s)).
  { unfold carried, carry0. cbn [heights heartCount]. exact Hh. }
  destruct (@forEach_hearts f (seenPlayer f s) roster 0%nat (carry0 random f s) Hw' Hk)
    as [H1 H2].
  split; [|exact H1].
  unfold carry0 in H2 at 2. cbn [heartCount] in H2. lia.
Qed.

Lemma Grow_run_stacked fs : forall s,
  bounded s -> stacked s -> stacked (fst (run random s fs)).
Proof.
  induction fs as [|f fs IH]; intros s Hb Hs; [exact Hs|].
  rewrite Grow_run_cons. cbn [fst]. apply IH.
  - apply Grow_frame_bounded. exact Hb.
  - apply Grow_frame_stacked; [apply Hb | exact Hs].
Qed.

Lemma Grow_initial_stacked : stacked (initial random).
Proof.
  unfold stacked, initial. cbn [heartCountRef heartHeights chickens]. split; [|reflexivity].
  unfold count, createInitialChicks.
  assert (H : forall l, filter isCollected (map (fun i => newChick random (5 * i)) l) = []).
  { induction l as [|a l IHl]; [reflexivity|]. cbn [map filter].
    destruct (Grow_newChick_marks random (5 * a)) as [_ Hnew]. rewrite Hnew. exact IHl. }
  rewrite H. reflexivity.
Qed.

End HeartFacts.

(** X26. One heart per collected drumstick.  After any session of the
    growing roster, the heart counter equals the number of creatures that are
    collected drumsticks, and the list of heart heights is the stack
    6, 6.8, 7.6, ... with one entry per heart. *)
Theorem X26_hearts_match_collected :
  forall random fs,
    ChickensGrow.heartCountRef (fst (ChickensGrow.run random (ChickensGrow.initial random) fs))
    = GrowSpec.count GrowSpec.isCollected
        (ChickensGrow.chickens (fst (ChickensGrow.run random (ChickensGrow.initial random) fs)))
    /\ ChickensGrow.heartHeights
         (fst (ChickensGrow.run random (ChickensGrow.initial random) fs))
       = Hearts.stackHeights
           (ChickensGrow.heartCountRef
              (fst (ChickensGrow.run random (ChickensGrow.initial random) fs)))
    /\ List.length (ChickensGrow.heartHeights
                      (fst (ChickensGrow.run random (ChickensGrow.initial random) fs)))
       = ChickensGrow.heartCountRef
           (fst (ChickensGrow.run random (ChickensGrow.initial random) fs)).
Proof.
  intros random fs.
  destruct (@Grow_run_stacked random fs (ChickensGrow.initial random)
              (Grow_initial_bounded random) (Grow_initial_stacked random)) as [H1 H2].
  split; [exact H1|]. split; [exact H2|].
  rewrite H2. unfold Hearts.stackHeights. rewrite length_map, length_seq. reflexivity.
Qed.

(* ================================================================== *)
(** ** Capture and collection in one frame *)

Section GrowCollectFacts.
Variable random : nat -> R.
Import PlayerStateTs ChickensGrow GrowSpec.

Lemma distanceTo_axis_bounds a b r :
  THREE.distanceTo a b < r ->
  Rabs (THREE.x b - THREE.x a) < r /\ Rabs (THREE.z b - THREE.z a) < r.
Proof.
  intro H.
  assert (Hr : 0 <= r).
  { pose proof (sqrt_pos (THREE.distanceToSquared a b)). unfold THREE.distanceTo in H. lra. }
  split.
  - destruct (Rlt_le_dec (Rabs (THREE.x b - THREE.x a)) r) as [Hlt|Hge]; [exact Hlt|].
    exfalso. rewrite Rabs_minus_sym in Hge.
    pose proof (@distanceTo_ge_x a b r Hr Hge). lra.
  - destruct (Rlt_le_dec (Rabs (THREE.z b - THREE.z a)) r) as [Hlt|Hge]; [exact Hlt|].
    exfalso. rewrite Rabs_minus_sym in Hge.
    pose proof (@distanceTo_ge_z a b r Hr Hge). lra.
Qed.

Lemma Grow_capture_and_collect f p k c :
  mode c <> drumstick -> collected c = false ->
  fireActive (fire f) = true ->
  THREE.distanceTo p (pos (fst (steer random f p (THREE.distanceTo p (pos c)) (rng k) c)))
  < HIT_RADIUS ->
  let r := updateChick random f p k c in
  mode (fst (fst r)) = drumstick
  /\ collected (fst (fst r)) = true
  /\ drumTime (fst (fst r)) = 0
  /\ opacity (fst (fst r)) = 1
  /\ heartCount (snd r) = S (heartCount k)
  /\ (canVibrate f = true -> In (vibrate [60; 40; 60]%nat) (snd (fst r))).
Proof.
  intros Hm Hc Hfire Hd r. subst r.
  rewrite Grow_update_roam by exact Hm. cbv zeta. cbn [fst snd].
  set (d := THREE.distanceTo p (pos c)) in *.
  set (c1 := fst (steer random f p d (rng k) c)) in *.
  destruct (Grow_steer_fields random f p d (rng k) c) as (_ & _ & Hcol & _).
  fold c1 in Hcol.
  destruct (@distanceTo_axis_bounds p (pos c1) HIT_RADIUS Hd) as [Hx Hz].
  assert (Hcap : fireCheck (fire f) p c1 = capture c1).
  { unfold fireCheck. rewrite Hfire.
    rewrite ltb_true by (unfold FIRE_RECT_RANGE, HIT_RADIUS in *; lra).
    rewrite ltb_true by (unfold FIRE_RECT_RANGE, HIT_RADIUS in *; lra).
    reflexivity. }
  rewrite Hcap. unfold collect.
  cbn [mode collected capture set_mode set_drumTime set_opacity mode_eqb andb].
  rewrite Hcol, Hc. cbn [negb]. cbv zeta.
  cbn [pos capture set_mode set_drumTime set_opacity].
  rewrite (ltb_true Hd). cbn [fst snd].
  cbn [mode collected drumTime opacity set_collected heartCount].
  repeat split.
  intro Hv. rewrite Hv. apply in_or_app. right. left. reflexivity.
Qed.

End GrowCollectFacts.

(** X27. In the growing roster, fire at arm's length earns a heart in a
    single frame: with the fire state active, a wandering or chasing creature
    that ends its move closer than the hit radius 2.5 to the player is
    captured by the fire rectangle and collected in the same update (timer 0,
    opacity 1, heart counter plus one, the pickup vibration played), without
    ever being seen as a drumstick. *)
Theorem X27_grow_capture_and_collect :
  forall random f p k c,
    ChickensGrow.mode c <> ChickensGrow.drumstick ->
    ChickensGrow.collected c = false ->
    PlayerStateTs.fireActive (fire f) = true ->
    THREE.distanceTo p
      (ChickensGrow.pos
         (fst (ChickensGrow.steer random f p (THREE.distanceTo p (ChickensGrow.pos c))
                 (ChickensGrow.rng k) c)))
    < ChickensGrow.HIT_RADIUS ->
    ChickensGrow.mode (fst (fst (ChickensGrow.updateChick random f p k c)))
    = ChickensGrow.drumstick
    /\ ChickensGrow.collected (fst (fst (ChickensGrow.updateChick random f p k c))) = true
    /\ ChickensGrow.drumTime (fst (fst (ChickensGrow.updateChick random f p k c))) = 0
    /\ ChickensGrow.opacity (fst (fst (ChickensGrow.updateChick random f p k c))) = 1
    /\ ChickensGrow.heartCount (snd (ChickensGrow.updateChick random f p k c))
       = S (ChickensGrow.heartCount k)
    /\ (canVibrate f = true ->
        In (vibrate [60; 40; 60]%nat)
           (snd (fst (ChickensGrow.updateChick random f p k c)))).
Proof.
  intros random f p k c Hm Hc Hfire Hd.
  exact (@Grow_capture_and_collect random f p k c Hm Hc Hfire Hd).
Qed.

Lemma X27_grow_capture_and_collect_witness :
  ChickensGrow.mode
    (fst (fst (ChickensGrow.updateChick Scenario.half Scenario.crowdFireFrame
                 Scenario.crowdPlayer Scenario.firstCarry
                 (ChickensGrow.newChick Scenario.half 0))))
  = ChickensGrow.drumstick
  /\ ChickensGrow.collected
       (fst (fst (ChickensGrow.updateChick Scenario.half Scenario.crowdFireFrame
                    Scenario.crowdPlayer Scenario.firstCarry
                    (ChickensGrow.newChick Scenario.half 0)))) = true
  /\ ChickensGrow.drumTime
       (fst (fst (ChickensGrow.updateChick Scenario.half Scenario.crowdFireFrame
                    Scenario.crowdPlayer Scenario.firstCarry
                    (ChickensGrow.newChick Scenario.half 0)))) = 0
  /\ ChickensGrow.opacity
       (fst (fst (ChickensGrow.updateChick Scenario.half Scenario.crowdFireFrame
                    Scenario.crowdPlayer Scenario.firstCarry
                    (ChickensGrow.newChick Scenario.half 0)))) = 1
  /\ ChickensGrow.heartCount
       (snd (ChickensGrow.updateChick Scenario.half Scenario.crowdFireFrame
               Scenario.crowdPlayer Scenario.firstCarry
               (ChickensGrow.newChick Scenario.half 0)))
     = S (ChickensGrow.heartCount Scenario.firstCarry)
  /\ (canVibrate Scenario.crowdFireFrame = true ->
      In (vibrate [60; 40; 60]%nat)
         (snd (fst (ChickensGrow.updateChick Scenario.half Scenario.crowdFireFrame
                      Scenario.crowdPlayer Scenario.firstCarry
                      (ChickensGrow.newChick Scenario.half 0))))).
Proof.
  apply (@X27_grow_capture_and_collect Scenario.half Scenario.crowdFireFrame
           Scenario.crowdPlayer Scenario.firstCarry (ChickensGrow.newChick Scenario.half 0)).
  - discriminate.
  - reflexivity.
  - reflexivity.
  - destruct (Grow_half_chick 0) as (Hp0 & Hv0 & _).
    assert (Hd0 : THREE.distanceTo Scenario.crowdPlayer
                    (ChickensGrow.pos (ChickensGrow.newChick Scenario.half 0)) = 0).
    { rewrite Hp0. unfold THREE.distanceTo, THREE.distanceToSquared, Scenario.crowdPlayer.
      cbn [THREE.x THREE.y THREE.z].
      replace ((0 - 0) * (0 - 0) + (8.5 - 8.5) * (8.5 - 8.5) + (-72.5 - -72.5) * (-72.5 - -72.5))
        with 0 by lra.
      apply sqrt_0. }
    rewrite Hd0.
    destruct (Grow_steer_fields Scenario.half Scenario.crowdFireFrame Scenario.crowdPlayer 0
                (ChickensGrow.rng Scenario.firstCarry) (ChickensGrow.newChick Scenario.half 0))
      as (_ & _ & _ & _ & _ & _ & _ & Hpos).
    assert (Hvel : ChickensGrow.vel
                     (fst (ChickensGrow.steer Scenario.half Scenario.crowdFireFrame
                             Scenario.crowdPlayer 0 (ChickensGrow.rng Scenario.firstCarry)
                             (ChickensGrow.newChick Scenario.half 0)))
                   = THREE.vec3 0 0 0).
    { rewrite Grow_steer_velocity_chase by (unfold ChickensGrow.ALERT_RADIUS; lra).
      cbv zeta. rewrite Hp0, Hv0.
      assert (Hflat : THREE.set_y 0 (THREE.sub Scenario.crowdPlayer (THREE.vec3 0 8.5 (-72.5)))
                      = THREE.vec3 0 0 0).
      { unfold THREE.set_y, THREE.sub, Scenario.crowdPlayer. cbn [THREE.x THREE.y THREE.z].
        f_equal; lra. }
      rewrite Hflat.
      assert (Hl : THREE.lengthSq (THREE.vec3 0 0 0) = 0)
        by (unfold THREE.lengthSq; cbn [THREE.x THREE.y THREE.z]; lra).
      rewrite Hl. rewrite gtb_false by lra.
      unfold THREE.lerp, THREE.multiplyScalar. cbn [THREE.x THREE.y THREE.z]. f_equal; lra. }
    rewrite Hpos, Hvel, Hp0.
    apply distanceTo_lt_sq; [unfold ChickensGrow.HIT_RADIUS; lra|].
    unfold THREE.distanceToSquared, Scenario.crowdPlayer, ChickensGrow.BASE_HEIGHT,
      ChickensGrow.HOP_HEIGHT, ChickensGrow.HIT_RADIUS, ChickensGrow.AREA_X,
      ChickensGrow.AREA_Z_MIN, ChickensGrow.AREA_Z_MAX.
    cbn [THREE.x THREE.y THREE.z].
    rewrite !clamp_inside by lra.
    match goal with |- context [sin ?a] => pose proof (SIN_bound a) as [Hs1 Hs2]; set (w := sin a) in * end.
    nra.
Defined.

(* ================================================================== *)
(** ** Between two pickups of one creature *)

Section PickupFacts.
Import PlayerStateTs ChickensRespawn RespawnSpec.
Variable random : nat -> R.





End PickupFacts.


